(** * Plasma <-> TensorFlow transfer ops: a shallow embedding

    Embeds [cpp/src/arrow/python/tensor_util.cc] and
    [cpp/src/plasma/tensorflow_op/tf_plasma_op.cc].

    C++ integers are [Z] with their wrap-around written out, byte buffers are
    [list byte], the Plasma store is a finite map from object ids to objects,
    and a kernel invocation is a computation in a small state/trace/exit monad
    whose trace records the calls the kernel makes to its collaborators. *)

From Stdlib Require Import ZArith Lia.
From Stdlib.Strings Require Import Byte.
From stdpp Require Import base list strings gmap.

Local Open Scope Z_scope.

(** ** Machine integers *)

(** [size_t] and [uint64] arithmetic is modulo 2^64. *)
Definition to_size_t (z : Z) : Z := z mod 2 ^ 64.

(** [static_cast<int64_t>] of a value, two's complement. *)
Definition to_int64 (z : Z) : Z := (z + 2 ^ 63) mod 2 ^ 64 - 2 ^ 63.

(** [sizeof(float)]. *)
Definition sizeof_float : Z := 4.

(** The length of a list as a C++ integer. *)
Definition Zlen {A} (l : list A) : Z := Z.of_nat (length l).

(** ** Results of Arrow calls *)

(** [arrow::StatusCode], the codes other than OK. *)
Inductive StatusCode :=
  | OutOfMemory | KeyError | TypeError | Invalid | IOError | UnknownError
  | NotImplemented | SerializationError
  | PlasmaObjectExists | PlasmaObjectNonexistent | PlasmaStoreFull.

(** What a call that returns an [arrow::Status] can do: succeed with its
    out-parameter, return a status that is not OK, or step outside what C++
    defines (a [memcpy] past the end of a buffer). *)
Inductive Outcome (A : Type) :=
  | Ok (a : A)
  | Error (c : StatusCode)
  | Undefined.
Arguments Ok {A} a.
Arguments Error {A} c.
Arguments Undefined {A}.

Definition obind {A B} (m : Outcome A) (k : A -> Outcome B) : Outcome B :=
  match m with
  | Ok a => k a
  | Error c => Error c
  | Undefined => Undefined
  end.

Declare Scope outcome_scope.
Delimit Scope outcome_scope with outcome.
(** [RETURN_NOT_OK(e); k] *)
Notation "'let*' x ':=' e 'in' k" := (obind e (fun x => k))
  (at level 10, x pattern, e at level 200, k at level 200) : outcome_scope.

(** ** Arrow data types and tensors *)

Inductive ArrowType :=
  | boolean | float16 | float32 | float64
  | int8 | int16 | int32 | int64
  | uint8 | uint16 | uint32 | uint64.

#[global] Instance ArrowType_eq_dec : EqDecision ArrowType.
Proof. solve_decision. Defined.

(** [arrow::Tensor(type, data, shape)]. *)
Record ArrowTensor := {
  tensor_type : ArrowType;
  tensor_data : list byte;
  tensor_shape : list Z
}.

(** ** Output sinks ([arrow::io::OutputStream])

    [TensorFlowTensorGetHeaderSize] writes into a [MockOutputStream],
    [TensorFlowTensorWrite] into a [FixedSizeBufferWriter]; both are used
    through the writable-stream interface. *)
Class OutputStream (S : Type) := {
  Write : S -> list byte -> Outcome S;
  Tell : S -> Outcome Z
}.

(** Modelled from the spec: the byte-counting sink of [arrow/io/memory.cc],
    which stores nothing and counts the bytes written into it. *)
Record MockOutputStream := { extent_bytes_written : Z }.

Definition GetExtentBytesWritten (m : MockOutputStream) : Z :=
  extent_bytes_written m.

#[global] Instance MockOutputStream_sink : OutputStream MockOutputStream := {
  Write m bs := Ok {| extent_bytes_written := extent_bytes_written m + Zlen bs |};
  Tell m := Ok (extent_bytes_written m)
}.

(** [memcpy(dst + pos, src, n)] on a buffer held as a list: the bytes at
    [pos .. pos + n) are replaced; a copy that does not fit is outside what
    C++ defines. *)
Definition memcpy (dst : list byte) (pos : Z) (src : list byte) : Outcome (list byte) :=
  if (0 <=? pos) && (pos + Zlen src <=? Zlen dst) then
    Ok (take (Z.to_nat pos) dst ++ src ++ drop (Z.to_nat pos + length src) dst)
  else Undefined.

(** Modelled from the spec: the writer of [arrow/io/memory.cc] over a
    caller-supplied buffer of fixed size, which copies each write at the
    current position, starting at offset 0, and advances the position. *)
Record FixedSizeBufferWriter := {
  mutable_data : list byte;
  position : Z
}.

Definition FixedSizeBufferWriter_new (buffer : list byte) : FixedSizeBufferWriter :=
  {| mutable_data := buffer; position := 0 |}.

#[global] Instance FixedSizeBufferWriter_sink : OutputStream FixedSizeBufferWriter := {
  Write w bs :=
    (let* data' := memcpy (mutable_data w) (position w) bs in
     Ok {| mutable_data := data'; position := position w + Zlen bs |})%outcome;
  Tell w := Ok (position w)
}.

(** ** The serializer ([arrow/python/python_to_arrow.h])

    [SerializeTensor] and [SerializedPyObject::WriteTo] are not part of the
    two files embedded here; the wire format is a parameter.  [WriteTo]
    hands the serialized object to the sink as a sequence of writes. *)
Class WireFormat := {
  SerializedPyObject : Type;
  SerializeTensor : ArrowTensor -> Outcome SerializedPyObject;
  wire_chunks : SerializedPyObject -> list (list byte)
}.

Fixpoint write_all {S} `{OutputStream S} (dst : S) (chunks : list (list byte)) : Outcome S :=
  match chunks with
  | [] => Ok dst
  | c :: cs => (let* dst' := Write dst c in write_all dst' cs)%outcome
  end.

Definition WriteTo `{WireFormat} {S} `{OutputStream S}
    (obj : SerializedPyObject) (dst : S) : Outcome S :=
  write_all dst (wire_chunks obj).

(** ** tensor_util.cc *)

Section TensorUtil.
Context `{WireFormat}.

Definition empty_tensor (dtype : ArrowType) (shape : list Z) : ArrowTensor :=
  {| tensor_type := dtype; tensor_data := []; tensor_shape := shape |}.

Definition TensorFlowTensorGetHeaderSize (dtype : ArrowType) (shape : list Z)
    : Outcome Z :=
  (let mock := {| extent_bytes_written := 0 |} in
   let* serialized_tensor := SerializeTensor (empty_tensor dtype shape) in
   let* mock' := WriteTo serialized_tensor mock in
   Ok (GetExtentBytesWritten mock'))%outcome.

(** Returns the buffer as written and the offset reported by [Tell]. *)
Definition TensorFlowTensorWrite (dtype : ArrowType) (shape : list Z)
    (buffer : list byte) : Outcome (list byte * Z) :=
  (let buf := FixedSizeBufferWriter_new buffer in
   let* serialized_tensor := SerializeTensor (empty_tensor dtype shape) in
   let* buf' := WriteTo serialized_tensor buf in
   let* offset := Tell buf' in
   Ok (mutable_data buf', offset))%outcome.

(** The bytes of the header of a (dtype, shape) pair, when the serializer
    accepts it. *)
Definition header_bytes (dtype : ArrowType) (shape : list Z) : Outcome (list byte) :=
  (let* serialized_tensor := SerializeTensor (empty_tensor dtype shape) in
   Ok (concat (wire_chunks serialized_tensor)))%outcome.
End TensorUtil.

(** ** TensorFlow data types and tensors *)

Inductive DataType :=
  | DT_INVALID | DT_FLOAT | DT_DOUBLE | DT_INT32 | DT_UINT8 | DT_INT16
  | DT_INT8 | DT_STRING | DT_COMPLEX64 | DT_INT64 | DT_BOOL | DT_QINT8
  | DT_QUINT8 | DT_QINT32 | DT_BFLOAT16 | DT_QINT16 | DT_QUINT16 | DT_UINT16
  | DT_COMPLEX128 | DT_HALF | DT_RESOURCE | DT_VARIANT | DT_UINT32 | DT_UINT64.

#[global] Instance DataType_eq_dec : EqDecision DataType.
Proof. solve_decision. Defined.

(** Element width in bytes of the fixed-width types, 0 for the others
    (TensorFlow's [DataTypeSize]). *)
Definition DataTypeSize (dtype : DataType) : Z :=
  match dtype with
  | DT_BOOL | DT_INT8 | DT_UINT8 | DT_QINT8 | DT_QUINT8 => 1
  | DT_HALF | DT_BFLOAT16 | DT_INT16 | DT_UINT16 | DT_QINT16 | DT_QUINT16 => 2
  | DT_FLOAT | DT_INT32 | DT_UINT32 | DT_QINT32 => 4
  | DT_DOUBLE | DT_INT64 | DT_UINT64 | DT_COMPLEX64 => 8
  | DT_COMPLEX128 => 16
  | DT_INVALID | DT_STRING | DT_RESOURCE | DT_VARIANT => 0
  end.

(** A [tensorflow::Tensor] as the kernels see it: what [dtype()],
    [NumElements()] and [TotalBytes()] return, the bytes behind
    [flat<T>().data()], and the elements of a string tensor. *)
Record Tensor := {
  dtype : DataType;
  NumElements : Z;
  TotalBytes : Z;
  tensor_buf : list byte;
  string_elems : list string
}.

(** What TensorFlow guarantees of a tensor of a fixed-width type: its buffer
    holds [TotalBytes] bytes, which is the element count times the width. *)
Definition tensor_wf (t : Tensor) : Prop :=
  0 <= NumElements t /\
  TotalBytes t = Zlen (tensor_buf t) /\
  (0 < DataTypeSize (dtype t) -> TotalBytes t = NumElements t * DataTypeSize (dtype t)).

(** How a kernel invocation can end a process: a failed [CHECK] or
    [ARROW_CHECK_OK] logs and aborts. *)
Inductive Fatal :=
  | CheckFailure (what : string)
  | ArrowCheckFailure (c : StatusCode).

Inductive Checked (A : Type) :=
  | Passed (a : A)
  | Died (f : Fatal).
Arguments Passed {A} a.
Arguments Died {A} f.

(** [Tensor::flat<T>()] check-fails unless the tensor's type is [T]. *)
Definition flat (T : DataType) (t : Tensor) : Checked (list byte) :=
  if decide (dtype t = T) then Passed (tensor_buf t)
  else Died (CheckFailure "dtype() == expected_dtype").

Definition flat_string (t : Tensor) : Checked (list string) :=
  if decide (dtype t = DT_STRING) then Passed (string_elems t)
  else Died (CheckFailure "dtype() == expected_dtype").

Definition tf_dtype_to_arrow (dtype : DataType) : Checked ArrowType :=
  match dtype with
  | DT_BOOL => Passed boolean
  | DT_FLOAT => Passed float32
  | DT_DOUBLE => Passed float64
  | DT_HALF => Passed float16
  | DT_INT8 => Passed int8
  | DT_INT16 => Passed int16
  | DT_INT32 => Passed int32
  | DT_INT64 => Passed int64
  | DT_UINT8 => Passed uint8
  | DT_UINT16 => Passed uint16
  | DT_UINT32 => Passed uint32
  | DT_UINT64 => Passed uint64
  | DT_BFLOAT16 | DT_COMPLEX64 | DT_COMPLEX128 | DT_INVALID | DT_QINT8
  | DT_QINT16 | DT_QINT32 | DT_QUINT8 | DT_QUINT16 | DT_RESOURCE | DT_STRING
  | DT_VARIANT => Died (ArrowCheckFailure TypeError)
  end.

(** ** The Plasma store client *)

Definition ObjectID := string.

(** Modelled from the spec: an object id is a fixed-length, 20-byte binary
    identifier; [from_binary] copies 20 bytes out of the string it is given,
    which reads past a shorter string. *)
Definition from_binary (binary : string) : Outcome ObjectID :=
  if (String.length binary <? 20)%nat then Undefined
  else Ok (String.substring 0 20 binary).

Record PlasmaObject := {
  obj_data : list byte;
  obj_sealed : bool
}.

(** The store as one client sees it: its objects, the bytes it can still
    allocate, and the contents of memory it has not handed out yet. *)
Record PlasmaClient := {
  objects : gmap string PlasmaObject;
  available : Z;
  uninitialized : nat -> byte
}.

Definition fresh_buffer (c : PlasmaClient) (size : Z) : list byte :=
  map (uninitialized c) (seq 0 (Z.to_nat size)).

(** Modelled from the spec: [Create(id, totalSize)] allocates a new writable
    object and fails if the id already exists or the store is full. *)
Definition Create (object_id : ObjectID) (data_size : Z) (c : PlasmaClient)
    : Outcome PlasmaClient :=
  match objects c !! object_id with
  | Some _ => Error PlasmaObjectExists
  | None =>
      if (data_size <? 0) || (available c <? data_size) then Error PlasmaStoreFull
      else Ok {| objects := <[object_id := {| obj_data := fresh_buffer c data_size;
                                               obj_sealed := false |}]> (objects c);
                 available := available c - data_size;
                 uninitialized := uninitialized c |}
  end.

(** Modelled from the spec: [Seal(id)] finalizes a created object and fails
    if it was not created or is already sealed. *)
Definition Seal (object_id : ObjectID) (c : PlasmaClient) : Outcome PlasmaClient :=
  match objects c !! object_id with
  | None => Error PlasmaObjectNonexistent
  | Some o =>
      if obj_sealed o then Error Invalid
      else Ok {| objects := <[object_id := {| obj_data := obj_data o; obj_sealed := true |}]>
                              (objects c);
                 available := available c;
                 uninitialized := uninitialized c |}
  end.

(** Modelled from the spec: [Get] with [timeout_ms = -1] waits until the
    object is sealed; [None] stands for a wait that does not end. *)
Definition Get (object_id : ObjectID) (c : PlasmaClient) : option (list byte) :=
  match objects c !! object_id with
  | Some o => if obj_sealed o then Some (obj_data o) else None
  | None => None
  end.

(** ** Kernel invocations

    An [AsyncOpKernel::ComputeAsync] call runs against the process state (the
    store client and the two staging streams, which are statics of the
    translation unit) and leaves a trace of the calls it makes. *)

(** [tensorflow::error::Code], the codes other than OK. *)
Inductive TfError := InvalidArgument | Internal | ResourceExhausted | Unknown.

#[global] Instance TfError_eq_dec : EqDecision TfError.
Proof. solve_decision. Defined.

Inductive Event :=
  | CallGetHeaderSize (dtype : ArrowType) (shape : list Z)
  | CallCreate (object_id : ObjectID) (data_size : Z)
  | CallTensorWrite (dtype : ArrowType) (shape : list Z)
  | CallSeal (object_id : ObjectID)
  | CallGet (object_id : ObjectID)
  | CallAllocateOutput (shape : list Z)
  | Copied (dst : Z) (n : Z)
  | SetStatus (st : option TfError)
  | CallDone.

#[global] Instance Event_eq_dec : EqDecision Event.
Proof. solve_decision. Defined.

(** Work enqueued on a [perftools::gputools::Stream]; the closures the
    kernels pass to [ThenExecute] are [wrapped_callback] (Put) and [done]
    (Get). *)
Inductive StreamOp :=
  | WaitFor
  | MemcpyD2H (object_id : ObjectID) (dst : Z) (src : list byte) (n : Z)
  | MemcpyH2D (src : list byte) (n : Z)
  | ExecuteWrappedCallback (object_id : ObjectID)
  | ExecuteDone.

Record World := {
  client_ : PlasmaClient;
  d2h_stream : option (list StreamOp);
  h2d_stream : option (list StreamOp);
  output_tensor : option (list byte)
}.

Inductive Device := CPUDevice | GPUDevice.

(** [OpKernelContext]: the inputs, and what the runtime and the device answer
    when the kernel asks. *)
Record OpKernelContext := {
  inputs : list Tensor;
  orig_stream : bool;
  allocate_output_status : option TfError;
  allocated_memory : nat -> byte;
  HostMemoryRegister_ok : bool;
  Stream_Init_ok : bool;
  ThenWaitFor_ok : bool;
  ThenMemcpy_ok : nat -> bool
}.

Inductive Exit :=
  | Returned
  | Aborted (f : Fatal)
  | Blocked
  | UndefinedBehavior.

Inductive Res (A : Type) :=
  | Val (a : A)
  | Stop (e : Exit).
Arguments Val {A} a.
Arguments Stop {A} e.

#[projections(primitive)]
Record Run (A : Type) := {
  trace : list Event;
  final : World;
  result : Res A
}.
Arguments trace {A} r.
Arguments final {A} r.
Arguments result {A} r.

Definition K (A : Type) : Type := World -> Run A.

Definition kret {A} (a : A) : K A :=
  fun w => {| trace := []; final := w; result := Val a |}.

Definition kbind {A B} (m : K A) (k : A -> K B) : K B :=
  fun w =>
    let r := m w in
    match result r with
    | Val a =>
        let r' := k a (final r) in
        {| trace := trace r ++ trace r'; final := final r'; result := result r' |}
    | Stop e => {| trace := trace r; final := final r; result := Stop e |}
    end.

Declare Scope kernel_scope.
Delimit Scope kernel_scope with kernel.
Notation "'let*' x ':=' e 'in' k" := (kbind e (fun x => k))
  (at level 10, x pattern, e at level 200, k at level 200) : kernel_scope.
Local Open Scope kernel_scope.

Definition emit (e : Event) : K unit :=
  fun w => {| trace := [e]; final := w; result := Val tt |}.

Definition stop {A} (e : Exit) : K A :=
  fun w => {| trace := []; final := w; result := Stop e |}.

Definition CHECK (cond : bool) (what : string) : K unit :=
  if cond then kret tt else stop (Aborted (CheckFailure what)).

Definition checked {A} (c : Checked A) : K A :=
  match c with
  | Passed a => kret a
  | Died f => stop (Aborted f)
  end.

Definition ARROW_CHECK_OK {A} (o : Outcome A) : K A :=
  match o with
  | Ok a => kret a
  | Error c => stop (Aborted (ArrowCheckFailure c))
  | Undefined => stop UndefinedBehavior
  end.

(** A call that reports no status: it ends the invocation only by leaving
    what C++ defines. *)
Definition defined {A} (o : Outcome A) : K A :=
  match o with
  | Ok a => kret a
  | _ => stop UndefinedBehavior
  end.

(** The [DoneCallback] of the invocation. *)
Definition done : K unit := emit CallDone.

(** [OP_REQUIRES_ASYNC(context, cond, status, done)]. *)
Definition OP_REQUIRES_ASYNC (cond : bool) (status : TfError) : K unit :=
  if cond then kret tt
  else
    let* _ := emit (SetStatus (Some status)) in
    let* _ := done in
    stop Returned.

(** [OP_REQUIRES_OK_ASYNC(context, status, done)]. *)
Definition OP_REQUIRES_OK_ASYNC (status : option TfError) : K unit :=
  match status with
  | None => kret tt
  | Some e => OP_REQUIRES_ASYNC false e
  end.

(** [ARROW_CHECK_OK] of a call on [client_] under [mu_]. *)
Definition with_client (f : PlasmaClient -> Outcome PlasmaClient) : K unit :=
  fun w =>
    match f (client_ w) with
    | Ok c' =>
        kret tt {| client_ := c'; d2h_stream := d2h_stream w; h2d_stream := h2d_stream w;
                   output_tensor := output_tensor w |}
    | Error c => stop (Aborted (ArrowCheckFailure c)) w
    | Undefined => stop UndefinedBehavior w
    end.

(** An operation on the memory behind the [data_buffer] that [Create]
    returned: the buffer is the store object's own memory. *)
Definition through_buffer {A} (object_id : ObjectID)
    (f : list byte -> Outcome (list byte * A)) : K A :=
  fun w =>
    match objects (client_ w) !! object_id with
    | None => stop UndefinedBehavior w
    | Some o =>
        match f (obj_data o) with
        | Ok (data', a) =>
            kret a
              {| client_ :=
                   {| objects := <[object_id := {| obj_data := data';
                                                   obj_sealed := obj_sealed o |}]>
                                   (objects (client_ w));
                      available := available (client_ w);
                      uninitialized := uninitialized (client_ w) |};
                 d2h_stream := d2h_stream w; h2d_stream := h2d_stream w;
                 output_tensor := output_tensor w |}
        | Error c => stop (Aborted (ArrowCheckFailure c)) w
        | Undefined => stop UndefinedBehavior w
        end
    end.

(** Reading [n] bytes through a source pointer. *)
Definition read_bytes (src : list byte) (n : Z) : Outcome (list byte) :=
  if n <=? Zlen src then Ok (take (Z.to_nat n) src) else Undefined.

(** A copy of [n] bytes from [src] to byte offset [dst] of the object's
    buffer; [std::memcpy] performs it at once, a stream when it reaches it. *)
Definition copy_to_buffer (object_id : ObjectID) (dst : Z) (src : list byte) (n : Z)
    : K unit :=
  let* _ := through_buffer object_id (fun buf =>
              let* bytes := read_bytes src n in
              let* buf' := memcpy buf dst bytes in
              Ok (buf', tt))%outcome in
  emit (Copied dst n).

Definition set_d2h_stream (q : option (list StreamOp)) : K unit :=
  fun w => kret tt {| client_ := client_ w; d2h_stream := q;
                      h2d_stream := h2d_stream w; output_tensor := output_tensor w |}.

Definition set_h2d_stream (q : option (list StreamOp)) : K unit :=
  fun w => kret tt {| client_ := client_ w; d2h_stream := d2h_stream w;
                      h2d_stream := q; output_tensor := output_tensor w |}.

Definition set_output_tensor (o : option (list byte)) : K unit :=
  fun w => kret tt {| client_ := client_ w; d2h_stream := d2h_stream w;
                      h2d_stream := h2d_stream w; output_tensor := o |}.

(** Enqueueing on a stream pointer; the pointer is null until the stream has
    been created. *)
Definition enqueue_d2h (op : StreamOp) : K unit :=
  fun w =>
    match d2h_stream w with
    | Some q => set_d2h_stream (Some (q ++ [op])) w
    | None => stop UndefinedBehavior w
    end.

Definition enqueue_h2d (op : StreamOp) : K unit :=
  fun w =>
    match h2d_stream w with
    | Some q => set_h2d_stream (Some (q ++ [op])) w
    | None => stop UndefinedBehavior w
    end.

(** ** tf_plasma_op.cc: Put *)

Module TensorToPlasmaOp.
Section Kernel.
Context `{WireFormat}.

(** The loop that fills [offsets] and [total_bytes]; [offsets] starts as
    [[0]] and [total_bytes] as 0. *)
Fixpoint offsets_loop (tensors : list Tensor) (offsets : list Z) (total_bytes : Z)
    : Checked (list Z * Z) :=
  match tensors with
  | [] => Passed (offsets, total_bytes)
  | input :: rest =>
      let s := TotalBytes input in
      if negb (s =? to_size_t (NumElements input * sizeof_float)) then
        Died (CheckFailure "CHECK_EQ(s, context->input(i).NumElements() * sizeof(float))")
      else if negb (0 <? s) then
        Died (CheckFailure "CHECK_GT(s, 0)")
      else
        let total_bytes := to_size_t (total_bytes + s) in
        offsets_loop rest (offsets ++ [total_bytes]) total_bytes
  end.

(** The loop over inputs 1 .. num_inputs - 2 that compares each dtype with
    that of input 0. *)
Fixpoint dtype_loop (tf_dtype : DataType) (others : list Tensor) : Checked unit :=
  match others with
  | [] => Passed tt
  | input :: rest =>
      if decide (tf_dtype <> dtype input) then Died (ArrowCheckFailure TypeError)
      else dtype_loop tf_dtype rest
  end.

Definition wrapped_callback (object_id : ObjectID) : K unit :=
  let* _ := emit (CallSeal object_id) in
  let* _ := with_client (Seal object_id) in
  let* _ := emit (SetStatus None) in
  done.

(** [data + offsets[i] / sizeof(float)], with [data] a [float*] that points
    [offset] bytes into the buffer. *)
Definition destination (offset : Z) (offsets : list Z) (i : nat) : Z :=
  offset + sizeof_float * (nth i offsets 0 / sizeof_float).

(** [static_cast<uint64>(offsets[i + 1] - offsets[i])]. *)
Definition copy_size (offsets : list Z) (i : nat) : Z :=
  to_size_t (nth (S i) offsets 0 - nth i offsets 0).

(** The host loop: one [std::memcpy] per input tensor, from input [i] on. *)
Fixpoint memcpy_loop (object_id : ObjectID) (offset : Z) (offsets : list Z)
    (i : nat) (tensors : list Tensor) : K unit :=
  match tensors with
  | [] => kret tt
  | input_tensor :: rest =>
      let* src := checked (flat DT_FLOAT input_tensor) in
      let* _ := copy_to_buffer object_id (destination offset offsets i) src
                  (copy_size offsets i) in
      memcpy_loop object_id offset offsets (S i) rest
  end.

(** The device loop: one [ThenMemcpy] per input tensor on [d2h_stream],
    given up at the first one that is not accepted. *)
Fixpoint ThenMemcpy_loop (context : OpKernelContext) (object_id : ObjectID)
    (offset : Z) (offsets : list Z) (i : nat) (tensors : list Tensor) : K unit :=
  match tensors with
  | [] => kret tt
  | input_tensor :: rest =>
      let* input_buffer := checked (flat DT_FLOAT input_tensor) in
      let success := ThenMemcpy_ok context i in
      let* _ := (if success
                 then enqueue_d2h (MemcpyD2H object_id (destination offset offsets i)
                                     input_buffer (copy_size offsets i))
                 else kret tt) in
      let* _ := OP_REQUIRES_ASYNC success Internal in
      ThenMemcpy_loop context object_id offset offsets (S i) rest
  end.

(** [d2h_stream] is created and initialized on first use. *)
Definition init_d2h_stream (context : OpKernelContext) : K unit :=
  fun w =>
    match d2h_stream w with
    | Some _ => kret tt w
    | None =>
        (let* _ := set_d2h_stream (Some []) in
         CHECK (Stream_Init_ok context) "CHECK(d2h_stream->Init().ok())") w
    end.

(** [ComputeAsync] up to the header write: arity, offsets, dtypes, the
    object id, the header size, [Create] and the header.  It yields the
    object id, the payload offset and the offset table. *)
Definition stage (context : OpKernelContext) : K (ObjectID * Z * list Z) :=
  let num_inputs := Zlen (inputs context) in
  let* _ := OP_REQUIRES_ASYNC (2 <=? num_inputs) InvalidArgument in
  let num_tensors := num_inputs - 1 in
  let tensors := take (Z.to_nat num_tensors) (inputs context) in
  let* (offsets, total_bytes) := checked (offsets_loop tensors [0] 0) in
  match tensors, last (inputs context) with
  | input0 :: others, Some plasma_object_id =>
      let tf_dtype := dtype input0 in
      let* _ := checked (dtype_loop tf_dtype others) in
      let* _ := CHECK (NumElements plasma_object_id =? 1)
                  "CHECK_EQ(plasma_object_id.NumElements(), 1)" in
      let* strs := checked (flat_string plasma_object_id) in
      let* object_id := defined (match strs with
                                 | plasma_object_id_str :: _ =>
                                     from_binary plasma_object_id_str
                                 | [] => Undefined
                                 end) in
      let* arrow_dtype := checked (tf_dtype_to_arrow tf_dtype) in
      let shape := [to_int64 (total_bytes / sizeof_float)] in
      let* _ := emit (CallGetHeaderSize arrow_dtype shape) in
      let* header_size := ARROW_CHECK_OK (TensorFlowTensorGetHeaderSize arrow_dtype shape) in
      let data_size := to_int64 (header_size + to_int64 total_bytes) in
      let* _ := emit (CallCreate object_id data_size) in
      let* _ := with_client (Create object_id data_size) in
      let* _ := emit (CallTensorWrite arrow_dtype shape) in
      let* offset := through_buffer object_id (TensorFlowTensorWrite arrow_dtype shape) in
      kret (object_id, offset, offsets)
  | _, _ => stop UndefinedBehavior
  end.

(** [ComputeAsync] from [wrapped_callback] on: the copies, then the seal
    and the completion callback, at once on the host and behind the copies
    on the device. *)
Definition transfer (device : Device) (context : OpKernelContext)
    (object_id : ObjectID) (offset : Z) (offsets : list Z) : K unit :=
  let num_tensors := Zlen (inputs context) - 1 in
  let tensors := take (Z.to_nat num_tensors) (inputs context) in
  match device with
  | CPUDevice =>
      let* _ := memcpy_loop object_id offset offsets 0 tensors in
      wrapped_callback object_id
  | GPUDevice =>
      let* _ := OP_REQUIRES_ASYNC (orig_stream context) Internal in
      let* _ := CHECK (HostMemoryRegister_ok context)
                  "CHECK(stream_executor->HostMemoryRegister(data, total_bytes))" in
      let* _ := init_d2h_stream context in
      let* _ := CHECK (ThenWaitFor_ok context)
                  "CHECK(d2h_stream->ThenWaitFor(orig_stream).ok())" in
      let* _ := enqueue_d2h WaitFor in
      let* _ := ThenMemcpy_loop context object_id offset offsets 0 tensors in
      enqueue_d2h (ExecuteWrappedCallback object_id)
  end.

Definition ComputeAsync (device : Device) (context : OpKernelContext) : K unit :=
  let* (object_id, offset, offsets) := stage context in
  transfer device context object_id offset offsets.
End Kernel.
End TensorToPlasmaOp.

(** ** tf_plasma_op.cc: Get *)

Module PlasmaToTensorOp.
(** [h2d_stream] is created and initialized on first use. *)
Definition init_h2d_stream (context : OpKernelContext) : K unit :=
  fun w =>
    match h2d_stream w with
    | Some _ => kret tt w
    | None =>
        (let* _ := set_h2d_stream (Some []) in
         CHECK (Stream_Init_ok context) "CHECK(h2d_stream->Init().ok())") w
    end.

(** The blocking [client_.Get] under [mu_]. *)
Definition client_Get (object_id : ObjectID) : K (list byte) :=
  fun w =>
    match Get object_id (client_ w) with
    | Some data => kret data w
    | None => stop Blocked w
    end.

(** [allocate_output(0, shape, &output_tensor)]: a float tensor of
    [shape[0]] elements, not initialized. *)
Definition allocate_output (context : OpKernelContext) (shape : list Z) : K unit :=
  let* _ := emit (CallAllocateOutput shape) in
  let* _ := OP_REQUIRES_OK_ASYNC (allocate_output_status context) in
  set_output_tensor
    (Some (map (allocated_memory context)
             (seq 0 (Z.to_nat (sizeof_float * nth 0 shape 0))))).

(** A copy of [n] bytes from [src] to the start of the output tensor. *)
Definition copy_to_output (src : list byte) (n : Z) : K unit :=
  fun w =>
    match output_tensor w with
    | None => stop UndefinedBehavior w
    | Some out =>
        (let* out' := defined (let* bytes := read_bytes src n in
                                memcpy out 0 bytes)%outcome in
         let* _ := set_output_tensor (Some out') in
         emit (Copied 0 n)) w
    end.

Definition ComputeAsync (device : Device) (context : OpKernelContext) : K unit :=
  match inputs context with
  | plasma_object_id :: _ =>
      let* _ := CHECK (NumElements plasma_object_id =? 1)
                  "CHECK_EQ(plasma_object_id.NumElements(), 1)" in
      let* strs := checked (flat_string plasma_object_id) in
      let* object_id := defined (match strs with
                                        | plasma_object_id_str :: _ =>
                                            from_binary plasma_object_id_str
                                        | [] => Undefined
                                        end) in
      let* _ := emit (CallGet object_id) in
      let* object_buffer := client_Get object_id in
      let size_in_bytes := Zlen object_buffer in
      let shape := [to_int64 (to_size_t size_in_bytes / sizeof_float)] in
      let plasma_data := object_buffer in
      let* _ := allocate_output context shape in
      match device with
      | CPUDevice =>
          let* _ := copy_to_output plasma_data (to_size_t size_in_bytes) in
          done
      | GPUDevice =>
          let* _ := OP_REQUIRES_ASYNC (orig_stream context) Internal in
          let* _ := init_h2d_stream context in
          (* HostMemoryRegister: its result is not looked at. *)
          let success := ThenMemcpy_ok context 0 in
          let* _ := (if success
                     then enqueue_h2d (MemcpyH2D plasma_data (to_size_t size_in_bytes))
                     else kret tt) in
          let* _ := OP_REQUIRES_ASYNC success Internal in
          let* _ := CHECK (ThenWaitFor_ok context)
                      "CHECK(orig_stream->ThenWaitFor(h2d_stream).ok())" in
          enqueue_h2d ExecuteDone
      end
  | [] => stop UndefinedBehavior
  end.
End PlasmaToTensorOp.

(** ** Staging streams

    A stream runs what was enqueued on it in order, each operation after the
    one before it has finished; [EventMgr::ThenExecute] enqueues a closure. *)

Definition exec_op (op : StreamOp) : K unit :=
  match op with
  | WaitFor => kret tt
  | MemcpyD2H object_id dst src n => copy_to_buffer object_id dst src n
  | MemcpyH2D src n => PlasmaToTensorOp.copy_to_output src n
  | ExecuteWrappedCallback object_id => TensorToPlasmaOp.wrapped_callback object_id
  | ExecuteDone => done
  end.

Fixpoint exec_all (ops : list StreamOp) : K unit :=
  match ops with
  | [] => kret tt
  | op :: rest => let* _ := exec_op op in exec_all rest
  end.

(** The streams run what is pending on them. *)
Definition drain_d2h : K unit :=
  fun w =>
    match d2h_stream w with
    | None => kret tt w
    | Some q => (let* _ := set_d2h_stream (Some []) in exec_all q) w
    end.

Definition drain_h2d : K unit :=
  fun w =>
    match h2d_stream w with
    | None => kret tt w
    | Some q => (let* _ := set_h2d_stream (Some []) in exec_all q) w
    end.

(** The kernel gives control back to the runtime, by [return] or by
    reaching the end of [ComputeAsync]. *)
Definition returning (m : K unit) : K unit :=
  fun w =>
    let r := m w in
    match result r with
    | Stop Returned => {| trace := trace r; final := final r; result := Val tt |}
    | _ => r
    end.

(** An invocation from the call of [ComputeAsync] until the staging streams
    have run what the call left on them. *)
Definition invocation (compute : K unit) : K unit :=
  let* _ := returning compute in
  let* _ := drain_d2h in
  drain_h2d.

Definition Put `{WireFormat} (device : Device) (context : OpKernelContext) : K unit :=
  invocation (TensorToPlasmaOp.ComputeAsync device context).

Definition Get_tensor (device : Device) (context : OpKernelContext) : K unit :=
  invocation (PlasmaToTensorOp.ComputeAsync device context).

(** ** The device path of Put: what goes on the stream *)

(** The copies the device loop enqueues, from input [i] on. *)
Fixpoint copies_from (object_id : ObjectID) (offset : Z) (offsets : list Z) (i : nat)
    (tensors : list Tensor) : list StreamOp :=
  match tensors with
  | [] => []
  | input_tensor :: rest =>
      MemcpyD2H object_id (TensorToPlasmaOp.destination offset offsets i)
        (tensor_buf input_tensor) (TensorToPlasmaOp.copy_size offsets i)
        :: copies_from object_id offset offsets (S i) rest
  end.

(** What a device-path Put hands to [d2h_stream], in program order: the wait
    on the compute stream, one copy per input tensor, and last the closure
    that seals the object and calls [done]. *)
Definition stream_program (object_id : ObjectID) (offset : Z) (offsets : list Z)
    (tensors : list Tensor) : list StreamOp :=
  (WaitFor :: copies_from object_id offset offsets 0 tensors)
    ++ [ExecuteWrappedCallback object_id].

Definition queue_of (w : World) : list StreamOp := default [] (d2h_stream w).

(** ** The device path of Put under interleavings

    Several device-path Puts share [d2h_stream].  Each call of the kernel
    hands its operations to the stream one after the other, in the order in
    which [ComputeAsync] enqueues them, while other calls do the same and
    the stream finishes what it holds in the order it was enqueued.
    [finished] records what has finished, oldest first, tagged with the call
    it belongs to. *)









(** ** Kernel construction and destruction

    [TensorToPlasmaOp] declares members [mu_], [connected_] and [client_];
    inside the class they hide the statics of the same names, so a Put kernel
    connects and disconnects a client of its own.  [PlasmaToTensorOp]
    declares none and works on the statics.  The staging stream pointers are
    statics for both. *)

(** [OpKernelConstruction]: what [GetAttr] answers for the two socket names,
    and what the store answers when the kernel connects to them. *)
Record OpKernelConstruction := {
  GetAttr_plasma_store_socket_name : TfError + string;
  GetAttr_plasma_manager_socket_name : TfError + string;
  Connect_status : option StatusCode
}.

(** Whose [client_] a call is made on: the static one or a kernel's member. *)
Inductive ClientOwner := SharedClient | OwnClient.

#[global] Instance ClientOwner_eq_dec : EqDecision ClientOwner.
Proof. solve_decision. Defined.

Inductive StagingStream := D2H | H2D.

(** What constructors and destructors do that can be seen from outside. *)
Inductive SetupEvent :=
  | CtxFailure (status : TfError)
  | CallConnect (owner : ClientOwner) (store_socket_name manager_socket_name : string)
  | CallDisconnect (owner : ClientOwner)
  | DeleteStream (stream : StagingStream).

(** The statics of the translation unit: the state the kernels run on, the
    flag [connected_], the session of the static [client_], and whether
    [delete] has run on the object behind each stream pointer.  [delete]
    leaves the pointer as it is, so [d2h_stream] and [h2d_stream] of [world]
    stay non-null. *)
Record Process := {
  world : World;
  connected_ : bool;
  session : option (string * string);
  d2h_stream_deleted : bool;
  h2d_stream_deleted : bool
}.

(** A run of a constructor or destructor: what it did, the statics it
    leaves, the object it worked on, and how it ended the process if it
    did. *)
Record Setup (A : Type) := {
  setup_trace : list SetupEvent;
  setup_final : Process;
  setup_object : A;
  setup_exit : option Exit
}.
Arguments setup_trace {A} s.
Arguments setup_final {A} s.
Arguments setup_object {A} s.
Arguments setup_exit {A} s.

(** The members of a Put kernel. *)
Record PutKernel := {
  put_store_socket_name_ : string;
  put_manager_socket_name_ : string;
  put_connected_ : bool;
  put_session : option (string * string)
}.

(** The members of a Get kernel. *)
Record GetKernel := {
  get_store_socket_name_ : string;
  get_manager_socket_name_ : string
}.

(** Modelled from the spec: [Connect] establishes the session of a client
    with the store behind the two sockets and [Disconnect] tears it down;
    both report a status. *)
Definition Connect (store_socket_name manager_socket_name : string)
    (status : option StatusCode) : Outcome (option (string * string)) :=
  match status with
  | None => Ok (Some (store_socket_name, manager_socket_name))
  | Some c => Error c
  end.

Definition Disconnect (status : option StatusCode) : Outcome (option (string * string)) :=
  match status with
  | None => Ok None
  | Some c => Error c
  end.

(** How a failed [ARROW_CHECK_OK] ends the process. *)
Definition fatal {A} (o : Outcome A) : Exit :=
  match o with
  | Error c => Aborted (ArrowCheckFailure c)
  | _ => UndefinedBehavior
  end.

(** The constructor of [TensorToPlasmaOp].  The members start from their
    initializers: [connected_] is false in every new kernel. *)
Definition TensorToPlasmaOp_new (construction : OpKernelConstruction) (p : Process)
    : Setup PutKernel :=
  let this := {| put_store_socket_name_ := ""; put_manager_socket_name_ := "";
                 put_connected_ := false; put_session := None |} in
  match GetAttr_plasma_store_socket_name construction with
  | inl status =>
      {| setup_trace := [CtxFailure status]; setup_final := p; setup_object := this;
         setup_exit := None |}
  | inr store =>
      let this := {| put_store_socket_name_ := store;
                     put_manager_socket_name_ := put_manager_socket_name_ this;
                     put_connected_ := put_connected_ this;
                     put_session := put_session this |} in
      match GetAttr_plasma_manager_socket_name construction with
      | inl status =>
          {| setup_trace := [CtxFailure status]; setup_final := p; setup_object := this;
             setup_exit := None |}
      | inr manager =>
          let this := {| put_store_socket_name_ := store;
                         put_manager_socket_name_ := manager;
                         put_connected_ := put_connected_ this;
                         put_session := put_session this |} in
          if put_connected_ this then
            {| setup_trace := []; setup_final := p; setup_object := this;
               setup_exit := None |}
          else
            match Connect store manager (Connect_status construction) with
            | Ok s =>
                {| setup_trace := [CallConnect OwnClient store manager]; setup_final := p;
                   setup_object := {| put_store_socket_name_ := store;
                                      put_manager_socket_name_ := manager;
                                      put_connected_ := true; put_session := s |};
                   setup_exit := None |}
            | failed =>
                {| setup_trace := [CallConnect OwnClient store manager]; setup_final := p;
                   setup_object := this; setup_exit := Some (fatal failed) |}
            end
      end
  end.

(** [delete] on a stream pointer that is not null; a second [delete] on the
    same object is outside what C++ defines. *)
Definition delete_stream (stream : StagingStream) (p : Process) : Setup unit :=
  let pointer := match stream with
                 | D2H => d2h_stream (world p)
                 | H2D => h2d_stream (world p)
                 end in
  let deleted := match stream with
                 | D2H => d2h_stream_deleted p
                 | H2D => h2d_stream_deleted p
                 end in
  match pointer with
  | None =>
      {| setup_trace := []; setup_final := p; setup_object := tt; setup_exit := None |}
  | Some _ =>
      if deleted then
        {| setup_trace := [DeleteStream stream]; setup_final := p; setup_object := tt;
           setup_exit := Some UndefinedBehavior |}
      else
        {| setup_trace := [DeleteStream stream];
           setup_final :=
             {| world := world p; connected_ := connected_ p; session := session p;
                d2h_stream_deleted := match stream with
                                      | D2H => true
                                      | H2D => d2h_stream_deleted p
                                      end;
                h2d_stream_deleted := match stream with
                                      | D2H => h2d_stream_deleted p
                                      | H2D => true
                                      end |};
           setup_object := tt; setup_exit := None |}
  end.

(** [~TensorToPlasmaOp()]: the kernel's own client is disconnected, then
    [d2h_stream] is deleted if it is not null. *)
Definition TensorToPlasmaOp_delete (this : PutKernel) (Disconnect_status : option StatusCode)
    (p : Process) : Setup PutKernel :=
  match Disconnect Disconnect_status with
  | Ok s =>
      let this := {| put_store_socket_name_ := put_store_socket_name_ this;
                     put_manager_socket_name_ := put_manager_socket_name_ this;
                     put_connected_ := put_connected_ this; put_session := s |} in
      let r := delete_stream D2H p in
      {| setup_trace := CallDisconnect OwnClient :: setup_trace r;
         setup_final := setup_final r; setup_object := this; setup_exit := setup_exit r |}
  | failed =>
      {| setup_trace := [CallDisconnect OwnClient]; setup_final := p; setup_object := this;
         setup_exit := Some (fatal failed) |}
  end.

(** The constructor of [PlasmaToTensorOp]: the static client is
    connected unless the static flag says it is. *)
Definition PlasmaToTensorOp_new (construction : OpKernelConstruction) (p : Process)
    : Setup GetKernel :=
  let this := {| get_store_socket_name_ := ""; get_manager_socket_name_ := "" |} in
  match GetAttr_plasma_store_socket_name construction with
  | inl status =>
      {| setup_trace := [CtxFailure status]; setup_final := p; setup_object := this;
         setup_exit := None |}
  | inr store =>
      let this := {| get_store_socket_name_ := store;
                     get_manager_socket_name_ := get_manager_socket_name_ this |} in
      match GetAttr_plasma_manager_socket_name construction with
      | inl status =>
          {| setup_trace := [CtxFailure status]; setup_final := p; setup_object := this;
             setup_exit := None |}
      | inr manager =>
          let this := {| get_store_socket_name_ := store;
                         get_manager_socket_name_ := manager |} in
          if connected_ p then
            {| setup_trace := []; setup_final := p; setup_object := this;
               setup_exit := None |}
          else
            match Connect store manager (Connect_status construction) with
            | Ok s =>
                {| setup_trace := [CallConnect SharedClient store manager];
                   setup_final :=
                     {| world := world p; connected_ := true; session := s;
                        d2h_stream_deleted := d2h_stream_deleted p;
                        h2d_stream_deleted := h2d_stream_deleted p |};
                   setup_object := this; setup_exit := None |}
            | failed =>
                {| setup_trace := [CallConnect SharedClient store manager];
                   setup_final := p; setup_object := this;
                   setup_exit := Some (fatal failed) |}
            end
      end
  end.

(** [~PlasmaToTensorOp()]: the static client is disconnected, with
    [connected_] left as it is, then [h2d_stream] is deleted if it is not
    null. *)
Definition PlasmaToTensorOp_delete (Disconnect_status : option StatusCode) (p : Process)
    : Setup unit :=
  match Disconnect Disconnect_status with
  | Ok s =>
      let r := delete_stream H2D
                 {| world := world p; connected_ := connected_ p; session := s;
                    d2h_stream_deleted := d2h_stream_deleted p;
                    h2d_stream_deleted := h2d_stream_deleted p |} in
      {| setup_trace := CallDisconnect SharedClient :: setup_trace r;
         setup_final := setup_final r; setup_object := tt; setup_exit := setup_exit r |}
  | failed =>
      {| setup_trace := [CallDisconnect SharedClient]; setup_final := p; setup_object := tt;
         setup_exit := Some (fatal failed) |}
  end.

(** What the runtime does with kernels over the life of a process: it
    constructs and destroys them, in some order. *)
Inductive LifeOp :=
  | NewPut (construction : OpKernelConstruction)
  | DeletePut (this : PutKernel) (Disconnect_status : option StatusCode)
  | NewGet (construction : OpKernelConstruction)
  | DeleteGet (Disconnect_status : option StatusCode).

Definition life_op (op : LifeOp) (p : Process) : Setup unit :=
  match op with
  | NewPut construction =>
      let r := TensorToPlasmaOp_new construction p in
      {| setup_trace := setup_trace r; setup_final := setup_final r; setup_object := tt;
         setup_exit := setup_exit r |}
  | DeletePut this status =>
      let r := TensorToPlasmaOp_delete this status p in
      {| setup_trace := setup_trace r; setup_final := setup_final r; setup_object := tt;
         setup_exit := setup_exit r |}
  | NewGet construction =>
      let r := PlasmaToTensorOp_new construction p in
      {| setup_trace := setup_trace r; setup_final := setup_final r; setup_object := tt;
         setup_exit := setup_exit r |}
  | DeleteGet status => PlasmaToTensorOp_delete status p
  end.

Fixpoint run_life (ops : list LifeOp) (p : Process) : Setup unit :=
  match ops with
  | [] => {| setup_trace := []; setup_final := p; setup_object := tt; setup_exit := None |}
  | op :: rest =>
      let r := life_op op p in
      match setup_exit r with
      | Some e => r
      | None =>
          let r' := run_life rest (setup_final r) in
          {| setup_trace := setup_trace r ++ setup_trace r'; setup_final := setup_final r';
             setup_object := tt; setup_exit := setup_exit r' |}
      end
  end.

(** A process at its start: nothing connected, no stream created. *)
Definition process_start (w : World) : Process :=
  {| world := w; connected_ := false; session := None;
     d2h_stream_deleted := false; h2d_stream_deleted := false |}.

(** ** Vocabulary of the properties *)

(** The per-tensor checks of the offsets loop. *)
Definition size_checks (t : Tensor) : Prop :=
  TotalBytes t = to_size_t (NumElements t * sizeof_float) /\ 0 < TotalBytes t.

Definition sum_bytes (tensors : list Tensor) : Z :=
  foldr (fun t acc => TotalBytes t + acc) 0 tensors.

(** The values the loop pushes, and the value it leaves in [total_bytes]. *)
Fixpoint running_totals (total_bytes : Z) (tensors : list Tensor) : list Z :=
  match tensors with
  | [] => []
  | t :: rest =>
      to_size_t (total_bytes + TotalBytes t)
        :: running_totals (to_size_t (total_bytes + TotalBytes t)) rest
  end.

Definition final_total (total_bytes : Z) (tensors : list Tensor) : Z :=
  foldl (fun acc t => to_size_t (acc + TotalBytes t)) total_bytes tensors.

(** The tensor holds one string, which decodes to the object id. *)
Definition names_object (plasma_object_id : Tensor) (object_id : ObjectID) : Prop :=
  NumElements plasma_object_id = 1 /\
  dtype plasma_object_id = DT_STRING /\
  exists plasma_object_id_str rest,
    string_elems plasma_object_id = plasma_object_id_str :: rest /\
    from_binary plasma_object_id_str = Ok object_id.

(** Two tensors that differ at most in the bytes they hold. *)
Definition same_descriptor (t1 t2 : Tensor) : Prop :=
  dtype t1 = dtype t2 /\
  NumElements t1 = NumElements t2 /\
  TotalBytes t1 = TotalBytes t2 /\
  string_elems t1 = string_elems t2.

(** Every event a computation leaves in the trace satisfies [P], whatever
    state it starts from. *)
Definition emits {A} (P : Event -> Prop) (m : K A) : Prop :=
  forall w, Forall P (trace (m w)).

(** The events of the copy-and-seal half of Put. *)
Definition transfer_event (e : Event) : Prop :=
  match e with
  | Copied _ _ | CallSeal _ | SetStatus _ | CallDone => True
  | _ => False
  end.

(** How often [done] was called in a trace. *)
Definition count_done (tr : list Event) : nat := count_occ Event_eq_dec tr CallDone.

(** The closures waiting on a stream; each of them ends in [done]. *)
Definition is_callback (op : StreamOp) : bool :=
  match op with
  | ExecuteWrappedCallback _ | ExecuteDone => true
  | _ => false
  end.

Fixpoint callbacks (q : list StreamOp) : nat :=
  match q with
  | [] => 0
  | op :: rest => ((if is_callback op then 1 else 0) + callbacks rest)%nat
  end.

Definition pending_on (stream : option (list StreamOp)) : nat :=
  match stream with
  | Some q => callbacks q
  | None => 0%nat
  end.

Definition pending (w : World) : nat :=
  (pending_on (d2h_stream w) + pending_on (h2d_stream w))%nat.

(** Calls of [done] made plus closures left waiting, after a run from [w]. *)
Definition signalled {A} (r : Run A) : nat :=
  (count_done (trace r) + pending (final r))%nat.

(** A step that signals completion [n] times when it finishes, no more than
    that when it does not, and never returns to the runtime on its own. *)
Definition advances (n : nat) {A} (m : K A) : Prop :=
  forall w,
    (signalled (m w) <= n + pending w)%nat /\
    (forall a, result (m w) = Val a -> signalled (m w) = (n + pending w)%nat) /\
    result (m w) <> Stop Returned.

(** A step that may return to the runtime early: it has then signalled
    completion once; when it goes on it has done so [n] times, and never
    more than once when the process ends. *)
Definition guarded (n : nat) {A} (m : K A) : Prop :=
  forall w,
    match result (m w) with
    | Val _ => signalled (m w) = (n + pending w)%nat
    | Stop Returned => signalled (m w) = (1 + pending w)%nat
    | Stop _ => (signalled (m w) <= 1 + pending w)%nat
    end.

(** A step that leaves both staging streams as they are. *)
Definition keeps_streams {A} (m : K A) : Prop :=
  forall w,
    d2h_stream (final (m w)) = d2h_stream w /\ h2d_stream (final (m w)) = h2d_stream w.



(** The process state with one store object replaced. *)
Definition set_object (w : World) (object_id : ObjectID) (o : PlasmaObject) : World :=
  {| client_ := {| objects := <[object_id := o]> (objects (client_ w));
                   available := available (client_ w);
                   uninitialized := uninitialized (client_ w) |};
     d2h_stream := d2h_stream w; h2d_stream := h2d_stream w;
     output_tensor := output_tensor w |}.

(** The offsets from entry [i] on step by the sizes of the buffers of
    [tensors], stay multiples of [sizeof(float)] and within [size_t]. *)
Definition steps_by (offsets : list Z) (i : nat) (tensors : list Tensor) : Prop :=
  forall k t,
    tensors !! k = Some t ->
    nth (S (i + k)) offsets 0 = nth (i + k) offsets 0 + Zlen (tensor_buf t) /\
    nth (i + k) offsets 0 mod sizeof_float = 0 /\
    Zlen (tensor_buf t) < 2 ^ 64.

(** A step whose final state is related by [R] to the state it starts
    from, however it ends. *)
Definition respects (R : World -> World -> Prop) {A} (m : K A) : Prop :=
  forall w, R w (final (m w)).

(** The store is the same in both states. *)
Definition same_client (w w' : World) : Prop := client_ w' = client_ w.

(** The store objects other than [object_id] are the same in both states. *)
Definition same_but (object_id : ObjectID) (w w' : World) : Prop :=
  forall id,
    id <> object_id ->
    objects (client_ w') !! id = objects (client_ w) !! id.

(** No object is sealed in [w'] that was not sealed in [w]. *)
Definition no_new_seal (w w' : World) : Prop :=
  forall id o,
    objects (client_ w') !! id = Some o -> obj_sealed o = true ->
    exists o0, objects (client_ w) !! id = Some o0 /\ obj_sealed o0 = true.

(** A step that seals nothing unless it sets the status to OK. *)
Definition seals_with_status {A} (m : K A) : Prop :=
  forall w, SetStatus None ∈ trace (m w) \/ no_new_seal w (final (m w)).

(** Two states that differ at most in the staging streams. *)
Definition same_store (w w' : World) : Prop :=
  client_ w = client_ w' /\ output_tensor w = output_tensor w'.

(** A step that neither reads nor writes the staging streams. *)
Definition stream_blind {A} (m : K A) : Prop :=
  forall w w',
    same_store w w' ->
    trace (m w) = trace (m w') /\
    result (m w) = result (m w') /\
    same_store (final (m w)) (final (m w')).

(** Nothing is waiting on either staging stream. *)
Definition idle (w : World) : Prop :=
  default [] (d2h_stream w) = [] /\ default [] (h2d_stream w) = [].

(** A device and runtime that accept everything the kernels ask of them. *)
Definition accepting (context : OpKernelContext) : Prop :=
  orig_stream context = true /\
  HostMemoryRegister_ok context = true /\
  Stream_Init_ok context = true /\
  ThenWaitFor_ok context = true /\
  forall i, ThenMemcpy_ok context i = true.

(** The input tensors of a Put: all inputs but the last. *)
Definition put_tensors (context : OpKernelContext) : list Tensor :=
  take (Z.to_nat (Zlen (inputs context) - 1)) (inputs context).

(** The socket names of the [Connect] calls made on the client of [owner],
    in order. *)
Fixpoint connects_of (owner : ClientOwner) (tr : list SetupEvent) : list (string * string) :=
  match tr with
  | [] => []
  | CallConnect o store manager :: rest =>
      if decide (o = owner) then (store, manager) :: connects_of owner rest
      else connects_of owner rest
  | _ :: rest => connects_of owner rest
  end.

(** The socket names of a construction that has both. *)
Definition socket_names (construction : OpKernelConstruction) : option (string * string) :=
  match GetAttr_plasma_store_socket_name construction,
        GetAttr_plasma_manager_socket_name construction with
  | inr store, inr manager => Some (store, manager)
  | _, _ => None
  end.

(** The socket names of the Put kernels constructed, in order. *)
Fixpoint put_socket_names (ops : list LifeOp) : list (string * string) :=
  match ops with
  | [] => []
  | NewPut construction :: rest =>
      match socket_names construction with
      | Some names => names :: put_socket_names rest
      | None => put_socket_names rest
      end
  | _ :: rest => put_socket_names rest
  end.

(** How many Put kernels, and how many Get kernels, are destroyed. *)
Fixpoint put_deletes (ops : list LifeOp) : nat :=
  match ops with
  | [] => 0
  | DeletePut _ _ :: rest => S (put_deletes rest)
  | _ :: rest => put_deletes rest
  end.

Fixpoint get_deletes (ops : list LifeOp) : nat :=
  match ops with
  | [] => 0
  | DeleteGet _ :: rest => S (get_deletes rest)
  | _ :: rest => get_deletes rest
  end.

(** The state after the store has handed out [data_size] bytes for an
    object [o] under [object_id]. *)
Definition with_object (w : World) (object_id : ObjectID) (o : PlasmaObject) (data_size : Z)
    : World :=
  {| client_ := {| objects := <[object_id := o]> (objects (client_ w));
                   available := available (client_ w) - data_size;
                   uninitialized := uninitialized (client_ w) |};
     d2h_stream := d2h_stream w; h2d_stream := h2d_stream w;
     output_tensor := output_tensor w |}.

(** A step that leaves no event when it runs to its end. *)
Definition quiet {A} (m : K A) : Prop :=
  forall w a, result (m w) = Val a -> trace (m w) = [].

(** The two halves of Get's [ComputeAsync]: up to the allocation of the
    output, which yields the bytes of the object, and from there on. *)
Definition fetch (context : OpKernelContext) : K (list byte) :=
  match inputs context with
  | plasma_object_id :: _ =>
      let* _ := CHECK (NumElements plasma_object_id =? 1)
                  "CHECK_EQ(plasma_object_id.NumElements(), 1)" in
      let* strs := checked (flat_string plasma_object_id) in
      let* object_id := defined (match strs with
                                 | plasma_object_id_str :: _ =>
                                     from_binary plasma_object_id_str
                                 | [] => Undefined
                                 end) in
      let* _ := emit (CallGet object_id) in
      let* object_buffer := PlasmaToTensorOp.client_Get object_id in
      let size_in_bytes := Zlen object_buffer in
      let shape := [to_int64 (to_size_t size_in_bytes / sizeof_float)] in
      let* _ := PlasmaToTensorOp.allocate_output context shape in
      kret object_buffer
  | [] => stop UndefinedBehavior
  end.

Definition deliver (device : Device) (context : OpKernelContext) (plasma_data : list byte)
    : K unit :=
  let size_in_bytes := Zlen plasma_data in
  match device with
  | CPUDevice =>
      let* _ := PlasmaToTensorOp.copy_to_output plasma_data (to_size_t size_in_bytes) in
      done
  | GPUDevice =>
      let* _ := OP_REQUIRES_ASYNC (orig_stream context) Internal in
      let* _ := PlasmaToTensorOp.init_h2d_stream context in
      let success := ThenMemcpy_ok context 0 in
      let* _ := (if success
                 then enqueue_h2d (MemcpyH2D plasma_data (to_size_t size_in_bytes))
                 else kret tt) in
      let* _ := OP_REQUIRES_ASYNC success Internal in
      let* _ := CHECK (ThenWaitFor_ok context)
                  "CHECK(orig_stream->ThenWaitFor(h2d_stream).ok())" in
      enqueue_h2d ExecuteDone
  end.

(** A step in the life of a Put kernel. *)
Definition is_put_op (op : LifeOp) : Prop :=
  match op with
  | NewPut _ | DeletePut _ _ => True
  | _ => False
  end.

(** ** A wire format and inputs to run the model on

    Arrow's tensor header is fixed by [SerializeTensor]; to run the kernels a
    format is needed, and this one writes an 8-byte header in two writes: a
    tensor count, then a type tag. *)

Definition type_tag (ty : ArrowType) : byte :=
  match ty with
  | boolean => x01 | float16 => x0a | float32 => x0b | float64 => x0c
  | int8 => x03 | int16 => x05 | int32 => x07 | int64 => x09
  | uint8 => x02 | uint16 => x04 | uint32 => x06 | uint64 => x08
  end.

Definition sample_format : WireFormat :=
  {| SerializedPyObject := ArrowTensor;
     SerializeTensor t := Ok t;
     wire_chunks t := [[x01; x00; x00; x00]; [type_tag (tensor_type t); x00; x00; x00]] |}.

Definition float_tensor (buf : list byte) : Tensor :=
  {| dtype := DT_FLOAT; NumElements := Zlen buf / 4; TotalBytes := Zlen buf;
     tensor_buf := buf; string_elems := [] |}.

Definition string_tensor (strs : list string) : Tensor :=
  {| dtype := DT_STRING; NumElements := Zlen strs; TotalBytes := 0;
     tensor_buf := []; string_elems := strs |}.

Definition sample_id : string := "0123456789abcdefghij".

Definition sample_context (ins : list Tensor) : OpKernelContext :=
  {| inputs := ins; orig_stream := true; allocate_output_status := None;
     allocated_memory := fun _ => xff; HostMemoryRegister_ok := true;
     Stream_Init_ok := true; ThenWaitFor_ok := true; ThenMemcpy_ok := fun _ => true |}.

Definition empty_world : World :=
  {| client_ := {| objects := ∅; available := 4096; uninitialized := fun _ => xee |};
     d2h_stream := None; h2d_stream := None; output_tensor := None |}.

(** A process whose store holds one sealed object, under [sample_id]. *)
Definition sealed_world (data : list byte) : World :=
  {| client_ := {| objects := {[ sample_id := {| obj_data := data; obj_sealed := true |} ]};
                   available := 4096; uninitialized := fun _ => xee |};
     d2h_stream := None; h2d_stream := None; output_tensor := None |}.

(** A float tensor of 2^61 elements, 2^63 bytes. *)
Definition huge_tensor : Tensor :=
  {| dtype := DT_FLOAT; NumElements := 2 ^ 61; TotalBytes := 2 ^ 63;
     tensor_buf := repeat x00 (Z.to_nat (2 ^ 63)); string_elems := [] |}.

(** A float tensor of 2^62 - 1 elements, 2^64 - 4 bytes. *)
Definition wide_tensor : Tensor :=
  {| dtype := DT_FLOAT; NumElements := 2 ^ 62 - 1; TotalBytes := 2 ^ 64 - 4;
     tensor_buf := repeat x00 (Z.to_nat (2 ^ 64 - 4)); string_elems := [] |}.

(** A second object id. *)
Definition other_id : string := "ABCDEFGHIJKLMNOPQRST".

(** An int32 tensor over a buffer. *)
Definition int32_tensor (buf : list byte) : Tensor :=
  {| dtype := DT_INT32; NumElements := Zlen buf / 4; TotalBytes := Zlen buf;
     tensor_buf := buf; string_elems := [] |}.

(** A construction whose attributes are set and whose store answers. *)
Definition sample_construction (store manager : string) : OpKernelConstruction :=
  {| GetAttr_plasma_store_socket_name := inr store;
     GetAttr_plasma_manager_socket_name := inr manager;
     Connect_status := None |}.

(** A format whose serializer takes tensors of at most two elements. *)
Definition small_format : WireFormat :=
  {| SerializedPyObject := ArrowTensor;
     SerializeTensor t := if forallb (fun n => n <=? 2) (tensor_shape t) then Ok t
                          else Error Invalid;
     wire_chunks t := [[x01; x00; x00; x00]; [type_tag (tensor_type t); x00; x00; x00]] |}.

(** * Properties *)

(** ** Buffers *)

Lemma Zlen_app {A} (l k : list A) : Zlen (l ++ k) = Zlen l + Zlen k.
Proof. unfold Zlen. rewrite length_app. lia. Qed.

Lemma Zlen_nonneg {A} (l : list A) : 0 <= Zlen l.
Proof. unfold Zlen. lia. Qed.

Lemma Zlen_to_nat {A} (l : list A) : Z.to_nat (Zlen l) = length l.
Proof. unfold Zlen. lia. Qed.

(** The two large sample tensors are tensors TensorFlow can describe: their
    sizes fit [int64_t] and [size_t] and agree with their buffers. *)
Lemma huge_tensor_wf : tensor_wf huge_tensor /\ size_checks huge_tensor.
Proof.
  unfold tensor_wf, size_checks, huge_tensor, Zlen, to_size_t, sizeof_float.
  cbn -[Z.to_nat repeat Z.pow].
  rewrite repeat_length, Z2Nat.id by lia.
  repeat split; lia.
Qed.

Lemma wide_tensor_wf : tensor_wf wide_tensor /\ size_checks wide_tensor.
Proof.
  unfold tensor_wf, size_checks, wide_tensor, Zlen, to_size_t, sizeof_float.
  cbn -[Z.to_nat repeat Z.pow].
  rewrite repeat_length, Z2Nat.id by lia.
  repeat split; lia.
Qed.

(** A copy over the middle of a buffer replaces the middle. *)
Lemma memcpy_middle (pre mid post src : list byte) :
  length mid = length src ->
  memcpy (pre ++ mid ++ post) (Zlen pre) src = Ok (pre ++ src ++ post).
Proof.
  intros Hlen. unfold memcpy.
  rewrite !Zlen_app, Zlen_to_nat.
  replace (Zlen mid) with (Zlen src) by (unfold Zlen; lia).
  pose proof (Zlen_nonneg pre). pose proof (Zlen_nonneg post).
  replace ((0 <=? Zlen pre) &&
           (Zlen pre + Zlen src <=? Zlen pre + (Zlen src + Zlen post)))
    with true by (symmetry; apply andb_true_intro; split; apply Z.leb_le; lia).
  rewrite take_app_length, drop_app_add, app_assoc.
  rewrite <- Hlen, drop_app_length. now rewrite <- app_assoc.
Qed.

(** ** tensor_util.cc *)

Section TensorUtilFacts.
Context `{WireFormat}.

Lemma write_all_mock (chunks : list (list byte)) (m : MockOutputStream) :
  write_all m chunks =
  Ok {| extent_bytes_written := extent_bytes_written m + Zlen (concat chunks) |}.
Proof.
  revert m. induction chunks as [|c cs IH]; intros [n]; simpl.
  - now rewrite Z.add_0_r.
  - rewrite IH. simpl. rewrite Zlen_app. do 2 f_equal. lia.
Qed.

Lemma write_all_fixed (chunks : list (list byte)) :
  forall pre mid post,
    length mid = length (concat chunks) ->
    write_all {| mutable_data := pre ++ mid ++ post; position := Zlen pre |} chunks =
    Ok {| mutable_data := pre ++ concat chunks ++ post;
          position := Zlen pre + Zlen (concat chunks) |}.
Proof.
  induction chunks as [|c cs IH]; intros pre mid post Hlen; simpl in *.
  - destruct mid; [|discriminate]. simpl. now rewrite Z.add_0_r.
  - rewrite length_app in Hlen.
    rewrite <- (take_drop (length c) mid), <- app_assoc.
    rewrite memcpy_middle by (rewrite length_take; lia). simpl.
    replace (Zlen pre + Zlen c) with (Zlen (pre ++ c))
      by apply Zlen_app.
    replace (pre ++ c ++ drop (length c) mid ++ post)
      with ((pre ++ c) ++ drop (length c) mid ++ post) by now rewrite <- app_assoc.
    rewrite IH by (rewrite length_drop; lia).
    rewrite !Zlen_app, <- !app_assoc. do 2 f_equal. lia.
Qed.

Lemma HeaderSize_is_header_length dtype shape :
  TensorFlowTensorGetHeaderSize dtype shape =
  (let* hdr := header_bytes dtype shape in Ok (Zlen hdr))%outcome.
Proof.
  unfold TensorFlowTensorGetHeaderSize, header_bytes, WriteTo.
  destruct (SerializeTensor (empty_tensor dtype shape)) as [s| |]; simpl; try reflexivity.
  now rewrite write_all_mock.
Qed.

Lemma TensorWrite_writes_header dtype shape hdr header_region payload_region :
  header_bytes dtype shape = Ok hdr ->
  length header_region = length hdr ->
  TensorFlowTensorWrite dtype shape (header_region ++ payload_region) =
  Ok (hdr ++ payload_region, Zlen hdr).
Proof.
  unfold TensorFlowTensorWrite, header_bytes, WriteTo, FixedSizeBufferWriter_new.
  destruct (SerializeTensor (empty_tensor dtype shape)) as [s| |]; simpl; try discriminate.
  intros [= <-] Hlen.
  pose proof (write_all_fixed (wire_chunks s) [] header_region payload_region Hlen) as Hw.
  change (Zlen (@nil byte)) with 0 in Hw. simpl in Hw.
  rewrite Hw. simpl. now rewrite Z.add_0_l.
Qed.
End TensorUtilFacts.

(** C10: for every (dtype, shape) the serializer accepts, [TensorFlowTensorWrite]
    into a buffer made of a header region of [TensorFlowTensorGetHeaderSize]
    bytes followed by the payload region reports that same byte count as the
    payload offset, fills exactly the header region with the header, and
    leaves the payload region as it was. *)
Theorem TensorWrite_offset_eq_HeaderSize `{WireFormat}
    (dtype : ArrowType) (shape : list Z) (header_size : Z)
    (header_region payload_region : list byte) :
  TensorFlowTensorGetHeaderSize dtype shape = Ok header_size ->
  Zlen header_region = header_size ->
  exists hdr,
    header_bytes dtype shape = Ok hdr /\
    Zlen hdr = header_size /\
    TensorFlowTensorWrite dtype shape (header_region ++ payload_region) =
      Ok (hdr ++ payload_region, header_size).
Proof.
  intros Hsize Hregion. rewrite HeaderSize_is_header_length in Hsize.
  destruct (header_bytes dtype shape) as [hdr| |] eqn:Hhdr; simpl in Hsize; try discriminate.
  injection Hsize as Hsize. exists hdr. split; [reflexivity|]. split; [exact Hsize|].
  rewrite <- Hsize. apply TensorWrite_writes_header; [exact Hhdr|].
  unfold Zlen in *. lia.
Qed.

Lemma TensorWrite_offset_eq_HeaderSize_witness :
  exists hdr,
    @header_bytes sample_format float32 [3] = Ok hdr /\
    Zlen hdr = 8 /\
    @TensorFlowTensorWrite sample_format float32 [3]
      (repeat x00 8 ++ [x0a; x0b; x0c; x0d]) = Ok (hdr ++ [x0a; x0b; x0c; x0d], 8).
Proof.
  apply (@TensorWrite_offset_eq_HeaderSize sample_format float32 [3] 8
           (repeat x00 8) [x0a; x0b; x0c; x0d]); reflexivity.
Defined.

(** ** The offset table *)

Lemma to_size_t_small z : 0 <= z < 2 ^ 64 -> to_size_t z = z.
Proof. intros. unfold to_size_t. now apply Z.mod_small. Qed.

Lemma to_size_t_range z : 0 <= to_size_t z < 2 ^ 64.
Proof. unfold to_size_t. apply Z.mod_pos_bound. lia. Qed.

Lemma to_size_t_add_l a b : to_size_t (to_size_t a + b) = to_size_t (a + b).
Proof. unfold to_size_t. apply Zplus_mod_idemp_l. Qed.

Lemma to_int64_small z : - 2 ^ 63 <= z < 2 ^ 63 -> to_int64 z = z.
Proof. intros. unfold to_int64. rewrite Z.mod_small; lia. Qed.

Section OffsetsFacts.
Import TensorToPlasmaOp.

Lemma offsets_loop_passed tensors : forall offsets total_bytes,
  Forall size_checks tensors ->
  offsets_loop tensors offsets total_bytes =
  Passed (offsets ++ running_totals total_bytes tensors, final_total total_bytes tensors).
Proof.
  induction tensors as [|t rest IH]; intros offsets total_bytes Hall; simpl.
  - now rewrite app_nil_r.
  - inversion Hall as [|? ? [Heq Hpos] Hrest]; subst.
    rewrite <- Heq, Z.eqb_refl. simpl.
    replace (0 <? TotalBytes t) with true by (symmetry; now apply Z.ltb_lt).
    simpl. rewrite IH by assumption. now rewrite <- app_assoc.
Qed.

Lemma offsets_loop_checks tensors : forall offsets total_bytes r,
  offsets_loop tensors offsets total_bytes = Passed r -> Forall size_checks tensors.
Proof.
  induction tensors as [|t rest IH]; intros offsets total_bytes r Hr; simpl in Hr.
  - constructor.
  - destruct (TotalBytes t =? to_size_t (NumElements t * sizeof_float)) eqn:Heq;
      simpl in Hr; [|discriminate].
    destruct (0 <? TotalBytes t) eqn:Hpos; simpl in Hr; [|discriminate].
    constructor; [|eauto].
    split; [now apply Z.eqb_eq | now apply Z.ltb_lt].
Qed.

Lemma running_totals_length tensors : forall total_bytes,
  length (running_totals total_bytes tensors) = length tensors.
Proof. induction tensors; intros; simpl; auto. Qed.

Lemma running_totals_step tensors : forall total_bytes k t,
  tensors !! k = Some t ->
  nth (S k) (total_bytes :: running_totals total_bytes tensors) 0 =
  to_size_t (nth k (total_bytes :: running_totals total_bytes tensors) 0 + TotalBytes t).
Proof.
  induction tensors as [|t0 rest IH]; intros total_bytes k t Hk; [discriminate|].
  destruct k as [|k]; simpl in Hk.
  - now injection Hk as ->.
  - change (nth (S (S k)) (total_bytes :: running_totals total_bytes (t0 :: rest)) 0)
      with (nth (S k) (to_size_t (total_bytes + TotalBytes t0)
              :: running_totals (to_size_t (total_bytes + TotalBytes t0)) rest) 0).
    now rewrite (IH _ k t Hk).
Qed.

Lemma running_totals_last tensors : forall total_bytes,
  nth (length tensors) (total_bytes :: running_totals total_bytes tensors) 0 =
  final_total total_bytes tensors.
Proof.
  induction tensors as [|t0 rest IH]; intros total_bytes; [reflexivity|].
  simpl length. unfold final_total. simpl foldl. rewrite <- (IH _). reflexivity.
Qed.

Lemma final_total_sum tensors : forall total_bytes,
  final_total total_bytes tensors =
  match tensors with
  | [] => total_bytes
  | _ => to_size_t (total_bytes + sum_bytes tensors)
  end.
Proof.
  induction tensors as [|t0 rest IH]; intros total_bytes; [reflexivity|].
  unfold final_total in *. simpl foldl. rewrite IH.
  destruct rest as [|t1 rest]; simpl sum_bytes.
  - now rewrite Z.add_0_r.
  - rewrite to_size_t_add_l. f_equal. simpl. lia.
Qed.

(** Without wrap-around the table holds the exact partial sums, each
    greater than the one before. *)
Lemma running_totals_exact tensors : forall total_bytes k t,
  Forall size_checks tensors ->
  0 <= total_bytes ->
  total_bytes + sum_bytes tensors < 2 ^ 64 ->
  tensors !! k = Some t ->
  nth (S k) (total_bytes :: running_totals total_bytes tensors) 0 =
  nth k (total_bytes :: running_totals total_bytes tensors) 0 + TotalBytes t /\
  0 <= nth k (total_bytes :: running_totals total_bytes tensors) 0.
Proof.
  induction tensors as [|t0 rest IH]; intros total_bytes k t Hall Hnn Hfit Hk;
    [discriminate|].
  inversion Hall as [|? ? [_ Hpos] Hrest]; subst.
  assert (Hsum : 0 <= sum_bytes rest).
  { clear -Hrest. induction Hrest as [|? ? [_ ?] ? ?]; simpl; lia. }
  simpl in Hfit.
  assert (Hsmall : to_size_t (total_bytes + TotalBytes t0) = total_bytes + TotalBytes t0)
    by (apply to_size_t_small; lia).
  destruct k as [|k]; simpl in Hk.
  - injection Hk as ->. simpl. split; [exact Hsmall | exact Hnn].
  - change (nth (S (S k)) (total_bytes :: running_totals total_bytes (t0 :: rest)) 0)
      with (nth (S k) (to_size_t (total_bytes + TotalBytes t0)
              :: running_totals (to_size_t (total_bytes + TotalBytes t0)) rest) 0).
    change (nth (S k) (total_bytes :: running_totals total_bytes (t0 :: rest)) 0)
      with (nth k (to_size_t (total_bytes + TotalBytes t0)
              :: running_totals (to_size_t (total_bytes + TotalBytes t0)) rest) 0).
    apply IH; try assumption; rewrite Hsmall; lia.
Qed.
End OffsetsFacts.

(** C6, as amended: when every tensor passes the loop's checks the loop
    produces a table of N + 1 offsets that starts at 0, each entry being the
    one before plus the byte size of its tensor modulo 2^64, and
    [total_bytes] is the last entry, the sum of the byte sizes modulo 2^64;
    when that sum is below 2^64 the entries are the exact partial sums, they
    increase strictly, and the last one is the sum. *)
Theorem offsets_table (tensors : list Tensor) :
  Forall size_checks tensors ->
  exists offsets total_bytes,
    TensorToPlasmaOp.offsets_loop tensors [0] 0 = Passed (offsets, total_bytes) /\
    length offsets = S (length tensors) /\
    nth 0 offsets 0 = 0 /\
    (forall k t, tensors !! k = Some t ->
       nth (S k) offsets 0 = to_size_t (nth k offsets 0 + TotalBytes t)) /\
    nth (length tensors) offsets 0 = total_bytes /\
    total_bytes = to_size_t (sum_bytes tensors) /\
    (sum_bytes tensors < 2 ^ 64 ->
       (forall k t, tensors !! k = Some t ->
          nth (S k) offsets 0 = nth k offsets 0 + TotalBytes t /\
          nth k offsets 0 < nth (S k) offsets 0) /\
       total_bytes = sum_bytes tensors).
Proof.
  intros Hall.
  exists (0 :: running_totals 0 tensors), (final_total 0 tensors).
  assert (Hsum : 0 <= sum_bytes tensors).
  { clear -Hall. induction Hall as [|? ? [_ ?] ? ?]; simpl; lia. }
  assert (Htotal : final_total 0 tensors = to_size_t (sum_bytes tensors)).
  { rewrite final_total_sum. destruct tensors; [reflexivity|]. now rewrite Z.add_0_l. }
  split; [apply (offsets_loop_passed tensors [0] 0 Hall)|].
  split; [simpl; now rewrite running_totals_length|].
  split; [reflexivity|].
  split; [intros k t Hk; now apply running_totals_step|].
  split; [apply running_totals_last|].
  split; [exact Htotal|].
  intros Hfit. split.
  - intros k t Hk.
    destruct (running_totals_exact tensors 0 k t Hall ltac:(lia) ltac:(lia) Hk) as [Hstep _].
    split; [exact Hstep|]. rewrite Hstep.
    pose proof (proj1 (Forall_lookup _ _) Hall k t Hk) as [_ Hpos]. lia.
  - rewrite Htotal. apply to_size_t_small. lia.
Qed.

Lemma offsets_table_witness :
  exists offsets total_bytes,
    TensorToPlasmaOp.offsets_loop
      [float_tensor (repeat x00 16); float_tensor (repeat x00 32)] [0] 0 =
      Passed (offsets, total_bytes) /\
    offsets = [0; 16; 48] /\ total_bytes = 48.
Proof.
  destruct (offsets_table [float_tensor (repeat x00 16); float_tensor (repeat x00 32)])
    as (offsets & total_bytes & Hloop & _).
  - repeat constructor.
  - exists offsets, total_bytes. split; [exact Hloop|].
    vm_compute in Hloop. injection Hloop as <- <-. split; reflexivity.
Defined.

(** C6 as stated fails when the byte sizes add up to 2^64 or more: two
    tensors of 2^63 bytes pass the checks and give the table [0; 2^63; 0],
    whose last entry is below the one before it and is not the sum. *)
Lemma offsets_table_wraps :
  TensorToPlasmaOp.offsets_loop [huge_tensor; huge_tensor] [0] 0 =
    Passed ([0; 2 ^ 63; 0], 0) /\
  ~ (nth 1 [0; 2 ^ 63; 0] 0 <= nth 2 [0; 2 ^ 63; 0] 0) /\
  nth 2 [0; 2 ^ 63; 0] 0 <> TotalBytes huge_tensor + TotalBytes huge_tensor.
Proof.
  split; [|split].
  - rewrite offsets_loop_passed.
    + reflexivity.
    + repeat constructor.
  - simpl. lia.
  - simpl. lia.
Qed.

(** ** Stepping through a kernel *)

Section KernelSteps.
Context {A B : Type}.
Implicit Types (k : A -> K B) (w : World).

Lemma kbind_kret (a : A) k w : kbind (kret a) k w = k a w.
Proof. reflexivity. Qed.

Lemma trace_starts (m : K A) k w (e : Event) (rest : list Event) :
  trace (m w) = e :: rest -> exists rest', trace (kbind m k w) = e :: rest'.
Proof.
  intros Hm. unfold kbind. destruct (result (m w)); cbn [trace]; rewrite Hm; eauto.
Qed.

Lemma kbind_checked (c : Checked A) k w :
  kbind (checked c) k w =
  match c with Passed a => k a w | Died f => stop (Aborted f) w end.
Proof. destruct c; reflexivity. Qed.

Lemma kbind_defined (o : Outcome A) k w :
  kbind (defined o) k w =
  match o with Ok a => k a w | _ => stop UndefinedBehavior w end.
Proof. destruct o; reflexivity. Qed.

Lemma kbind_ARROW_CHECK_OK (o : Outcome A) k w :
  kbind (ARROW_CHECK_OK o) k w =
  match o with
  | Ok a => k a w
  | Error c => stop (Aborted (ArrowCheckFailure c)) w
  | Undefined => stop UndefinedBehavior w
  end.
Proof. destruct o; reflexivity. Qed.
End KernelSteps.

Section KernelUnitSteps.
Context {B : Type}.
Implicit Types (k : unit -> K B) (w : World).

Lemma kbind_emit (e : Event) k w :
  kbind (emit e) k w =
  {| trace := e :: trace (k tt w); final := final (k tt w); result := result (k tt w) |}.
Proof. reflexivity. Qed.

Lemma kbind_CHECK (cond : bool) what k w :
  kbind (CHECK cond what) k w =
  if cond then k tt w else stop (Aborted (CheckFailure what)) w.
Proof. destruct cond; reflexivity. Qed.

Lemma kbind_OP_REQUIRES_ASYNC (cond : bool) status k w :
  kbind (OP_REQUIRES_ASYNC cond status) k w =
  if cond then k tt w
  else {| trace := [SetStatus (Some status); CallDone]; final := w;
          result := Stop Returned |}.
Proof. destruct cond; reflexivity. Qed.
End KernelUnitSteps.

(** ** Put: arity *)

(** C4: a Put whose only input is the object identifier sets the status to
    InvalidArgument, calls [done] and returns; it makes no call to the store
    client or to the serializer and leaves the process state, the store
    included, as it was. *)
Theorem put_without_tensors `{WireFormat} (device : Device) (context : OpKernelContext)
    (plasma_object_id : Tensor) (w : World) :
  inputs context = [plasma_object_id] ->
  TensorToPlasmaOp.ComputeAsync device context w =
  {| trace := [SetStatus (Some InvalidArgument); CallDone]; final := w;
     result := Stop Returned |}.
Proof.
  intros Hin. unfold TensorToPlasmaOp.ComputeAsync, TensorToPlasmaOp.stage.
  rewrite Hin. reflexivity.
Qed.

Lemma put_without_tensors_witness :
  @TensorToPlasmaOp.ComputeAsync sample_format CPUDevice
    (sample_context [string_tensor [sample_id]]) empty_world =
  {| trace := [SetStatus (Some InvalidArgument); CallDone]; final := empty_world;
     result := Stop Returned |}.
Proof.
  apply (@put_without_tensors sample_format CPUDevice
           (sample_context [string_tensor [sample_id]]) (string_tensor [sample_id])).
  reflexivity.
Defined.

(** ** What a kernel emits *)

Section Emits.
Context (P : Event -> Prop).

Lemma emits_kret {A} (a : A) : emits P (kret a).
Proof. intros w. constructor. Qed.

Lemma emits_stop {A} (e : Exit) : emits P (@stop A e).
Proof. intros w. constructor. Qed.

Lemma emits_emit (e : Event) : P e -> emits P (emit e).
Proof. intros He w. repeat constructor. exact He. Qed.

Lemma emits_kbind {A B} (m : K A) (k : A -> K B) :
  emits P m -> (forall a, emits P (k a)) -> emits P (kbind m k).
Proof.
  intros Hm Hk w. unfold kbind. specialize (Hm w).
  destruct (result (m w)) as [a|e]; simpl; [|exact Hm].
  apply Forall_app. split; [exact Hm | apply Hk].
Qed.

Lemma emits_checked {A} (c : Checked A) : emits P (checked c).
Proof. destruct c; [apply emits_kret | apply emits_stop]. Qed.

Lemma emits_CHECK cond what : emits P (CHECK cond what).
Proof. destruct cond; [apply emits_kret | apply emits_stop]. Qed.

Lemma emits_defined {A} (o : Outcome A) : emits P (defined o).
Proof. destruct o; first [apply emits_kret | apply emits_stop]. Qed.

Lemma emits_ARROW_CHECK_OK {A} (o : Outcome A) : emits P (ARROW_CHECK_OK o).
Proof. destruct o; first [apply emits_kret | apply emits_stop]. Qed.

Lemma emits_with_client f : emits P (with_client f).
Proof. intros w. unfold with_client. destruct (f (client_ w)); constructor. Qed.

Lemma emits_through_buffer {A} object_id (f : list byte -> Outcome (list byte * A)) :
  emits P (through_buffer object_id f).
Proof.
  intros w. unfold through_buffer.
  destruct (objects (client_ w) !! object_id) as [o|]; [|constructor].
  destruct (f (obj_data o)) as [[data' a]| |]; constructor.
Qed.

Lemma emits_set_d2h_stream q : emits P (set_d2h_stream q).
Proof. intros w. constructor. Qed.

Lemma emits_set_h2d_stream q : emits P (set_h2d_stream q).
Proof. intros w. constructor. Qed.

Lemma emits_set_output_tensor o : emits P (set_output_tensor o).
Proof. intros w. constructor. Qed.

Lemma emits_enqueue_d2h op : emits P (enqueue_d2h op).
Proof. intros w. unfold enqueue_d2h. destruct (d2h_stream w); constructor. Qed.

Lemma emits_enqueue_h2d op : emits P (enqueue_h2d op).
Proof. intros w. unfold enqueue_h2d. destruct (h2d_stream w); constructor. Qed.

Lemma emits_OP_REQUIRES_ASYNC cond status :
  P (SetStatus (Some status)) -> P CallDone -> emits P (OP_REQUIRES_ASYNC cond status).
Proof.
  intros Hs Hd. destruct cond; [apply emits_kret|].
  intros w. repeat constructor; assumption.
Qed.

Lemma emits_OP_REQUIRES_OK_ASYNC status :
  (forall e, status = Some e -> P (SetStatus (Some e))) -> P CallDone ->
  emits P (OP_REQUIRES_OK_ASYNC status).
Proof.
  intros Hs Hd. destruct status as [e|]; [|apply emits_kret].
  apply emits_OP_REQUIRES_ASYNC; auto.
Qed.

Lemma emits_init_d2h_stream context :
  emits P (TensorToPlasmaOp.init_d2h_stream context).
Proof.
  intros w. unfold TensorToPlasmaOp.init_d2h_stream. destruct (d2h_stream w); [constructor|].
  destruct (Stream_Init_ok context); constructor.
Qed.

Lemma emits_init_h2d_stream context :
  emits P (PlasmaToTensorOp.init_h2d_stream context).
Proof.
  intros w. unfold PlasmaToTensorOp.init_h2d_stream. destruct (h2d_stream w); [constructor|].
  destruct (Stream_Init_ok context); constructor.
Qed.

Lemma emits_client_Get object_id : emits P (PlasmaToTensorOp.client_Get object_id).
Proof.
  intros w. unfold PlasmaToTensorOp.client_Get.
  destruct (Get object_id (client_ w)); constructor.
Qed.

Lemma emits_allocate_output context shape :
  P (CallAllocateOutput shape) ->
  (forall e, allocate_output_status context = Some e -> P (SetStatus (Some e))) ->
  P CallDone ->
  emits P (PlasmaToTensorOp.allocate_output context shape).
Proof.
  intros Ha Hs Hd. unfold PlasmaToTensorOp.allocate_output.
  apply emits_kbind; [now apply emits_emit|]. intros _.
  apply emits_kbind; [now apply emits_OP_REQUIRES_OK_ASYNC|]. intros _.
  apply emits_set_output_tensor.
Qed.

Lemma emits_copy_to_output src n :
  P (Copied 0 n) -> emits P (PlasmaToTensorOp.copy_to_output src n).
Proof.
  intros Hc w. unfold PlasmaToTensorOp.copy_to_output.
  destruct (output_tensor w) as [out|]; [|constructor].
  revert w. change (emits P
    (let* out' := defined (let* bytes := read_bytes src n in memcpy out 0 bytes)%outcome in
     let* _ := set_output_tensor (Some out') in emit (Copied 0 n))).
  apply emits_kbind; [apply emits_defined|]. intros out'.
  apply emits_kbind; [apply emits_set_output_tensor|]. intros _.
  now apply emits_emit.
Qed.
End Emits.

Create HintDb emits.

#[local] Hint Resolve emits_kret emits_stop emits_checked emits_CHECK emits_defined
  emits_ARROW_CHECK_OK emits_with_client emits_through_buffer emits_set_d2h_stream
  emits_set_h2d_stream emits_set_output_tensor emits_enqueue_d2h emits_enqueue_h2d
  emits_init_d2h_stream emits_init_h2d_stream emits_client_Get
  : emits.

(** Splits a goal about a sequence of steps into one goal per step and
    closes those that emit nothing. *)
Ltac emits_steps :=
  repeat first
    [ apply emits_kbind; [|intros ?]
    | solve [auto with emits]
    | apply emits_emit
    | apply emits_OP_REQUIRES_ASYNC ].

Section TransferEmits.
Context `{WireFormat}.
Import TensorToPlasmaOp.

Lemma emits_memcpy_loop object_id offset offsets tensors : forall i,
  emits transfer_event (memcpy_loop object_id offset offsets i tensors).
Proof.
  induction tensors as [|t rest IH]; intros i; simpl; [apply emits_kret|].
  emits_steps; try exact I.
Qed.

Lemma emits_ThenMemcpy_loop context object_id offset offsets tensors : forall i,
  emits transfer_event (ThenMemcpy_loop context object_id offset offsets i tensors).
Proof.
  induction tensors as [|t rest IH]; intros i; simpl; [apply emits_kret|].
  emits_steps; try exact I.
  destruct (ThenMemcpy_ok context i); auto with emits.
Qed.

Lemma emits_transfer device context object_id offset offsets :
  emits transfer_event (transfer device context object_id offset offsets).
Proof.
  pose proof emits_memcpy_loop. pose proof emits_ThenMemcpy_loop.
  unfold transfer. destruct device; emits_steps; try exact I.
Qed.
End TransferEmits.

(** ** Put: up to the header write *)

Lemma inputs_split (l : list Tensor) :
  2 <= Zlen l ->
  exists input0 others plasma_object_id,
    l = (input0 :: others) ++ [plasma_object_id] /\
    take (Z.to_nat (Zlen l - 1)) l = input0 :: others /\
    last l = Some plasma_object_id.
Proof.
  destruct l as [|x l _] using rev_ind; unfold Zlen; simpl; [lia|].
  rewrite length_app. simpl. intros Hlen.
  destruct l as [|input0 others]; simpl in Hlen; [lia|].
  exists input0, others, x. split; [reflexivity|]. split.
  - replace (Z.to_nat _) with (length (input0 :: others)) by (simpl; lia).
    apply take_app_length.
  - apply last_snoc.
Qed.

(** An event that is not in a trace that has ended. *)
Ltac not_in_trace H :=
  simpl in H;
  repeat (apply elem_of_cons in H as [H|H]; [discriminate H|]);
  apply elem_of_nil in H; contradiction.

Section StageFacts.
Context `{WireFormat}.
Import TensorToPlasmaOp.

Lemma stage_reaches_Create context w object_id data_size :
  CallCreate object_id data_size ∈ trace (stage context w) ->
  exists input0 others plasma_object_id offsets total_bytes arrow_dtype header_size rest,
    inputs context = (input0 :: others) ++ [plasma_object_id] /\
    offsets_loop (input0 :: others) [0] 0 = Passed (offsets, total_bytes) /\
    dtype_loop (dtype input0) others = Passed tt /\
    tf_dtype_to_arrow (dtype input0) = Passed arrow_dtype /\
    TensorFlowTensorGetHeaderSize arrow_dtype [to_int64 (total_bytes / sizeof_float)] =
      Ok header_size /\
    data_size = to_int64 (header_size + to_int64 total_bytes) /\
    trace (stage context w) =
      CallGetHeaderSize arrow_dtype [to_int64 (total_bytes / sizeof_float)]
        :: CallCreate object_id data_size :: rest.
Proof.
  unfold stage. rewrite kbind_OP_REQUIRES_ASYNC.
  destruct (2 <=? Zlen (inputs context)) eqn:Harity; [|intros Hin; not_in_trace Hin].
  apply Z.leb_le in Harity.
  destruct (inputs_split _ Harity) as (input0 & others & id & Hsplit & Htake & Hlast).
  rewrite Htake, Hlast, kbind_checked.
  destruct (offsets_loop (input0 :: others) [0] 0) as [[offsets total_bytes]|f] eqn:Hloop;
    [|intros Hin; not_in_trace Hin].
  rewrite kbind_checked.
  destruct (dtype_loop (dtype input0) others) as [[]|f] eqn:Hdtypes;
    [|intros Hin; not_in_trace Hin].
  rewrite kbind_CHECK.
  destruct (NumElements id =? 1); [|intros Hin; not_in_trace Hin].
  rewrite kbind_checked.
  destruct (flat_string id) as [strs|f]; [|intros Hin; not_in_trace Hin].
  rewrite kbind_defined.
  destruct (match strs with [] => _ | s :: _ => _ end) as [oid| |];
    try (intros Hin; not_in_trace Hin).
  rewrite kbind_checked.
  destruct (tf_dtype_to_arrow (dtype input0)) as [arrow_dtype|f] eqn:Harrow;
    [|intros Hin; not_in_trace Hin].
  rewrite kbind_emit, kbind_ARROW_CHECK_OK.
  destruct (TensorFlowTensorGetHeaderSize arrow_dtype _) as [header_size| |] eqn:Hsize;
    try (intros Hin; not_in_trace Hin).
  rewrite kbind_emit. simpl trace. intros Hin.
  apply elem_of_cons in Hin as [Hin|Hin]; [discriminate|].
  apply elem_of_cons in Hin as [Hin|Hin].
  - injection Hin as -> ->.
    exists input0, others, id, offsets, total_bytes, arrow_dtype, header_size.
    eexists. repeat (split; [reflexivity || assumption|]). reflexivity.
  - exfalso. revert Hin.
    match goal with |- _ ∈ trace (?m ?w') -> _ =>
      assert (Hem : emits (fun e => forall a b, e <> CallCreate a b) m)
    end.
    { emits_steps; discriminate. }
    intros Hin. specialize (Hem w).
    rewrite Forall_forall in Hem. exact (Hem _ Hin _ _ eq_refl).
Qed.
End StageFacts.

Section PutFacts.
Context `{WireFormat}.
Import TensorToPlasmaOp.

Lemma ComputeAsync_trace device context w :
  trace (ComputeAsync device context w) =
  trace (stage context w) ++
  match result (stage context w) with
  | Val (object_id, offset, offsets) =>
      trace (transfer device context object_id offset offsets (final (stage context w)))
  | Stop _ => []
  end.
Proof.
  unfold ComputeAsync, kbind.
  destruct (result (stage context w)) as [[[object_id offset] offsets]|e]; simpl.
  - reflexivity.
  - now rewrite app_nil_r.
Qed.

Lemma dtype_loop_passed tf_dtype others :
  dtype_loop tf_dtype others = Passed tt <-> Forall (fun t => dtype t = tf_dtype) others.
Proof.
  induction others as [|t rest IH]; simpl.
  - split; [constructor | reflexivity].
  - destruct (decide (tf_dtype <> dtype t)) as [Hne|Heq].
    + split; [discriminate|]. intros Hall. inversion Hall; subst. now destruct Hne.
    + rewrite IH. split.
      * intros Hall. constructor; [|exact Hall].
        destruct (decide (dtype t = tf_dtype)) as [|Hne]; [assumption|].
        destruct Heq. congruence.
      * intros Hall. now inversion Hall.
Qed.

Lemma dtype_loop_died tf_dtype others f :
  dtype_loop tf_dtype others = Died f -> f = ArrowCheckFailure TypeError.
Proof.
  induction others as [|t rest IH]; simpl; [discriminate|].
  destruct (decide (tf_dtype <> dtype t)); [congruence | exact IH].
Qed.

Lemma offsets_loop_died tensors : forall offsets total_bytes f,
  offsets_loop tensors offsets total_bytes = Died f -> exists what, f = CheckFailure what.
Proof.
  induction tensors as [|t rest IH]; intros offsets total_bytes f; simpl; [discriminate|].
  destruct (negb _); [intros [= <-]; eauto|].
  destruct (negb _); [intros [= <-]; eauto|]. apply IH.
Qed.

(** A tensor of a type the store supports that passes the size checks has
    4-byte elements. *)
Lemma checked_width t arrow_dtype :
  tensor_wf t -> size_checks t ->
  tf_dtype_to_arrow (dtype t) = Passed arrow_dtype ->
  DataTypeSize (dtype t) = sizeof_float.
Proof.
  intros (Hn & _ & Hbytes) [Heq Hpos] Harrow.
  pose proof (to_size_t_range (NumElements t * sizeof_float)) as Hrange.
  unfold to_size_t, sizeof_float in *.
  pose proof (Z.div_mod (NumElements t * 4) (2 ^ 64) ltac:(lia)) as Hdiv.
  destruct (dtype t); simpl in *; try discriminate; try reflexivity;
    specialize (Hbytes ltac:(lia)); lia.
Qed.
End PutFacts.

(** C7, as amended: in every Put that calls [Create], the call right before
    it asks for the header size of a 1-D tensor of shape
    [[total_bytes / sizeof(float)]] in the Arrow type of the inputs' common
    element type, whose width is [sizeof(float)] for well-formed tensors, and
    [Create] is called with [header_size + total_bytes] computed in signed
    64-bit arithmetic, which is the exact sum whenever that is below 2^63. *)
Theorem put_header_and_create_size `{WireFormat} (device : Device)
    (context : OpKernelContext) (w : World) (object_id : ObjectID) (data_size : Z) :
  CallCreate object_id data_size ∈ trace (TensorToPlasmaOp.ComputeAsync device context w) ->
  exists tensors plasma_object_id tf_dtype arrow_dtype offsets total_bytes header_size rest,
    inputs context = tensors ++ [plasma_object_id] /\
    tensors <> [] /\
    Forall (fun t => dtype t = tf_dtype) tensors /\
    tf_dtype_to_arrow tf_dtype = Passed arrow_dtype /\
    (Forall tensor_wf tensors -> DataTypeSize tf_dtype = sizeof_float) /\
    TensorToPlasmaOp.offsets_loop tensors [0] 0 = Passed (offsets, total_bytes) /\
    TensorFlowTensorGetHeaderSize arrow_dtype [total_bytes / sizeof_float] = Ok header_size /\
    trace (TensorToPlasmaOp.ComputeAsync device context w) =
      CallGetHeaderSize arrow_dtype [total_bytes / sizeof_float]
        :: CallCreate object_id data_size :: rest /\
    data_size = to_int64 (header_size + to_int64 total_bytes) /\
    (header_size + total_bytes < 2 ^ 63 -> data_size = header_size + total_bytes).
Proof.
  intros Hin. rewrite ComputeAsync_trace in Hin |- *.
  apply elem_of_app in Hin as [Hin|Hin].
  2:{ exfalso.
      destruct (result (TensorToPlasmaOp.stage context w)) as [[[oid offset] offsets]|e];
        [|now apply elem_of_nil in Hin].
      pose proof (emits_transfer device context oid offset offsets
                    (final (TensorToPlasmaOp.stage context w))) as Hem.
      rewrite Forall_forall in Hem. exact (Hem _ Hin). }
  destruct (stage_reaches_Create _ _ _ _ Hin)
    as (input0 & others & id & offsets & total_bytes & arrow_dtype & header_size & rest
        & Hinputs & Hloop & Hdtypes & Harrow & Hsize & Hdata & Htrace).
  pose proof (offsets_loop_checks _ _ _ _ Hloop) as Hchecks.
  assert (Htotal : 0 <= total_bytes < 2 ^ 64).
  { pose proof (offsets_loop_passed (input0 :: others) [0] 0 Hchecks) as Hpassed.
    assert (Heq : total_bytes = final_total 0 (input0 :: others)) by congruence.
    rewrite Heq, final_total_sum. apply to_size_t_range. }
  assert (Hshape : to_int64 (total_bytes / sizeof_float) = total_bytes / sizeof_float).
  { apply to_int64_small. unfold sizeof_float.
    pose proof (Z.div_pos total_bytes 4 ltac:(lia) ltac:(lia)).
    assert (total_bytes / 4 < 2 ^ 62) by (apply Z.div_lt_upper_bound; lia). lia. }
  rewrite Hshape in *.
  exists (input0 :: others), id, (dtype input0), arrow_dtype, offsets, total_bytes,
    header_size. eexists.
  split; [exact Hinputs|]. split; [discriminate|].
  split; [constructor; [reflexivity | now apply dtype_loop_passed]|].
  split; [exact Harrow|].
  split.
  { intros Hwf. inversion Hwf; subst. inversion Hchecks; subst.
    eapply checked_width; eassumption. }
  split; [exact Hloop|]. split; [exact Hsize|].
  split; [rewrite Htrace; simpl; reflexivity|].
  split; [exact Hdata|].
  intros Hfit. subst data_size.
  rewrite HeaderSize_is_header_length in Hsize.
  destruct (header_bytes arrow_dtype _) as [hdr| |]; simpl in Hsize; try discriminate.
  injection Hsize as <-. pose proof (Zlen_nonneg hdr).
  rewrite (to_int64_small total_bytes) by lia. apply to_int64_small. lia.
Qed.

Lemma put_header_and_create_size_witness :
  let context := sample_context [float_tensor (repeat x01 4); float_tensor (repeat x02 8);
                                 string_tensor [sample_id]] in
  exists tensors plasma_object_id tf_dtype arrow_dtype offsets total_bytes header_size rest,
    inputs context = tensors ++ [plasma_object_id] /\
    tensors <> [] /\
    Forall (fun t => dtype t = tf_dtype) tensors /\
    tf_dtype_to_arrow tf_dtype = Passed arrow_dtype /\
    (Forall tensor_wf tensors -> DataTypeSize tf_dtype = sizeof_float) /\
    TensorToPlasmaOp.offsets_loop tensors [0] 0 = Passed (offsets, total_bytes) /\
    @TensorFlowTensorGetHeaderSize sample_format arrow_dtype [total_bytes / sizeof_float] =
      Ok header_size /\
    trace (@TensorToPlasmaOp.ComputeAsync sample_format CPUDevice context empty_world) =
      CallGetHeaderSize arrow_dtype [total_bytes / sizeof_float]
        :: CallCreate sample_id 20 :: rest /\
    20 = to_int64 (header_size + to_int64 total_bytes) /\
    (header_size + total_bytes < 2 ^ 63 -> 20 = header_size + total_bytes).
Proof.
  intros context.
  apply (@put_header_and_create_size sample_format CPUDevice context empty_world sample_id 20).
  vm_compute. repeat constructor.
Defined.

Lemma wide_put_trace (buf : list byte) :
  let t := {| dtype := DT_FLOAT; NumElements := 2 ^ 62 - 1; TotalBytes := 2 ^ 64 - 4;
              tensor_buf := buf; string_elems := [] |} in
  let r := @TensorToPlasmaOp.ComputeAsync sample_format CPUDevice
             (sample_context [t; string_tensor [sample_id]]) empty_world in
  trace r = [CallGetHeaderSize float32 [2 ^ 62 - 1]; CallCreate sample_id 4;
             CallTensorWrite float32 [2 ^ 62 - 1]] /\
  ((length ∘ obj_data) <$> objects (client_ (final r)) !! sample_id) = Some 4%nat.
Proof. vm_compute. split; reflexivity. Qed.

(** C7 as stated fails when the payload does not fit a signed 64-bit size:
    for one tensor of 2^64 - 4 bytes and an 8-byte header, [Create] is called
    with size 4 and the store creates an object of 4 bytes, not of
    8 + (2^64 - 4). *)
Lemma put_create_size_wraps :
  let r := @TensorToPlasmaOp.ComputeAsync sample_format CPUDevice
             (sample_context [wide_tensor; string_tensor [sample_id]]) empty_world in
  TensorToPlasmaOp.offsets_loop [wide_tensor] [0] 0 = Passed ([0; 2 ^ 64 - 4], 2 ^ 64 - 4) /\
  @TensorFlowTensorGetHeaderSize sample_format float32 [(2 ^ 64 - 4) / sizeof_float] = Ok 8 /\
  CallCreate sample_id 4 ∈ trace r /\
  ((length ∘ obj_data) <$> objects (client_ (final r)) !! sample_id) = Some 4%nat /\
  4 <> 8 + (2 ^ 64 - 4).
Proof.
  intros r. destruct (wide_put_trace (repeat x00 (Z.to_nat (2 ^ 64 - 4)))) as [Htrace Hobj].
  split; [|split; [|split; [|split]]].
  - rewrite offsets_loop_passed; [reflexivity | repeat constructor].
  - reflexivity.
  - subst r. unfold wide_tensor. rewrite Htrace. repeat constructor.
  - exact Hobj.
  - lia.
Qed.

(** ** Put: element types *)

(** C5, as amended: a Put whose tensors do not all have the element type of
    the first one ends the process: before any event, so before any call to
    the store client, a check fails.  It is the dtype check, with a TypeError,
    when every tensor passes the size checks of the offsets loop, and one of
    those size checks otherwise. *)
Theorem put_mixed_dtypes `{WireFormat} (device : Device) (context : OpKernelContext)
    (w : World) (input0 : Tensor) (others : list Tensor) (plasma_object_id : Tensor) :
  inputs context = (input0 :: others) ++ [plasma_object_id] ->
  ~ Forall (fun t => dtype t = dtype input0) others ->
  exists f,
    TensorToPlasmaOp.ComputeAsync device context w =
      {| trace := []; final := w; result := Stop (Aborted f) |} /\
    (Forall size_checks (input0 :: others) -> f = ArrowCheckFailure TypeError) /\
    (~ Forall size_checks (input0 :: others) -> exists what, f = CheckFailure what).
Proof.
  intros Hinputs Hmixed.
  assert (Harity : 2 <= Zlen (inputs context)).
  { rewrite Hinputs. unfold Zlen. rewrite length_app. simpl. lia. }
  destruct (inputs_split _ Harity) as (input0' & others' & id & Hsplit & Htake & Hlast).
  rewrite Hinputs in Hsplit. apply app_inj_tail in Hsplit as [[= <- <-] <-].
  enough (Hstage : exists f,
            TensorToPlasmaOp.stage context w =
              {| trace := []; final := w; result := Stop (Aborted f) |} /\
            (Forall size_checks (input0 :: others) -> f = ArrowCheckFailure TypeError) /\
            (~ Forall size_checks (input0 :: others) -> exists what, f = CheckFailure what)).
  { destruct Hstage as (f & Hstage & Hf). exists f. split; [|exact Hf].
    unfold TensorToPlasmaOp.ComputeAsync, kbind. now rewrite Hstage. }
  unfold TensorToPlasmaOp.stage.
  rewrite kbind_OP_REQUIRES_ASYNC.
  replace (2 <=? Zlen (inputs context)) with true by (symmetry; now apply Z.leb_le).
  rewrite Htake, Hlast, kbind_checked.
  destruct (TensorToPlasmaOp.offsets_loop (input0 :: others) [0] 0)
    as [[offsets total_bytes]|f] eqn:Hloop.
  - pose proof (offsets_loop_checks _ _ _ _ Hloop) as Hchecks.
    rewrite kbind_checked.
    destruct (TensorToPlasmaOp.dtype_loop (dtype input0) others) as [[]|f] eqn:Hdtypes.
    + now apply dtype_loop_passed in Hdtypes.
    + apply dtype_loop_died in Hdtypes as ->.
      exists (ArrowCheckFailure TypeError).
      split; [reflexivity|]. split; [reflexivity|]. intros Hno. now destruct Hno.
  - destruct (offsets_loop_died _ _ _ _ Hloop) as [what ->].
    exists (CheckFailure what). split; [reflexivity|]. split; [|eauto].
    intros Hchecks. rewrite offsets_loop_passed in Hloop by assumption. discriminate.
Qed.

Lemma put_mixed_dtypes_witness :
  exists f,
    @TensorToPlasmaOp.ComputeAsync sample_format CPUDevice
      (sample_context
         [float_tensor (repeat x01 4);
          {| dtype := DT_INT32; NumElements := 1; TotalBytes := 4;
             tensor_buf := repeat x02 4; string_elems := [] |};
          string_tensor [sample_id]]) empty_world =
      {| trace := []; final := empty_world; result := Stop (Aborted f) |} /\
    f = ArrowCheckFailure TypeError.
Proof.
  pose (int_tensor := {| dtype := DT_INT32; NumElements := 1; TotalBytes := 4;
                         tensor_buf := repeat x02 4; string_elems := [] |}).
  destruct (@put_mixed_dtypes sample_format CPUDevice
              (sample_context [float_tensor (repeat x01 4); int_tensor;
                               string_tensor [sample_id]])
              empty_world (float_tensor (repeat x01 4)) [int_tensor]
              (string_tensor [sample_id]))
    as (f & Hrun & Htype & _).
  - reflexivity.
  - intros Hall. inversion Hall; subst. discriminate.
  - exists f. split; [exact Hrun|]. apply Htype. repeat constructor.
Defined.

(** C5 as stated fails when a tensor of another type also has another
    width: for a float tensor followed by a double tensor the process ends in
    the size check of the offsets loop, not with a TypeError. *)
Lemma put_mixed_widths_check_failure :
  let double_tensor := {| dtype := DT_DOUBLE; NumElements := 1; TotalBytes := 8;
                          tensor_buf := repeat x02 8; string_elems := [] |} in
  tensor_wf double_tensor /\
  dtype double_tensor <> dtype (float_tensor (repeat x01 4)) /\
  @TensorToPlasmaOp.ComputeAsync sample_format CPUDevice
    (sample_context [float_tensor (repeat x01 4); double_tensor; string_tensor [sample_id]])
    empty_world =
  {| trace := []; final := empty_world;
     result := Stop (Aborted (CheckFailure
                 "CHECK_EQ(s, context->input(i).NumElements() * sizeof(float))")) |} /\
  CheckFailure "CHECK_EQ(s, context->input(i).NumElements() * sizeof(float))"
    <> ArrowCheckFailure TypeError.
Proof.
  intros double_tensor. split; [|split; [|split]].
  - repeat split; try reflexivity. discriminate.
  - discriminate.
  - reflexivity.
  - discriminate.
Qed.

(** ** Get: the output shape *)

Lemma kbind_decode_id {B} (plasma_object_id : Tensor) (object_id : ObjectID)
    (k : ObjectID -> K B) (w : World) :
  names_object plasma_object_id object_id ->
  (let* _ := CHECK (NumElements plasma_object_id =? 1)
               "CHECK_EQ(plasma_object_id.NumElements(), 1)" in
   let* strs := checked (flat_string plasma_object_id) in
   let* object_id := defined (match strs with
                              | plasma_object_id_str :: _ => from_binary plasma_object_id_str
                              | [] => Undefined
                              end) in
   k object_id) w = k object_id w.
Proof.
  intros (Hn & Hty & s & rest & Hstrs & Hid).
  rewrite kbind_CHECK, Hn. simpl. rewrite kbind_checked. unfold flat_string.
  rewrite Hty. simpl. rewrite kbind_defined, Hstrs, Hid. reflexivity.
Qed.

Lemma kbind_client_Get {B} (object_id : ObjectID) (data : list byte)
    (k : list byte -> K B) (w : World) :
  Get object_id (client_ w) = Some data ->
  kbind (PlasmaToTensorOp.client_Get object_id) k w = k data w.
Proof. intros Hget. unfold kbind, PlasmaToTensorOp.client_Get. now rewrite Hget. Qed.

(** C3, as amended: a Get on a sealed object asks the allocator, right after
    the fetch, for an output of the flat 1-D shape [byteSize / sizeof(float)],
    the quotient rounded down, whether or not the byte size is a multiple of
    the element width; the only statuses it ever reports are the allocator's
    own and Internal. *)
Theorem get_output_shape (device : Device) (context : OpKernelContext) (w : World)
    (plasma_object_id : Tensor) (other_inputs : list Tensor)
    (object_id : ObjectID) (data : list byte) :
  inputs context = plasma_object_id :: other_inputs ->
  names_object plasma_object_id object_id ->
  Get object_id (client_ w) = Some data ->
  Zlen data < 2 ^ 63 ->
  (exists rest,
     trace (PlasmaToTensorOp.ComputeAsync device context w) =
     CallGet object_id :: CallAllocateOutput [Zlen data / sizeof_float] :: rest) /\
  (forall status,
     SetStatus (Some status) ∈ trace (PlasmaToTensorOp.ComputeAsync device context w) ->
     allocate_output_status context = Some status \/ status = Internal).
Proof.
  intros Hinputs Hid Hget Hsize.
  pose proof (Zlen_nonneg data) as Hnn.
  assert (Hshape : to_int64 (to_size_t (Zlen data) / sizeof_float) =
                   Zlen data / sizeof_float).
  { rewrite to_size_t_small by lia. apply to_int64_small. unfold sizeof_float.
    pose proof (Z.div_pos (Zlen data) 4 ltac:(lia) ltac:(lia)).
    assert (Zlen data / 4 < 2 ^ 63) by (apply Z.div_lt_upper_bound; lia). lia. }
  unfold PlasmaToTensorOp.ComputeAsync. rewrite Hinputs.
  rewrite (kbind_decode_id _ object_id) by assumption.
  rewrite kbind_emit. cbn [trace].
  rewrite (kbind_client_Get _ data) by assumption. rewrite Hshape.
  split.
  - match goal with |- exists rest, _ :: ?tr = _ =>
      assert (Hstart : exists rest, tr = CallAllocateOutput [Zlen data / sizeof_float] :: rest)
    end.
    { eapply trace_starts. unfold PlasmaToTensorOp.allocate_output.
      rewrite kbind_emit. cbn [trace]. reflexivity. }
    destruct Hstart as [rest ->]. eauto.
  - intros status Hin. apply elem_of_cons in Hin as [Hin|Hin]; [discriminate|].
    revert Hin.
    match goal with |- _ ∈ trace (?m w) -> _ =>
      assert (Hem : emits (fun e => forall st, e = SetStatus (Some st) ->
                             allocate_output_status context = Some st \/ st = Internal) m)
    end.
    { apply emits_kbind.
      - apply emits_allocate_output; try discriminate. intros e He st [= <-]. now left.
      - intros _. destruct device.
        + apply emits_kbind; [apply emits_copy_to_output; discriminate|].
          intros _. apply emits_emit. discriminate.
        + emits_steps; try discriminate; try (intros st [= <-]; now right).
          destruct (ThenMemcpy_ok context 0); auto with emits. }
    intros Hin. specialize (Hem w). rewrite Forall_forall in Hem.
    exact (Hem _ Hin _ eq_refl).
Qed.

Lemma sample_id_names : names_object (string_tensor [sample_id]) sample_id.
Proof. repeat split. exists sample_id, []. split; reflexivity. Qed.

Lemma get_output_shape_witness :
  (exists rest,
     trace (PlasmaToTensorOp.ComputeAsync CPUDevice
              (sample_context [string_tensor [sample_id]]) (sealed_world (repeat x01 12))) =
     CallGet sample_id :: CallAllocateOutput [Zlen (repeat x01 12) / sizeof_float] :: rest) /\
  (forall status,
     SetStatus (Some status)
       ∈ trace (PlasmaToTensorOp.ComputeAsync CPUDevice
                  (sample_context [string_tensor [sample_id]])
                  (sealed_world (repeat x01 12))) ->
     allocate_output_status (sample_context [string_tensor [sample_id]]) = Some status \/
     status = Internal).
Proof.
  apply (get_output_shape CPUDevice (sample_context [string_tensor [sample_id]])
           (sealed_world (repeat x01 12)) (string_tensor [sample_id]) [] sample_id
           (repeat x01 12)).
  - reflexivity.
  - exact sample_id_names.
  - vm_compute. reflexivity.
  - reflexivity.
Defined.

(** C3 as stated fails: for a sealed object of 6 bytes the Get reports no
    InvalidArgument; it asks the allocator for one element and goes on to
    copy 6 bytes into the 4 it was given. *)
Lemma get_indivisible_size_allocates :
  let r := PlasmaToTensorOp.ComputeAsync CPUDevice
             (sample_context [string_tensor [sample_id]]) (sealed_world (repeat x01 6)) in
  (6 mod sizeof_float <> 0) /\
  trace r = [CallGet sample_id; CallAllocateOutput [1]] /\
  (SetStatus (Some InvalidArgument) ∉ trace r) /\
  (length <$> output_tensor (final r)) = Some 4%nat /\
  result r = Stop UndefinedBehavior.
Proof.
  intros r.
  assert (Htrace : trace r = [CallGet sample_id; CallAllocateOutput [1]])
    by (vm_compute; reflexivity).
  split; [discriminate|]. split; [exact Htrace|]. split; [|split].
  - rewrite Htrace. intros Hin. not_in_trace Hin.
  - vm_compute. reflexivity.
  - vm_compute. reflexivity.
Qed.

(** ** The completion callback *)

Lemma count_done_app (l k : list Event) :
  count_done (l ++ k) = (count_done l + count_done k)%nat.
Proof. apply count_occ_app. Qed.

Lemma callbacks_app (q1 q2 : list StreamOp) :
  callbacks (q1 ++ q2) = (callbacks q1 + callbacks q2)%nat.
Proof. induction q1 as [|op q1 IH]; simpl; [reflexivity|]. rewrite IH. lia. Qed.

Section Signals.
Context {A B : Type}.

Lemma advances_kbind (a b : nat) (m : K A) (k : A -> K B) :
  advances a m -> (forall x, advances b (k x)) -> advances (a + b) (kbind m k).
Proof.
  intros Hm Hk w. destruct (Hm w) as (Hle & Heq & Hnr).
  unfold signalled, kbind in *.
  destruct (result (m w)) as [x|e] eqn:Hres; cbn [trace final result].
  - destruct (Hk x (final (m w))) as (Hle' & Heq' & Hnr'). unfold signalled in *.
    specialize (Heq x eq_refl). rewrite count_done_app.
    split; [lia|]. split; [|exact Hnr'].
    intros y Hy. specialize (Heq' y Hy). lia.
  - split; [lia|]. split; [discriminate|].
    intros [= ->]. now destruct Hnr.
Qed.

Lemma guarded_kbind (n : nat) (m : K A) (k : A -> K B) :
  guarded 0 m -> (forall x, guarded n (k x)) -> guarded n (kbind m k).
Proof.
  intros Hm Hk w. specialize (Hm w). unfold signalled, kbind in *.
  destruct (result (m w)) as [x|e] eqn:Hres; cbn [trace final result].
  - specialize (Hk x (final (m w))). unfold signalled in *. rewrite count_done_app.
    destruct (result (k x (final (m w)))) as [y|[]]; lia.
  - exact Hm.
Qed.

Lemma advances_guarded (n : nat) (m : K A) : (n <= 1)%nat -> advances n m -> guarded n m.
Proof.
  intros Hn Hm w. destruct (Hm w) as (Hle & Heq & Hnr).
  destruct (result (m w)) as [x|[]]; try lia; [now apply (Heq x) | now destruct Hnr].
Qed.
End Signals.

Section SignalSteps.
Context {A : Type}.

Lemma advances_kret (a : A) : advances 0 (kret a).
Proof. intros w. unfold signalled. simpl. repeat split; auto; discriminate. Qed.

Lemma advances_stop (e : Exit) : e <> Returned -> advances 0 (@stop A e).
Proof. intros He w. unfold signalled. simpl. repeat split; auto; congruence. Qed.

Lemma advances_checked (c : Checked A) : advances 0 (checked c).
Proof. destruct c; [apply advances_kret | now apply advances_stop]. Qed.

Lemma advances_defined (o : Outcome A) : advances 0 (defined o).
Proof. destruct o; first [apply advances_kret | now apply advances_stop]. Qed.

Lemma advances_ARROW_CHECK_OK (o : Outcome A) : advances 0 (ARROW_CHECK_OK o).
Proof. destruct o; first [apply advances_kret | now apply advances_stop]. Qed.

Lemma advances_through_buffer object_id (f : list byte -> Outcome (list byte * A)) :
  advances 0 (through_buffer object_id f).
Proof.
  intros w. unfold through_buffer.
  destruct (objects (client_ w) !! object_id) as [o|];
    [|apply (advances_stop UndefinedBehavior); discriminate].
  destruct (f (obj_data o)) as [[data' a]| |].
  - unfold signalled. simpl. repeat split; auto; discriminate.
  - apply (advances_stop (Aborted (ArrowCheckFailure c))). discriminate.
  - apply (advances_stop UndefinedBehavior). discriminate.
Qed.
End SignalSteps.

Lemma advances_emit (e : Event) : e <> CallDone -> advances 0 (emit e).
Proof.
  intros He w. unfold signalled, count_done. simpl.
  destruct (Event_eq_dec e CallDone); [contradiction|]. repeat split; auto; discriminate.
Qed.

Lemma advances_done : advances 1 done.
Proof. intros w. unfold signalled. simpl. repeat split; auto; discriminate. Qed.

Lemma advances_CHECK cond what : advances 0 (CHECK cond what).
Proof. destruct cond; [apply advances_kret | now apply advances_stop]. Qed.

Lemma advances_with_client f : advances 0 (with_client f).
Proof.
  intros w. unfold with_client.
  destruct (f (client_ w)); unfold signalled; simpl; repeat split; auto; discriminate.
Qed.

Lemma advances_set_output_tensor o : advances 0 (set_output_tensor o).
Proof. intros w. unfold signalled. simpl. repeat split; auto; discriminate. Qed.

Lemma advances_enqueue_d2h op :
  advances (if is_callback op then 1 else 0) (enqueue_d2h op).
Proof.
  intros w. unfold enqueue_d2h, signalled, pending.
  destruct (d2h_stream w) as [q|] eqn:Hq; simpl; rewrite ?Hq, ?callbacks_app; simpl;
    destruct (is_callback op); repeat split; try discriminate; intros; lia.
Qed.

Lemma advances_enqueue_h2d op :
  advances (if is_callback op then 1 else 0) (enqueue_h2d op).
Proof.
  intros w. unfold enqueue_h2d, signalled, pending.
  destruct (h2d_stream w) as [q|] eqn:Hq; simpl; rewrite ?Hq, ?callbacks_app; simpl;
    destruct (is_callback op); repeat split; try discriminate; intros; lia.
Qed.

Lemma advances_init_d2h_stream context :
  advances 0 (TensorToPlasmaOp.init_d2h_stream context).
Proof.
  intros w. unfold TensorToPlasmaOp.init_d2h_stream.
  destruct (d2h_stream w) as [q|] eqn:Hq; [apply advances_kret|].
  unfold signalled, pending, kbind. simpl. rewrite Hq.
  destruct (Stream_Init_ok context); simpl; repeat split; auto; discriminate.
Qed.

Lemma advances_init_h2d_stream context :
  advances 0 (PlasmaToTensorOp.init_h2d_stream context).
Proof.
  intros w. unfold PlasmaToTensorOp.init_h2d_stream.
  destruct (h2d_stream w) as [q|] eqn:Hq; [apply advances_kret|].
  unfold signalled, pending, kbind. simpl. rewrite Hq.
  destruct (Stream_Init_ok context); simpl; repeat split; auto; discriminate.
Qed.

Lemma advances_client_Get object_id : advances 0 (PlasmaToTensorOp.client_Get object_id).
Proof.
  intros w. unfold PlasmaToTensorOp.client_Get.
  destruct (Get object_id (client_ w));
    [apply advances_kret | apply (advances_stop Blocked); discriminate].
Qed.

Lemma guarded_OP_REQUIRES_ASYNC cond status : guarded 0 (OP_REQUIRES_ASYNC cond status).
Proof.
  destruct cond; [apply advances_guarded; [lia | apply advances_kret]|].
  intros w. reflexivity.
Qed.

Lemma guarded_stop {A} (n : nat) (e : Exit) : e <> Returned -> guarded n (@stop A e).
Proof.
  intros He w. unfold signalled. simpl. destruct e; try lia. now destruct He.
Qed.

Lemma guarded_OP_REQUIRES_OK_ASYNC status : guarded 0 (OP_REQUIRES_OK_ASYNC status).
Proof.
  destruct status; [apply guarded_OP_REQUIRES_ASYNC|].
  apply advances_guarded; [lia | apply advances_kret].
Qed.

(** Closes a goal about a step that never calls [done]. *)
Ltac silent_step :=
  first
    [ apply advances_kret | apply advances_checked | apply advances_defined
    | apply advances_ARROW_CHECK_OK | apply advances_through_buffer
    | apply advances_CHECK | apply advances_with_client
    | apply advances_set_output_tensor | apply advances_init_d2h_stream
    | apply advances_init_h2d_stream | apply advances_client_Get
    | apply advances_emit; discriminate
    | apply advances_stop; discriminate
    | apply (advances_enqueue_d2h WaitFor)
    | apply (advances_enqueue_d2h (MemcpyD2H _ _ _ _))
    | apply (advances_enqueue_h2d (MemcpyH2D _ _)) ].

Ltac advances_steps :=
  repeat first [ silent_step | apply (advances_kbind 0); [|intros ?] ].

Ltac guarded_steps :=
  repeat first
    [ apply guarded_OP_REQUIRES_ASYNC | apply guarded_OP_REQUIRES_OK_ASYNC
    | apply advances_guarded; [lia | solve [advances_steps]]
    | apply guarded_kbind; [|intros ?] ].

Section PutSignals.
Context `{WireFormat}.
Import TensorToPlasmaOp.

Lemma advances_copy_to_buffer object_id dst src n :
  advances 0 (copy_to_buffer object_id dst src n).
Proof. advances_steps. Qed.

Lemma advances_wrapped_callback object_id : advances 1 (wrapped_callback object_id).
Proof. unfold wrapped_callback. advances_steps. apply advances_done. Qed.

Lemma advances_memcpy_loop object_id offset offsets tensors : forall i,
  advances 0 (memcpy_loop object_id offset offsets i tensors).
Proof.
  induction tensors as [|t rest IH]; intros i; simpl; [apply advances_kret|].
  apply (advances_kbind 0); [silent_step|]. intros src.
  apply (advances_kbind 0); [apply advances_copy_to_buffer|]. intros _. apply IH.
Qed.

Lemma guarded_ThenMemcpy_loop context object_id offset offsets tensors : forall i,
  guarded 0 (ThenMemcpy_loop context object_id offset offsets i tensors).
Proof.
  induction tensors as [|t rest IH]; intros i; simpl;
    [apply advances_guarded; [lia | apply advances_kret]|].
  apply guarded_kbind; [apply advances_guarded; [lia | silent_step]|]. intros src.
  apply guarded_kbind.
  { apply advances_guarded; [lia|]. destruct (ThenMemcpy_ok context i); silent_step. }
  intros _. apply guarded_kbind; [apply guarded_OP_REQUIRES_ASYNC|]. intros _. apply IH.
Qed.

Lemma guarded_stage context : guarded 0 (stage context).
Proof.
  unfold stage.
  apply guarded_kbind; [apply guarded_OP_REQUIRES_ASYNC|]. intros _.
  apply guarded_kbind; [apply advances_guarded; [lia | silent_step]|].
  intros [offsets total_bytes].
  destruct (take _ (inputs context)) as [|input0 others];
    [apply advances_guarded; [lia | silent_step]|].
  destruct (last (inputs context)) as [plasma_object_id|];
    [|apply advances_guarded; [lia | silent_step]].
  apply advances_guarded; [lia|]. advances_steps.
Qed.

Lemma guarded_transfer device context object_id offset offsets :
  guarded 1 (transfer device context object_id offset offsets).
Proof.
  unfold transfer. destruct device.
  - apply advances_guarded; [lia|].
    apply (advances_kbind 0); [apply advances_memcpy_loop|]. intros _.
    apply advances_wrapped_callback.
  - apply guarded_kbind; [apply guarded_OP_REQUIRES_ASYNC|]. intros _.
    apply guarded_kbind; [apply advances_guarded; [lia | silent_step]|]. intros _.
    apply guarded_kbind; [apply advances_guarded; [lia | silent_step]|]. intros _.
    apply guarded_kbind; [apply advances_guarded; [lia | silent_step]|]. intros _.
    apply guarded_kbind; [apply advances_guarded; [lia | silent_step]|]. intros _.
    apply guarded_kbind; [apply guarded_ThenMemcpy_loop|]. intros _.
    apply advances_guarded; [lia|].
    apply (advances_enqueue_d2h (ExecuteWrappedCallback object_id)).
Qed.

Lemma guarded_Put_ComputeAsync device context : guarded 1 (ComputeAsync device context).
Proof.
  unfold ComputeAsync. apply guarded_kbind; [apply guarded_stage|].
  intros [[object_id offset] offsets]. apply guarded_transfer.
Qed.
End PutSignals.

Lemma advances_copy_to_output src n : advances 0 (PlasmaToTensorOp.copy_to_output src n).
Proof.
  intros w. unfold PlasmaToTensorOp.copy_to_output.
  destruct (output_tensor w) as [out|]; [|apply (advances_stop UndefinedBehavior); discriminate].
  revert w. change (advances 0
    (let* out' := defined (let* bytes := read_bytes src n in memcpy out 0 bytes)%outcome in
     let* _ := set_output_tensor (Some out') in emit (Copied 0 n))).
  advances_steps.
Qed.

Lemma guarded_Get_ComputeAsync device context :
  guarded 1 (PlasmaToTensorOp.ComputeAsync device context).
Proof.
  unfold PlasmaToTensorOp.ComputeAsync.
  destruct (inputs context) as [|plasma_object_id others];
    [apply guarded_stop; discriminate|].
  do 5 (apply guarded_kbind; [apply advances_guarded; [lia | silent_step]|]; intros ?).
  apply guarded_kbind.
  { unfold PlasmaToTensorOp.allocate_output.
    apply guarded_kbind; [apply advances_guarded; [lia | silent_step]|]. intros _.
    apply guarded_kbind; [apply guarded_OP_REQUIRES_OK_ASYNC|]. intros _.
    apply advances_guarded; [lia | silent_step]. }
  intros _. destruct device.
  - apply advances_guarded; [lia|].
    apply (advances_kbind 0); [apply advances_copy_to_output|]. intros _.
    apply advances_done.
  - apply guarded_kbind; [apply guarded_OP_REQUIRES_ASYNC|]. intros _.
    apply guarded_kbind; [apply advances_guarded; [lia | silent_step]|]. intros _.
    apply guarded_kbind.
    { apply advances_guarded; [lia|]. destruct (ThenMemcpy_ok context 0); silent_step. }
    intros _. apply guarded_kbind; [apply guarded_OP_REQUIRES_ASYNC|]. intros _.
    apply guarded_kbind; [apply advances_guarded; [lia | silent_step]|]. intros _.
    apply advances_guarded; [lia|]. apply (advances_enqueue_h2d ExecuteDone).
Qed.

Lemma keeps_kbind {A B} (m : K A) (k : A -> K B) :
  keeps_streams m -> (forall a, keeps_streams (k a)) -> keeps_streams (kbind m k).
Proof.
  intros Hm Hk w. unfold kbind. destruct (Hm w) as [Hd Hh].
  destruct (result (m w)) as [a|e]; cbn [final]; [|now split].
  destruct (Hk a (final (m w))) as [Hd' Hh']. split; congruence.
Qed.

Lemma keeps_pure {A} (m : K A) : (forall w, final (m w) = w) -> keeps_streams m.
Proof. intros Hm w. now rewrite Hm. Qed.

Lemma keeps_with_client f : keeps_streams (with_client f).
Proof. intros w. unfold with_client. destruct (f (client_ w)); now split. Qed.

Lemma keeps_through_buffer {A} object_id (f : list byte -> Outcome (list byte * A)) :
  keeps_streams (through_buffer object_id f).
Proof.
  intros w. unfold through_buffer.
  destruct (objects (client_ w) !! object_id) as [o|]; [|now split].
  destruct (f (obj_data o)) as [[data' a]| |]; now split.
Qed.

Lemma keeps_copy_to_buffer object_id dst src n :
  keeps_streams (copy_to_buffer object_id dst src n).
Proof.
  apply keeps_kbind; [apply keeps_through_buffer|]. intros _. now apply keeps_pure.
Qed.

Lemma keeps_wrapped_callback object_id :
  keeps_streams (TensorToPlasmaOp.wrapped_callback object_id).
Proof.
  unfold TensorToPlasmaOp.wrapped_callback.
  apply keeps_kbind; [now apply keeps_pure|]. intros _.
  apply keeps_kbind; [apply keeps_with_client|]. intros _.
  apply keeps_kbind; [now apply keeps_pure|]. intros _. now apply keeps_pure.
Qed.

Lemma keeps_copy_to_output src n : keeps_streams (PlasmaToTensorOp.copy_to_output src n).
Proof.
  intros w. unfold PlasmaToTensorOp.copy_to_output.
  destruct (output_tensor w) as [out|]; [|now split].
  unfold kbind. destruct (let* bytes := read_bytes src n in memcpy out 0 bytes)%outcome;
    now split.
Qed.

Lemma keeps_exec_op op : keeps_streams (exec_op op).
Proof.
  destruct op; simpl;
    [ now apply keeps_pure | apply keeps_copy_to_buffer | apply keeps_copy_to_output
    | apply keeps_wrapped_callback | now apply keeps_pure ].
Qed.

Lemma keeps_exec_all q : keeps_streams (exec_all q).
Proof.
  induction q as [|op q IH]; simpl; [now apply keeps_pure|].
  apply keeps_kbind; [apply keeps_exec_op | intros _; exact IH].
Qed.

Lemma advances_exec_op op : advances (if is_callback op then 1 else 0) (exec_op op).
Proof.
  destruct op; simpl;
    [ apply advances_kret | apply advances_copy_to_buffer | apply advances_copy_to_output
    | apply advances_wrapped_callback | apply advances_done ].
Qed.

Lemma advances_exec_all q : advances (callbacks q) (exec_all q).
Proof.
  induction q as [|op q IH]; simpl; [apply advances_kret|].
  apply advances_kbind; [apply advances_exec_op | intros _; exact IH].
Qed.

(** Draining a stream turns the closures waiting on it into calls. *)
Lemma advances_drain_d2h : advances 0 drain_d2h.
Proof.
  intros w. unfold drain_d2h. destruct (d2h_stream w) as [q|] eqn:Hq; [|apply advances_kret].
  destruct (advances_exec_all q
              {| client_ := client_ w; d2h_stream := Some []; h2d_stream := h2d_stream w;
                 output_tensor := output_tensor w |}) as (Hle & Heq & Hnr).
  unfold signalled, pending in *. simpl in *. rewrite Hq. simpl.
  repeat split; [lia | intros a Ha; specialize (Heq a Ha); lia | exact Hnr].
Qed.

Lemma advances_drain_h2d : advances 0 drain_h2d.
Proof.
  intros w. unfold drain_h2d. destruct (h2d_stream w) as [q|] eqn:Hq; [|apply advances_kret].
  destruct (advances_exec_all q
              {| client_ := client_ w; d2h_stream := d2h_stream w; h2d_stream := Some [];
                 output_tensor := output_tensor w |}) as (Hle & Heq & Hnr).
  unfold signalled, pending in *. simpl in *. rewrite Hq. simpl.
  repeat split; [lia | intros a Ha; specialize (Heq a Ha); lia | exact Hnr].
Qed.

Lemma drain_d2h_final w :
  pending_on (d2h_stream (final (drain_d2h w))) = 0%nat /\
  h2d_stream (final (drain_d2h w)) = h2d_stream w.
Proof.
  unfold drain_d2h. destruct (d2h_stream w) as [q|] eqn:Hq; simpl; [|now rewrite Hq].
  destruct (keeps_exec_all q
              {| client_ := client_ w; d2h_stream := Some []; h2d_stream := h2d_stream w;
                 output_tensor := output_tensor w |}) as [Hd Hh].
  simpl in *. now rewrite Hd, Hh.
Qed.

Lemma drain_h2d_final w :
  pending_on (h2d_stream (final (drain_h2d w))) = 0%nat /\
  d2h_stream (final (drain_h2d w)) = d2h_stream w.
Proof.
  unfold drain_h2d. destruct (h2d_stream w) as [q|] eqn:Hq; simpl; [|now rewrite Hq].
  destruct (keeps_exec_all q
              {| client_ := client_ w; d2h_stream := d2h_stream w; h2d_stream := Some [];
                 output_tensor := output_tensor w |}) as [Hd Hh].
  simpl in *. now rewrite Hd, Hh.
Qed.

Lemma advances_returning (m : K unit) : guarded 1 m -> advances 1 (returning m).
Proof.
  intros Hm w. specialize (Hm w). unfold returning, signalled in *.
  destruct (result (m w)) as [[]|[]] eqn:Hres; cbn [trace final result];
    repeat split; try lia; try discriminate; try (intros; lia);
    rewrite ?Hres; try discriminate; intros; lia.
Qed.

(** The calls of [done] made in an invocation, together with the closures
    still waiting when it ends, are at most one more than the closures that
    were waiting when it began.  When the kernel returns and the streams run
    to the end, nothing is left waiting. *)
Lemma invocation_done_once (m : K unit) (w : World) :
  guarded 1 m ->
  (signalled (invocation m w) <= 1 + pending w)%nat /\
  (result (invocation m w) = Val tt ->
   count_done (trace (invocation m w)) = (1 + pending w)%nat).
Proof.
  intros Hm.
  assert (Hinv : advances (1 + (0 + 0)) (invocation m)).
  { unfold invocation. apply advances_kbind; [now apply advances_returning|]. intros _.
    apply advances_kbind; [apply advances_drain_d2h|]. intros _. apply advances_drain_h2d. }
  destruct (Hinv w) as (Hle & Heq & _).
  split; [exact Hle|]. intros Hres. specialize (Heq tt Hres). unfold signalled in Heq.
  enough (pending (final (invocation m w)) = 0%nat) by lia.
  revert Hres. unfold invocation, kbind.
  destruct (result (returning m w)) as [[]|e]; cbn [result final]; [|discriminate].
  destruct (result (drain_d2h (final (returning m w)))) as [[]|e]; cbn [result final];
    [|discriminate].
  intros _.
  destruct (drain_d2h_final (final (returning m w))) as [Hd _].
  destruct (drain_h2d_final (final (drain_d2h (final (returning m w))))) as [Hh Hkeep].
  unfold pending. rewrite Hkeep, Hd, Hh. reflexivity.
Qed.

(** C9, as amended: an invocation of Put or of Get calls the completion
    callback at most once on every path, whatever is waiting on the staging
    streams when it begins.  The closures of earlier invocations that wait
    there call [done] once each when the stream runs them; beyond those, the
    calls of [done] made during the invocation and the closures still
    waiting at its end add up to one at most.  On every path on which the
    kernel returns and the streams finish (success, the arity failure, a
    missing device stream, an allocation failure, a copy the device does not
    accept) nothing is left waiting and the invocation has called [done]
    exactly once.  (A failed [CHECK] or [ARROW_CHECK_OK] ends the process
    with the callback not called.) *)
Theorem done_called_once `{WireFormat} (device : Device) (context : OpKernelContext)
    (w : World) :
  ((count_done (trace (Put device context w)) + pending (final (Put device context w))
      <= 1 + pending w)%nat /\
   (result (Put device context w) = Val tt ->
    count_done (trace (Put device context w)) = (1 + pending w)%nat)) /\
  ((count_done (trace (Get_tensor device context w))
      + pending (final (Get_tensor device context w)) <= 1 + pending w)%nat /\
   (result (Get_tensor device context w) = Val tt ->
    count_done (trace (Get_tensor device context w)) = (1 + pending w)%nat)).
Proof.
  split.
  - apply (invocation_done_once _ w), guarded_Put_ComputeAsync.
  - apply (invocation_done_once _ w), guarded_Get_ComputeAsync.
Qed.

(** A device Put behind the closure of an earlier Put that is still waiting
    on [d2h_stream], and a device Get on idle streams. *)
Lemma done_called_once_witness :
  let put_context := sample_context [float_tensor (repeat x01 4); string_tensor [sample_id]] in
  let get_context := sample_context [string_tensor [sample_id]] in
  let busy := {| client_ := client_ empty_world;
                 d2h_stream := Some [ExecuteWrappedCallback other_id];
                 h2d_stream := None; output_tensor := None |} in
  (count_done (trace (@Put sample_format GPUDevice put_context busy)) <= 2)%nat /\
  (count_done (trace (Get_tensor GPUDevice get_context empty_world)) <= 1)%nat.
Proof.
  intros put_context get_context busy.
  pose proof (@done_called_once sample_format GPUDevice put_context busy) as [[Hput _] _].
  pose proof (@done_called_once sample_format GPUDevice get_context empty_world)
    as [_ [Hget _]].
  change (pending busy) with 1%nat in Hput.
  change (pending empty_world) with 0%nat in Hget.
  split; lia.
Defined.

(** C9 as stated fails on the store-failure path: a Put under an id the store
    already holds dies in [ARROW_CHECK_OK(client_.Create(...))], and [done]
    is never called. *)
Lemma put_store_failure_skips_done :
  let r := @Put sample_format CPUDevice
             (sample_context [float_tensor (repeat x01 4); string_tensor [sample_id]])
             (sealed_world (repeat x02 12)) in
  pending (sealed_world (repeat x02 12)) = 0%nat /\
  trace r = [CallGetHeaderSize float32 [1]; CallCreate sample_id 12] /\
  result r = Stop (Aborted (ArrowCheckFailure PlasmaObjectExists)) /\
  count_done (trace r) = 0%nat.
Proof. vm_compute. repeat split; reflexivity. Qed.

(** ** The device path of Put: what goes on the stream *)

Section DeviceProgram.
Context `{WireFormat}.
Import TensorToPlasmaOp.

Lemma ThenMemcpy_loop_enqueues context object_id offset offsets tensors :
  forall i w q,
    d2h_stream w = Some q ->
    exists ops,
      d2h_stream (final (ThenMemcpy_loop context object_id offset offsets i tensors w)) =
        Some (q ++ ops) /\
      ops `prefix_of` copies_from object_id offset offsets i tensors /\
      (result (ThenMemcpy_loop context object_id offset offsets i tensors w) = Val tt ->
       ops = copies_from object_id offset offsets i tensors).
Proof.
  induction tensors as [|t rest IH]; intros i w q Hq; simpl.
  - exists []. rewrite app_nil_r. auto.
  - rewrite kbind_checked. unfold flat.
    destruct (decide (dtype t = DT_FLOAT)) as [Hfloat|Hother].
    2:{ exists []. rewrite app_nil_r. simpl.
        split; [exact Hq|]. split; [apply prefix_nil | discriminate]. }
    destruct (ThenMemcpy_ok context i) eqn:Hok.
    2:{ exists []. rewrite app_nil_r. rewrite kbind_kret. simpl.
        split; [exact Hq|]. split; [apply prefix_nil | discriminate]. }
    set (op := MemcpyD2H object_id (destination offset offsets i) (tensor_buf t)
                 (copy_size offsets i)).
    set (w' := {| client_ := client_ w; d2h_stream := Some (q ++ [op]);
                  h2d_stream := h2d_stream w; output_tensor := output_tensor w |}).
    destruct (IH (S i) w' (q ++ [op]) eq_refl) as (ops & Hfinal & Hprefix & Hall).
    assert (Hstep : forall k : unit -> K unit,
               kbind (enqueue_d2h op) k w = k tt w').
    { intros k. unfold kbind at 1, enqueue_d2h. rewrite Hq. reflexivity. }
    rewrite Hstep, kbind_OP_REQUIRES_ASYNC.
    exists (op :: ops). rewrite Hfinal, <- app_assoc. simpl.
    split; [reflexivity|]. split; [now apply prefix_cons|].
    intros Hres. now rewrite (Hall Hres).
Qed.

Lemma kbind_init_d2h_stream {B} context (k : unit -> K B) w :
  kbind (init_d2h_stream context) k w =
  match d2h_stream w with
  | Some _ => k tt w
  | None =>
      let w' := {| client_ := client_ w; d2h_stream := Some [];
                   h2d_stream := h2d_stream w; output_tensor := output_tensor w |} in
      if Stream_Init_ok context then k tt w'
      else stop (Aborted (CheckFailure "CHECK(d2h_stream->Init().ok())")) w'
  end.
Proof.
  unfold kbind at 1, init_d2h_stream. destruct (d2h_stream w); [reflexivity|].
  destruct (Stream_Init_ok context); reflexivity.
Qed.

(** The device path from the wait on the compute stream on, with the stream
    in place. *)
Lemma device_tail_enqueues context object_id offset offsets tensors w q :
  d2h_stream w = Some q ->
  let r := (let* _ := CHECK (ThenWaitFor_ok context)
                        "CHECK(d2h_stream->ThenWaitFor(orig_stream).ok())" in
            let* _ := enqueue_d2h WaitFor in
            let* _ := ThenMemcpy_loop context object_id offset offsets 0 tensors in
            enqueue_d2h (ExecuteWrappedCallback object_id)) w in
  exists ops,
    queue_of (final r) = q ++ ops /\
    ops `prefix_of` stream_program object_id offset offsets tensors /\
    (result r = Val tt -> ops = stream_program object_id offset offsets tensors).
Proof.
  intros Hq r. subst r. rewrite kbind_CHECK.
  destruct (ThenWaitFor_ok context).
  2:{ exists []. rewrite app_nil_r. unfold queue_of. simpl. rewrite Hq.
      split; [reflexivity|]. split; [apply prefix_nil | discriminate]. }
  set (w1 := {| client_ := client_ w; d2h_stream := Some (q ++ [WaitFor]);
                h2d_stream := h2d_stream w; output_tensor := output_tensor w |}).
  assert (Hstep : forall k : unit -> K unit, kbind (enqueue_d2h WaitFor) k w = k tt w1).
  { intros k. unfold kbind at 1, enqueue_d2h. rewrite Hq. reflexivity. }
  rewrite Hstep.
  destruct (ThenMemcpy_loop_enqueues context object_id offset offsets tensors 0 w1
              (q ++ [WaitFor]) eq_refl) as (ops & Hfinal & Hprefix & Hall).
  unfold kbind.
  destruct (result (ThenMemcpy_loop context object_id offset offsets 0 tensors w1))
    as [[]|e] eqn:Hres; cbn [final result].
  - specialize (Hall eq_refl). subst ops.
    unfold enqueue_d2h. rewrite Hfinal. simpl.
    exists (stream_program object_id offset offsets tensors).
    unfold queue_of. simpl. unfold stream_program.
    split; [now rewrite <- !app_assoc|]. split; reflexivity.
  - exists (WaitFor :: ops). unfold queue_of. rewrite Hfinal. simpl.
    split; [now rewrite <- app_assoc|]. split; [|discriminate].
    unfold stream_program. simpl. apply prefix_cons. now apply prefix_app_r.
Qed.

(** Whatever a device-path Put leaves on [d2h_stream] is an initial part of
    its program, and the whole program when the kernel reaches its end. *)
Lemma transfer_enqueues context object_id offset offsets w :
  let r := transfer GPUDevice context object_id offset offsets w in
  let tensors := take (Z.to_nat (Zlen (inputs context) - 1)) (inputs context) in
  exists ops,
    queue_of (final r) = queue_of w ++ ops /\
    ops `prefix_of` stream_program object_id offset offsets tensors /\
    (result r = Val tt -> ops = stream_program object_id offset offsets tensors).
Proof.
  intros r tensors. subst r. unfold transfer. fold tensors.
  rewrite kbind_OP_REQUIRES_ASYNC.
  destruct (orig_stream context).
  2:{ exists []. rewrite app_nil_r. simpl. split; [reflexivity|].
      split; [apply prefix_nil | discriminate]. }
  rewrite kbind_CHECK. destruct (HostMemoryRegister_ok context).
  2:{ exists []. rewrite app_nil_r. simpl. split; [reflexivity|].
      split; [apply prefix_nil | discriminate]. }
  rewrite kbind_init_d2h_stream. unfold queue_of at 2.
  destruct (d2h_stream w) as [q|] eqn:Hq; simpl default.
  - now apply device_tail_enqueues.
  - cbv zeta. destruct (Stream_Init_ok context).
    + now apply device_tail_enqueues.
    + exists []. unfold queue_of. simpl.
      split; [reflexivity|]. split; [apply prefix_nil | discriminate].
Qed.
End DeviceProgram.

(** ** The device path of Put under interleavings *)










Section Interleavings.
Context `{WireFormat}.
Import TensorToPlasmaOp.


End Interleavings.



(** ** The header size and the payload *)

Section PayloadIndependence.
Context `{WireFormat}.
Import TensorToPlasmaOp.

Lemma offsets_loop_descriptors tensors1 tensors2 :
  Forall2 same_descriptor tensors1 tensors2 ->
  forall offsets total_bytes,
    offsets_loop tensors1 offsets total_bytes = offsets_loop tensors2 offsets total_bytes.
Proof.
  induction 1 as [|t1 t2 rest1 rest2 (_ & Hn & Hb & _) _ IH]; intros offsets total_bytes;
    simpl; [reflexivity|].
  rewrite Hn, Hb.
  destruct (negb (TotalBytes t2 =? to_size_t (NumElements t2 * sizeof_float)));
    [reflexivity|].
  destruct (negb (0 <? TotalBytes t2)); [reflexivity | apply IH].
Qed.

Lemma dtype_loop_descriptors tf_dtype others1 others2 :
  Forall2 same_descriptor others1 others2 ->
  dtype_loop tf_dtype others1 = dtype_loop tf_dtype others2.
Proof.
  induction 1 as [|t1 t2 rest1 rest2 (Hd & _) _ IH]; simpl; [reflexivity|].
  rewrite Hd. destruct (decide (tf_dtype <> dtype t2)); [reflexivity | exact IH].
Qed.

Lemma stage_descriptors context1 context2 w :
  Forall2 same_descriptor (inputs context1) (inputs context2) ->
  stage context1 w = stage context2 w.
Proof.
  intros Hsame. unfold stage.
  assert (Hlen : Zlen (inputs context1) = Zlen (inputs context2)).
  { unfold Zlen. now rewrite (Forall2_length _ _ _ Hsame). }
  rewrite Hlen, !kbind_OP_REQUIRES_ASYNC.
  destruct (2 <=? Zlen (inputs context2)); [|reflexivity].
  pose proof (Forall2_take _ _ _ (Z.to_nat (Zlen (inputs context2) - 1)) Hsame)
    as Htensors.
  pose proof (Forall2_last _ _ _ Hsame) as Hlast.
  rewrite (offsets_loop_descriptors _ _ Htensors), !kbind_checked.
  destruct (offsets_loop _ [0] 0) as [[offsets total_bytes]|f]; [|reflexivity].
  destruct Htensors as [|input1 input2 others1 others2 (Hd & _) Hothers]; [reflexivity|].
  destruct Hlast as [id1 id2 (Hidd & Hidn & _ & Hids)|]; [|reflexivity].
  rewrite Hd, (dtype_loop_descriptors _ _ _ Hothers), Hidn.
  unfold flat_string. now rewrite Hidd, Hids.
Qed.
End PayloadIndependence.

(** C8: [TensorFlowTensorGetHeaderSize] depends on the dtype and the shape
    alone.  Tensors of one dtype and shape get one header size whatever data
    they hold; a call returns the same whatever the state of the process
    (the store, the streams, the output) and leaves that state alone; and a
    Put computes the same header size, and runs the same up to the header
    write, for inputs that differ only in the bytes they hold. *)
Theorem HeaderSize_deterministic `{WireFormat} (dtype : ArrowType) (shape : list Z) :
  (forall t1 t2 : ArrowTensor,
     tensor_type t1 = dtype -> tensor_shape t1 = shape ->
     tensor_type t2 = dtype -> tensor_shape t2 = shape ->
     TensorFlowTensorGetHeaderSize (tensor_type t1) (tensor_shape t1) =
     TensorFlowTensorGetHeaderSize (tensor_type t2) (tensor_shape t2)) /\
  (forall w1 w2 : World,
     result (ARROW_CHECK_OK (TensorFlowTensorGetHeaderSize dtype shape) w1) =
     result (ARROW_CHECK_OK (TensorFlowTensorGetHeaderSize dtype shape) w2) /\
     final (ARROW_CHECK_OK (TensorFlowTensorGetHeaderSize dtype shape) w1) = w1) /\
  (forall (context1 context2 : OpKernelContext) (w : World),
     Forall2 same_descriptor (inputs context1) (inputs context2) ->
     TensorToPlasmaOp.stage context1 w = TensorToPlasmaOp.stage context2 w).
Proof.
  split; [|split].
  - intros t1 t2 -> -> Hty Hsh. now rewrite Hty, Hsh.
  - intros w1 w2.
    destruct (TensorFlowTensorGetHeaderSize dtype shape); simpl; split; reflexivity.
  - intros context1 context2 w. apply stage_descriptors.
Qed.

Lemma HeaderSize_deterministic_witness :
  @TensorToPlasmaOp.stage sample_format
    (sample_context [float_tensor (repeat x01 4); string_tensor [sample_id]]) empty_world =
  @TensorToPlasmaOp.stage sample_format
    (sample_context [float_tensor (repeat x02 4); string_tensor [sample_id]]) empty_world.
Proof.
  apply (@HeaderSize_deterministic sample_format float32 [1]).
  repeat constructor.
Defined.

(** ** Put, then Get *)

(** C1 at a concrete input: two float tensors of 4 and 8 bytes put under
    one id and fetched again.  Both calls succeed, and the tensor Get returns
    is the 8-byte header followed by the 12 bytes of the inputs, 20 bytes in
    all, not the 12 bytes of the inputs. *)
Lemma put_get_returns_header_and_payload :
  let a := [x0a; x0b; x0c; x0d] in
  let b := [x11; x12; x13; x14; x15; x16; x17; x18] in
  let put := @TensorToPlasmaOp.ComputeAsync sample_format CPUDevice
               (sample_context [float_tensor a; float_tensor b; string_tensor [sample_id]])
               empty_world in
  let get := PlasmaToTensorOp.ComputeAsync CPUDevice
               (sample_context [string_tensor [sample_id]]) (final put) in
  result put = Val tt /\
  result get = Val tt /\
  trace get = [CallGet sample_id; CallAllocateOutput [5]; Copied 0 20; CallDone] /\
  output_tensor (final get) = Some ([x01; x00; x00; x00; x0b; x00; x00; x00] ++ a ++ b) /\
  output_tensor (final get) <> Some (a ++ b).
Proof. vm_compute. repeat split; try reflexivity. discriminate. Qed.

Lemma set_object_lookup w object_id o :
  objects (client_ (set_object w object_id o)) !! object_id = Some o.
Proof. simpl. apply lookup_insert_eq. Qed.

Lemma set_object_twice w object_id o1 o2 :
  set_object (set_object w object_id o1) object_id o2 = set_object w object_id o2.
Proof. unfold set_object. simpl. now rewrite insert_insert_eq. Qed.

Lemma kbind_final_result {A B} (m : K A) (k : A -> K B) (w : World) (a : A) :
  result (m w) = Val a ->
  final (kbind m k w) = final (k a (final (m w))) /\
  result (kbind m k w) = result (k a (final (m w))).
Proof. intros Hm. unfold kbind. rewrite Hm. split; reflexivity. Qed.

Lemma read_bytes_all (src : list byte) : read_bytes src (Zlen src) = Ok src.
Proof.
  unfold read_bytes. rewrite Z.leb_refl, Zlen_to_nat. now rewrite firstn_all.
Qed.

(** A copy of a whole source over the middle of an object's buffer. *)
Lemma copy_to_buffer_run object_id (pre mid post src : list byte) (b : bool) (w : World) :
  objects (client_ w) !! object_id =
    Some {| obj_data := pre ++ mid ++ post; obj_sealed := b |} ->
  length mid = length src ->
  result (copy_to_buffer object_id (Zlen pre) src (Zlen src) w) = Val tt /\
  final (copy_to_buffer object_id (Zlen pre) src (Zlen src) w) =
    set_object w object_id {| obj_data := pre ++ src ++ post; obj_sealed := b |}.
Proof.
  intros Hobj Hlen. unfold copy_to_buffer, kbind, through_buffer.
  rewrite Hobj. simpl. rewrite read_bytes_all. simpl.
  rewrite memcpy_middle by exact Hlen. simpl. split; reflexivity.
Qed.

Lemma steps_by_tail offsets i t rest :
  steps_by offsets i (t :: rest) -> steps_by offsets (S i) rest.
Proof.
  intros Hsteps k t' Hk. specialize (Hsteps (S k) t' Hk).
  now replace (i + S k)%nat with (S i + k)%nat in Hsteps by lia.
Qed.

Section HostCopies.
Import TensorToPlasmaOp.

Lemma memcpy_loop_run object_id offset offsets (b : bool) (post : list byte) :
  forall tensors i w pre region,
    objects (client_ w) !! object_id =
      Some {| obj_data := pre ++ region ++ post; obj_sealed := b |} ->
    Forall (fun t => dtype t = DT_FLOAT) tensors ->
    steps_by offsets i tensors ->
    Zlen pre = offset + nth i offsets 0 ->
    length region = length (concat (map tensor_buf tensors)) ->
    result (memcpy_loop object_id offset offsets i tensors w) = Val tt /\
    final (memcpy_loop object_id offset offsets i tensors w) =
      set_object w object_id
        {| obj_data := pre ++ concat (map tensor_buf tensors) ++ post; obj_sealed := b |}.
Proof.
  induction tensors as [|t rest IH]; intros i w pre region Hobj Hfloat Hsteps Hpre Hlen.
  - simpl in *. destruct region; [|discriminate]. split; [reflexivity|].
    unfold set_object. destruct w as [[objs av un] d2h h2d out]. simpl in *.
    now rewrite insert_id.
  - inversion Hfloat as [|? ? Hty Hfloat']; subst.
    destruct (Hsteps 0%nat t eq_refl) as (Hnext & Haligned & Hsmall).
    rewrite Nat.add_0_r in Hnext, Haligned.
    pose proof (Zlen_nonneg (tensor_buf t)) as Hnn.
    assert (Hdst : destination offset offsets i = Zlen pre).
    { unfold destination. rewrite Hpre. f_equal.
      symmetry. apply Z_div_exact_full_2; [discriminate | exact Haligned]. }
    assert (Hsize : copy_size offsets i = Zlen (tensor_buf t)).
    { unfold copy_size. rewrite Hnext.
      replace (nth i offsets 0 + Zlen (tensor_buf t) - nth i offsets 0)
        with (Zlen (tensor_buf t)) by lia.
      apply to_size_t_small. lia. }
    simpl in Hlen. rewrite length_app in Hlen.
    simpl memcpy_loop. rewrite kbind_checked. unfold flat. rewrite Hty. simpl.
    rewrite Hdst, Hsize.
    rewrite <- (take_drop (length (tensor_buf t)) region), <- app_assoc in Hobj.
    destruct (copy_to_buffer_run object_id pre _ _ (tensor_buf t) b w Hobj)
      as [Hres Hfin]; [rewrite length_take; lia|].
    destruct (kbind_final_result _
                (fun _ => memcpy_loop object_id offset offsets (S i) rest) w tt Hres)
      as [-> ->].
    rewrite Hfin.
    destruct (IH (S i) (set_object w object_id
                          {| obj_data := pre ++ tensor_buf t
                                           ++ drop (length (tensor_buf t)) region ++ post;
                             obj_sealed := b |})
                (pre ++ tensor_buf t) (drop (length (tensor_buf t)) region))
      as [Hres' Hfin'].
    + rewrite set_object_lookup. now rewrite <- app_assoc.
    + exact Hfloat'.
    + now apply steps_by_tail in Hsteps.
    + rewrite Zlen_app, Hpre, Hnext. lia.
    + rewrite length_drop. lia.
    + split; [exact Hres'|]. rewrite Hfin', set_object_twice.
      simpl. now rewrite <- !app_assoc.
Qed.
End HostCopies.

Lemma kbind_with_client {B} (f : PlasmaClient -> Outcome PlasmaClient) (c' : PlasmaClient)
    (k : unit -> K B) (w : World) :
  f (client_ w) = Ok c' ->
  kbind (with_client f) k w =
  k tt {| client_ := c'; d2h_stream := d2h_stream w; h2d_stream := h2d_stream w;
          output_tensor := output_tensor w |}.
Proof. intros Hf. unfold kbind, with_client. rewrite Hf. reflexivity. Qed.

Lemma kbind_through_buffer {A B} object_id (f : list byte -> Outcome (list byte * A))
    (o : PlasmaObject) (data' : list byte) (a : A) (k : A -> K B) (w : World) :
  objects (client_ w) !! object_id = Some o ->
  f (obj_data o) = Ok (data', a) ->
  kbind (through_buffer object_id f) k w =
  k a (set_object w object_id {| obj_data := data'; obj_sealed := obj_sealed o |}).
Proof.
  intros Hobj Hf. unfold kbind, through_buffer. rewrite Hobj, Hf. reflexivity.
Qed.

Lemma size_checks_aligned t : size_checks t -> TotalBytes t mod sizeof_float = 0.
Proof.
  intros [-> _]. unfold to_size_t, sizeof_float.
  rewrite Z.mod_mod_divide by (exists (2 ^ 62); reflexivity).
  apply Z_mod_mult.
Qed.

Lemma sum_bytes_nonneg tensors : Forall size_checks tensors -> 0 <= sum_bytes tensors.
Proof. induction 1 as [|? ? [_ ?] ? ?]; simpl; lia. Qed.

Lemma sum_bytes_concat tensors :
  Forall tensor_wf tensors ->
  sum_bytes tensors = Zlen (concat (map tensor_buf tensors)).
Proof.
  induction 1 as [|t rest (_ & Hbytes & _) _ IH]; simpl; [reflexivity|].
  rewrite Zlen_app, Hbytes, IH. reflexivity.
Qed.

(** Without wrap-around the table steps by the buffer sizes, on multiples of
    [sizeof(float)]. *)
Lemma offsets_steps_by tensors :
  Forall size_checks tensors ->
  Forall tensor_wf tensors ->
  sum_bytes tensors < 2 ^ 64 ->
  steps_by (0 :: running_totals 0 tensors) 0 tensors.
Proof.
  intros Hchecks Hwf Hfit.
  assert (Haligned : forall k, (k <= length tensors)%nat ->
            nth k (0 :: running_totals 0 tensors) 0 mod sizeof_float = 0).
  { induction k as [|k IHk]; intros Hk; [reflexivity|].
    destruct (lookup_lt_is_Some_2 tensors k ltac:(lia)) as [t Ht].
    destruct (running_totals_exact tensors 0 k t Hchecks ltac:(lia) ltac:(lia) Ht)
      as [-> _].
    rewrite Z.add_mod by discriminate.
    rewrite IHk by lia.
    rewrite (size_checks_aligned t) by (eapply Forall_lookup_1; eassumption).
    reflexivity. }
  intros k t Hk. simpl Nat.add.
  destruct (running_totals_exact tensors 0 k t Hchecks ltac:(lia) ltac:(lia) Hk)
    as [Hstep Hnn].
  pose proof (Forall_lookup_1 _ _ _ _ Hwf Hk) as (_ & Hbytes & _).
  pose proof (Forall_lookup_1 _ _ _ _ Hchecks Hk) as [Heq _].
  rewrite <- Hbytes. split; [exact Hstep|]. split.
  - apply Haligned. apply lookup_lt_Some in Hk. lia.
  - rewrite Heq. apply to_size_t_range.
Qed.

Section RoundTrip.
Context `{WireFormat}.
Import TensorToPlasmaOp.

(** A Put of float tensors under a fresh id, with room in the store, gets as
    far as the header write: the object holds the header and then a payload
    region of [total_bytes] bytes. *)
Lemma stage_run context w input0 others plasma_object_id object_id hdr :
  let tensors := input0 :: others in
  inputs context = tensors ++ [plasma_object_id] ->
  Forall (fun t => dtype t = DT_FLOAT) tensors ->
  Forall size_checks tensors ->
  names_object plasma_object_id object_id ->
  header_bytes float32 [sum_bytes tensors / sizeof_float] = Ok hdr ->
  Zlen hdr + sum_bytes tensors < 2 ^ 63 ->
  objects (client_ w) !! object_id = None ->
  Zlen hdr + sum_bytes tensors <= available (client_ w) ->
  result (stage context w) = Val (object_id, Zlen hdr, 0 :: running_totals 0 tensors) /\
  exists region,
    length region = Z.to_nat (sum_bytes tensors) /\
    objects (client_ (final (stage context w))) !! object_id =
      Some {| obj_data := hdr ++ region; obj_sealed := false |}.
Proof.
  intros tensors Hinputs Hfloat Hchecks Hid Hhdr Hfit Hfresh Hroom.
  pose proof (sum_bytes_nonneg _ Hchecks) as Hsum.
  pose proof (Zlen_nonneg hdr) as Hhdr_nn.
  assert (Harity : 2 <= Zlen (inputs context)).
  { rewrite Hinputs. unfold Zlen. rewrite length_app. simpl. lia. }
  destruct (inputs_split _ Harity) as (input0' & others' & id & Hsplit & Htake & Hlast).
  rewrite Hinputs in Hsplit. apply app_inj_tail in Hsplit as [[= <- <-] <-].
  assert (Htotal : final_total 0 tensors = sum_bytes tensors).
  { rewrite final_total_sum. subst tensors. cbv iota. rewrite Z.add_0_l.
    apply to_size_t_small. lia. }
  unfold stage. rewrite kbind_OP_REQUIRES_ASYNC.
  replace (2 <=? Zlen (inputs context)) with true by (symmetry; now apply Z.leb_le).
  rewrite Htake, Hlast, kbind_checked.
  fold tensors. rewrite (offsets_loop_passed tensors [0] 0 Hchecks).
  subst tensors. cbv iota beta. rewrite kbind_checked.
  inversion Hfloat as [|? ? Hty Hothers]; subst.
  replace (dtype_loop (dtype input0) others) with (Passed tt)
    by (symmetry; apply dtype_loop_passed; rewrite Hty; exact Hothers).
  rewrite (kbind_decode_id _ object_id) by assumption.
  rewrite Hty. simpl tf_dtype_to_arrow. rewrite kbind_checked.
  change ([0] ++ running_totals 0 (input0 :: others))
    with (0 :: running_totals 0 (input0 :: others)).
  rewrite Htotal.
  assert (Hshape : to_int64 (sum_bytes (input0 :: others) / sizeof_float) =
                   sum_bytes (input0 :: others) / sizeof_float).
  { apply to_int64_small. unfold sizeof_float.
    pose proof (Z.div_pos (sum_bytes (input0 :: others)) 4 ltac:(lia) ltac:(lia)).
    assert (sum_bytes (input0 :: others) / 4 < 2 ^ 63)
      by (apply Z.div_lt_upper_bound; lia). lia. }
  rewrite Hshape, kbind_emit, HeaderSize_is_header_length, Hhdr.
  cbn [obind]. rewrite kbind_ARROW_CHECK_OK, kbind_emit.
  rewrite (to_int64_small (sum_bytes (input0 :: others))) by lia.
  rewrite (to_int64_small (Zlen hdr + _)) by lia.
  set (size := Zlen hdr + sum_bytes (input0 :: others)).
  set (c' := {| objects := <[object_id := {| obj_data := fresh_buffer (client_ w) size;
                                             obj_sealed := false |}]> (objects (client_ w));
                available := available (client_ w) - size;
                uninitialized := uninitialized (client_ w) |}).
  rewrite (kbind_with_client _ c').
  2:{ unfold Create. rewrite Hfresh.
      replace ((size <? 0) || (available (client_ w) <? size)) with false; [reflexivity|].
      symmetry. apply orb_false_intro; apply Z.ltb_ge; lia. }
  rewrite kbind_emit.
  set (fresh := fresh_buffer (client_ w) size).
  assert (Hfresh_len : length fresh = Z.to_nat size).
  { subst fresh. unfold fresh_buffer. now rewrite length_map, length_seq. }
  erewrite (kbind_through_buffer object_id _
              {| obj_data := fresh; obj_sealed := false |}
              (hdr ++ drop (length hdr) fresh) (Zlen hdr)).
  2:{ simpl. apply lookup_insert_eq. }
  2:{ simpl. rewrite <- (take_drop (length hdr) fresh) at 1.
      apply TensorWrite_writes_header; [exact Hhdr|].
      rewrite length_take. unfold Zlen in *. lia. }
  cbn [result final trace]. split; [reflexivity|].
  exists (drop (length hdr) fresh). split.
  - rewrite length_drop, Hfresh_len. unfold size, Zlen in *. lia.
  - simpl. apply lookup_insert_eq.
Qed.
End RoundTrip.

Lemma wrapped_callback_run object_id (data : list byte) (w : World) :
  objects (client_ w) !! object_id = Some {| obj_data := data; obj_sealed := false |} ->
  result (TensorToPlasmaOp.wrapped_callback object_id w) = Val tt /\
  final (TensorToPlasmaOp.wrapped_callback object_id w) =
    set_object w object_id {| obj_data := data; obj_sealed := true |}.
Proof.
  intros Hobj. unfold TensorToPlasmaOp.wrapped_callback.
  rewrite kbind_emit.
  rewrite (kbind_with_client _ (client_ (set_object w object_id
                                          {| obj_data := data; obj_sealed := true |})))
    by (unfold Seal; rewrite Hobj; reflexivity).
  rewrite kbind_emit. split; reflexivity.
Qed.

(** A host Get of a sealed object whose size is a multiple of
    [sizeof(float)] returns the object's bytes, all of them. *)
Lemma get_run context w plasma_object_id other_inputs object_id (data : list byte) :
  inputs context = plasma_object_id :: other_inputs ->
  names_object plasma_object_id object_id ->
  Get object_id (client_ w) = Some data ->
  Zlen data < 2 ^ 63 ->
  Zlen data mod sizeof_float = 0 ->
  allocate_output_status context = None ->
  result (PlasmaToTensorOp.ComputeAsync CPUDevice context w) = Val tt /\
  output_tensor (final (PlasmaToTensorOp.ComputeAsync CPUDevice context w)) = Some data.
Proof.
  intros Hinputs Hid Hget Hsize Hdiv Halloc.
  pose proof (Zlen_nonneg data) as Hnn.
  unfold PlasmaToTensorOp.ComputeAsync. rewrite Hinputs.
  rewrite (kbind_decode_id _ object_id) by assumption.
  rewrite kbind_emit, (kbind_client_Get _ data) by assumption.
  rewrite to_size_t_small by lia.
  rewrite to_int64_small.
  2:{ unfold sizeof_float.
      pose proof (Z.div_pos (Zlen data) 4 ltac:(lia) ltac:(lia)).
      assert (Zlen data / 4 < 2 ^ 63) by (apply Z.div_lt_upper_bound; lia). lia. }
  cbn [result final].
  set (shape := [Zlen data / sizeof_float]).
  set (out := map (allocated_memory context)
                (seq 0 (Z.to_nat (sizeof_float * nth 0 shape 0)))).
  assert (Hres : result (PlasmaToTensorOp.allocate_output context shape w) = Val tt)
    by (unfold PlasmaToTensorOp.allocate_output; rewrite Halloc; reflexivity).
  assert (Hfin : final (PlasmaToTensorOp.allocate_output context shape w) =
                 {| client_ := client_ w; d2h_stream := d2h_stream w;
                    h2d_stream := h2d_stream w; output_tensor := Some out |})
    by (unfold PlasmaToTensorOp.allocate_output; rewrite Halloc; reflexivity).
  match goal with
  | |- context [kbind (PlasmaToTensorOp.allocate_output context shape) ?k w] =>
      destruct (kbind_final_result _ k w tt Hres) as [-> ->]
  end.
  rewrite Hfin.
  assert (Hout : length out = length data).
  { subst out shape. rewrite length_map, length_seq. cbn [nth].
    rewrite <- (Z_div_exact_full_2 (Zlen data) sizeof_float ltac:(discriminate) Hdiv).
    apply Zlen_to_nat. }
  pose proof (memcpy_middle [] out [] data Hout) as Hcopy.
  rewrite !app_nil_r in Hcopy. simpl app in Hcopy.
  change (Zlen (@nil byte)) with 0 in Hcopy.
  unfold kbind at 1 2, PlasmaToTensorOp.copy_to_output. cbn [output_tensor].
  rewrite read_bytes_all. cbn [obind]. rewrite Hcopy.
  split; reflexivity.
Qed.

Lemma sum_bytes_aligned tensors :
  Forall size_checks tensors -> sum_bytes tensors mod sizeof_float = 0.
Proof.
  induction 1 as [|t rest Ht _ IH]; simpl; [reflexivity|].
  rewrite Z.add_mod by discriminate. now rewrite (size_checks_aligned t Ht), IH.
Qed.

(** C1, as the code has it: Put followed by Get on the host, for float
    tensors that pass the checks, under a fresh id and with room in the
    store, with no wrap-around and a header whose size is a multiple of
    [sizeof(float)].  Both calls succeed, and Get returns a tensor that holds
    the serialized header followed by the bytes of the inputs in input
    order: the concatenation the claim promises, with the header in front
    of it. *)
Theorem put_then_get `{WireFormat} (put_context get_context : OpKernelContext) (w : World)
    (input0 : Tensor) (others : list Tensor) (plasma_object_id : Tensor)
    (other_inputs : list Tensor) (object_id : ObjectID) (hdr : list byte) :
  let tensors := input0 :: others in
  inputs put_context = tensors ++ [plasma_object_id] ->
  Forall (fun t => dtype t = DT_FLOAT) tensors ->
  Forall size_checks tensors ->
  Forall tensor_wf tensors ->
  names_object plasma_object_id object_id ->
  header_bytes float32 [sum_bytes tensors / sizeof_float] = Ok hdr ->
  Zlen hdr mod sizeof_float = 0 ->
  Zlen hdr + sum_bytes tensors < 2 ^ 63 ->
  objects (client_ w) !! object_id = None ->
  Zlen hdr + sum_bytes tensors <= available (client_ w) ->
  inputs get_context = plasma_object_id :: other_inputs ->
  allocate_output_status get_context = None ->
  let put := TensorToPlasmaOp.ComputeAsync CPUDevice put_context w in
  let get := PlasmaToTensorOp.ComputeAsync CPUDevice get_context (final put) in
  result put = Val tt /\
  result get = Val tt /\
  output_tensor (final get) = Some (hdr ++ concat (map tensor_buf tensors)).
Proof.
  intros tensors Hinputs Hfloat Hchecks Hwf Hid Hhdr Haligned Hfit Hfresh Hroom
    Hget_inputs Halloc put get.
  pose proof (sum_bytes_nonneg _ Hchecks) as Hsum.
  pose proof (Zlen_nonneg hdr) as Hhdr_nn.
  destruct (stage_run put_context w input0 others plasma_object_id object_id hdr
              Hinputs Hfloat Hchecks Hid Hhdr Hfit Hfresh Hroom)
    as (Hstage & region & Hregion & Hobj).
  fold tensors in Hstage, Hregion, Hobj.
  assert (Htake : take (Z.to_nat (Zlen (inputs put_context) - 1)) (inputs put_context) =
                  tensors).
  { rewrite Hinputs.
    replace (Z.to_nat _) with (length tensors)
      by (unfold Zlen; rewrite length_app; simpl; lia).
    apply take_app_length. }
  set (w1 := final (TensorToPlasmaOp.stage put_context w)) in *.
  set (payload := concat (map tensor_buf tensors)).
  rewrite <- (app_nil_r region) in Hobj.
  destruct (memcpy_loop_run object_id (Zlen hdr) (0 :: running_totals 0 tensors)
              false [] tensors 0%nat w1 hdr region Hobj Hfloat)
    as [Hloop Hloop_final].
  { apply offsets_steps_by; try assumption. lia. }
  { simpl. lia. }
  { rewrite Hregion. unfold payload. rewrite (sum_bytes_concat _ Hwf).
    apply Zlen_to_nat. }
  fold payload in Hloop_final. rewrite app_nil_r in Hloop_final.
  set (w2 := set_object w1 object_id {| obj_data := hdr ++ payload; obj_sealed := false |})
    in *.
  destruct (wrapped_callback_run object_id (hdr ++ payload) w2) as [Hseal Hseal_final];
    [apply set_object_lookup|].
  assert (Hput : result put = Val tt /\
                 final put = set_object w2 object_id
                               {| obj_data := hdr ++ payload; obj_sealed := true |}).
  { subst put. unfold TensorToPlasmaOp.ComputeAsync.
    destruct (kbind_final_result (TensorToPlasmaOp.stage put_context)
                (fun '(object_id, offset, offsets) =>
                   TensorToPlasmaOp.transfer CPUDevice put_context object_id offset offsets)
                w _ Hstage) as [-> ->].
    unfold TensorToPlasmaOp.transfer. rewrite Htake. fold w1.
    destruct (kbind_final_result _
                (fun _ => TensorToPlasmaOp.wrapped_callback object_id) w1 tt Hloop)
      as [-> ->].
    rewrite Hloop_final. split; assumption. }
  destruct Hput as [Hput Hput_final]. split; [exact Hput|].
  subst get. rewrite Hput_final.
  apply (get_run get_context _ plasma_object_id other_inputs object_id (hdr ++ payload));
    try assumption.
  - unfold Get. now rewrite set_object_lookup.
  - rewrite Zlen_app. unfold payload. rewrite <- (sum_bytes_concat _ Hwf). lia.
  - rewrite Zlen_app. unfold payload. rewrite <- (sum_bytes_concat _ Hwf).
    rewrite Z.add_mod by discriminate.
    now rewrite Haligned, (sum_bytes_aligned _ Hchecks).
Qed.

Lemma put_then_get_witness :
  let a := float_tensor [x0a; x0b; x0c; x0d] in
  let b := float_tensor [x11; x12; x13; x14; x15; x16; x17; x18] in
  let put := @TensorToPlasmaOp.ComputeAsync sample_format CPUDevice
               (sample_context [a; b; string_tensor [sample_id]]) empty_world in
  let get := PlasmaToTensorOp.ComputeAsync CPUDevice
               (sample_context [string_tensor [sample_id]]) (final put) in
  result put = Val tt /\
  result get = Val tt /\
  output_tensor (final get) =
    Some ([x01; x00; x00; x00; x0b; x00; x00; x00] ++ concat (map tensor_buf [a; b])).
Proof.
  intros a b.
  apply (@put_then_get sample_format
           (sample_context [a; b; string_tensor [sample_id]])
           (sample_context [string_tensor [sample_id]]) empty_world
           a [b] (string_tensor [sample_id]) [] sample_id
           [x01; x00; x00; x00; x0b; x00; x00; x00]).
  - reflexivity.
  - repeat constructor.
  - repeat constructor.
  - repeat constructor; discriminate.
  - exact sample_id_names.
  - reflexivity.
  - reflexivity.
  - reflexivity.
  - reflexivity.
  - vm_compute. discriminate.
  - reflexivity.
  - reflexivity.
Defined.

(** * Further properties *)

(** ** Reading a result back through a sequence of steps *)

Lemma kbind_val_inv {A B} (m : K A) (k : A -> K B) (w : World) (b : B) :
  result (kbind m k w) = Val b ->
  exists a, result (m w) = Val a /\ result (k a (final (m w))) = Val b.
Proof.
  unfold kbind. destruct (result (m w)) as [a|e]; cbn [result]; [|discriminate].
  intros Hk. now exists a.
Qed.

Lemma kbind_run {A B} (m : K A) (k : A -> K B) (w : World) (a : A) :
  result (m w) = Val a ->
  kbind m k w =
  {| trace := trace (m w) ++ trace (k a (final (m w)));
     final := final (k a (final (m w)));
     result := result (k a (final (m w))) |}.
Proof. intros Hm. unfold kbind. now rewrite Hm. Qed.

Lemma kbind_stops {A B} (m : K A) (k : A -> K B) (w : World) (e : Exit) :
  result (m w) = Stop e ->
  kbind m k w = {| trace := trace (m w); final := final (m w); result := Stop e |}.
Proof. intros Hm. unfold kbind. now rewrite Hm. Qed.

(** ** Put: the size checks *)

Lemma offsets_loop_first_failure (good : list Tensor) (t : Tensor) (rest : list Tensor) :
  forall offsets total_bytes,
    Forall size_checks good ->
    ~ size_checks t ->
    TensorToPlasmaOp.offsets_loop (good ++ t :: rest) offsets total_bytes =
    Died (CheckFailure
            (if TotalBytes t =? to_size_t (NumElements t * sizeof_float)
             then "CHECK_GT(s, 0)"
             else "CHECK_EQ(s, context->input(i).NumElements() * sizeof(float))")).
Proof.
  induction good as [|g good IH]; intros offsets total_bytes Hgood Hbad; simpl.
  - destruct (TotalBytes t =? to_size_t (NumElements t * sizeof_float)) eqn:Heq;
      simpl; [|reflexivity].
    destruct (0 <? TotalBytes t) eqn:Hpos; simpl; [|reflexivity].
    destruct Hbad. split; [now apply Z.eqb_eq | now apply Z.ltb_lt].
  - inversion Hgood as [|? ? [Heq Hpos] Hrest]; subst.
    rewrite <- Heq, Z.eqb_refl. simpl.
    replace (0 <? TotalBytes g) with true by (symmetry; now apply Z.ltb_lt).
    simpl. now apply IH.
Qed.

(** X1: a Put with a tensor that fails a size check of the offsets loop (its
    byte size is not its element count times [sizeof(float)] modulo 2^64, or
    it has no bytes at all, as an empty tensor has) ends the process at the
    first such tensor: no call is made, the state is left as it was, and the
    check that fails is [CHECK_EQ] when the size is not the product and
    [CHECK_GT] otherwise. *)
Theorem put_size_check_aborts `{WireFormat} (device : Device) (context : OpKernelContext)
    (w : World) (good : list Tensor) (t : Tensor) (rest : list Tensor)
    (plasma_object_id : Tensor) :
  inputs context = (good ++ t :: rest) ++ [plasma_object_id] ->
  Forall size_checks good ->
  ~ size_checks t ->
  TensorToPlasmaOp.ComputeAsync device context w =
  {| trace := []; final := w;
     result := Stop (Aborted (CheckFailure
                 (if TotalBytes t =? to_size_t (NumElements t * sizeof_float)
                  then "CHECK_GT(s, 0)"
                  else "CHECK_EQ(s, context->input(i).NumElements() * sizeof(float))"))) |}.
Proof.
  intros Hinputs Hgood Hbad.
  assert (Harity : 2 <= Zlen (inputs context)).
  { rewrite Hinputs. unfold Zlen. rewrite !length_app. simpl. lia. }
  assert (Htake : take (Z.to_nat (Zlen (inputs context) - 1)) (inputs context) =
                  good ++ t :: rest).
  { rewrite Hinputs.
    replace (Z.to_nat _) with (length (good ++ t :: rest))
      by (unfold Zlen; rewrite !length_app; simpl; lia).
    apply take_app_length. }
  assert (Hstage : TensorToPlasmaOp.stage context w =
                   {| trace := []; final := w;
                      result := Stop (Aborted (CheckFailure
                        (if TotalBytes t =? to_size_t (NumElements t * sizeof_float)
                         then "CHECK_GT(s, 0)"
                         else "CHECK_EQ(s, context->input(i).NumElements() * sizeof(float))"))) |}).
  { unfold TensorToPlasmaOp.stage. rewrite kbind_OP_REQUIRES_ASYNC.
    replace (2 <=? Zlen (inputs context)) with true by (symmetry; now apply Z.leb_le).
    rewrite Htake, kbind_checked.
    now rewrite (offsets_loop_first_failure good t rest [0] 0 Hgood Hbad). }
  unfold TensorToPlasmaOp.ComputeAsync, kbind. now rewrite Hstage.
Qed.

(** A Put of an empty tensor after a tensor of four bytes. *)
Lemma put_size_check_aborts_witness :
  @TensorToPlasmaOp.ComputeAsync sample_format CPUDevice
    (sample_context [float_tensor [x01; x02; x03; x04]; float_tensor [];
                     string_tensor [sample_id]]) empty_world =
  {| trace := []; final := empty_world;
     result := Stop (Aborted (CheckFailure "CHECK_GT(s, 0)")) |}.
Proof.
  apply (@put_size_check_aborts sample_format CPUDevice
           (sample_context [float_tensor [x01; x02; x03; x04]; float_tensor [];
                            string_tensor [sample_id]])
           empty_world [float_tensor [x01; x02; x03; x04]] (float_tensor []) []
           (string_tensor [sample_id])).
  - reflexivity.
  - repeat constructor.
  - intros [_ Hpos]. vm_compute in Hpos. discriminate.
Defined.

(** ** Put up to the header write, step by step *)

Lemma kbind_with_client_cases {B} (f : PlasmaClient -> Outcome PlasmaClient)
    (k : unit -> K B) (w : World) :
  kbind (with_client f) k w =
  match f (client_ w) with
  | Ok c' => k tt {| client_ := c'; d2h_stream := d2h_stream w; h2d_stream := h2d_stream w;
                     output_tensor := output_tensor w |}
  | Error c => stop (Aborted (ArrowCheckFailure c)) w
  | Undefined => stop UndefinedBehavior w
  end.
Proof. unfold kbind, with_client. destruct (f (client_ w)); reflexivity. Qed.

Lemma kbind_through_buffer_cases {A B} object_id (f : list byte -> Outcome (list byte * A))
    (k : A -> K B) (w : World) :
  kbind (through_buffer object_id f) k w =
  match objects (client_ w) !! object_id with
  | None => stop UndefinedBehavior w
  | Some o =>
      match f (obj_data o) with
      | Ok (data', a) =>
          k a (set_object w object_id {| obj_data := data'; obj_sealed := obj_sealed o |})
      | Error c => stop (Aborted (ArrowCheckFailure c)) w
      | Undefined => stop UndefinedBehavior w
      end
  end.
Proof.
  unfold kbind, through_buffer.
  destruct (objects (client_ w) !! object_id) as [o|]; [|reflexivity].
  destruct (f (obj_data o)) as [[data' a]| |]; reflexivity.
Qed.

(** [Create] succeeds exactly under a fresh id and with room in the store. *)
Lemma Create_Ok object_id data_size c c' :
  Create object_id data_size c = Ok c' ->
  objects c !! object_id = None /\
  0 <= data_size <= available c /\
  c' = {| objects := <[object_id := {| obj_data := fresh_buffer c data_size;
                                        obj_sealed := false |}]> (objects c);
          available := available c - data_size;
          uninitialized := uninitialized c |}.
Proof.
  unfold Create. destruct (objects c !! object_id); [discriminate|].
  destruct (data_size <? 0) eqn:Hneg; simpl; [discriminate|].
  destruct (available c <? data_size) eqn:Hroom; [discriminate|].
  intros [= <-]. apply Z.ltb_ge in Hneg, Hroom. repeat split; lia.
Qed.

(** A failed [Create] is one of the two failures of the store. *)
Lemma Create_Error object_id data_size c code :
  Create object_id data_size c = Error code ->
  (code = PlasmaObjectExists /\ objects c !! object_id <> None) \/
  (code = PlasmaStoreFull /\ objects c !! object_id = None /\
   (data_size < 0 \/ available c < data_size)).
Proof.
  unfold Create. destruct (objects c !! object_id) as [o|].
  - intros [= <-]. left. split; [reflexivity | discriminate].
  - destruct (data_size <? 0) eqn:Hneg; simpl.
    + intros [= <-]. right. apply Z.ltb_lt in Hneg. repeat split. now left.
    + destruct (available c <? data_size) eqn:Hroom; [|discriminate].
      intros [= <-]. right. apply Z.ltb_lt in Hroom. repeat split. now right.
Qed.

Section StageAnatomy.
Context `{WireFormat}.
Import TensorToPlasmaOp.

Lemma stage_val_inv context w object_id offset offsets :
  result (stage context w) = Val (object_id, offset, offsets) ->
  exists input0 others plasma_object_id total_bytes arrow_dtype header_size data',
    let shape := [to_int64 (total_bytes / sizeof_float)] in
    let data_size := to_int64 (header_size + to_int64 total_bytes) in
    inputs context = (input0 :: others) ++ [plasma_object_id] /\
    offsets_loop (input0 :: others) [0] 0 = Passed (offsets, total_bytes) /\
    dtype_loop (dtype input0) others = Passed tt /\
    names_object plasma_object_id object_id /\
    tf_dtype_to_arrow (dtype input0) = Passed arrow_dtype /\
    TensorFlowTensorGetHeaderSize arrow_dtype shape = Ok header_size /\
    objects (client_ w) !! object_id = None /\
    0 <= data_size <= available (client_ w) /\
    TensorFlowTensorWrite arrow_dtype shape (fresh_buffer (client_ w) data_size) =
      Ok (data', offset) /\
    trace (stage context w) =
      [CallGetHeaderSize arrow_dtype shape; CallCreate object_id data_size;
       CallTensorWrite arrow_dtype shape] /\
    final (stage context w) =
      {| client_ :=
           {| objects := <[object_id := {| obj_data := data'; obj_sealed := false |}]>
                           (objects (client_ w));
              available := available (client_ w) - data_size;
              uninitialized := uninitialized (client_ w) |};
         d2h_stream := d2h_stream w; h2d_stream := h2d_stream w;
         output_tensor := output_tensor w |}.
Proof.
  unfold stage. rewrite kbind_OP_REQUIRES_ASYNC.
  destruct (2 <=? Zlen (inputs context)) eqn:Harity; [|discriminate].
  apply Z.leb_le in Harity.
  destruct (inputs_split _ Harity) as (input0 & others & id & Hsplit & Htake & Hlast).
  rewrite Htake, Hlast, kbind_checked.
  destruct (offsets_loop (input0 :: others) [0] 0) as [[offs total_bytes]|f] eqn:Hloop;
    [|discriminate].
  rewrite kbind_checked.
  destruct (dtype_loop (dtype input0) others) as [[]|f] eqn:Hdtypes; [|discriminate].
  rewrite kbind_CHECK.
  destruct (NumElements id =? 1) eqn:Hone; [|discriminate].
  rewrite kbind_checked. unfold flat_string.
  destruct (decide (dtype id = DT_STRING)) as [Hstring|]; [|discriminate].
  rewrite kbind_defined.
  destruct (string_elems id) as [|s strs] eqn:Hstrs; [discriminate|].
  destruct (from_binary s) as [oid| |] eqn:Hid; try discriminate.
  rewrite kbind_checked.
  destruct (tf_dtype_to_arrow (dtype input0)) as [arrow_dtype|f] eqn:Harrow; [|discriminate].
  rewrite kbind_emit, kbind_ARROW_CHECK_OK.
  destruct (TensorFlowTensorGetHeaderSize arrow_dtype _) as [header_size| |] eqn:Hsize;
    try discriminate.
  rewrite kbind_emit, kbind_with_client_cases.
  set (shape := [to_int64 (total_bytes / sizeof_float)]) in *.
  set (data_size := to_int64 (header_size + to_int64 total_bytes)).
  destruct (Create oid data_size (client_ w)) as [c'| |] eqn:Hcreate; try discriminate.
  apply Create_Ok in Hcreate as (Hfresh & Hroom & ->).
  rewrite kbind_emit, kbind_through_buffer_cases. cbn [client_ objects].
  rewrite lookup_insert_eq. cbn [obj_data obj_sealed].
  destruct (TensorFlowTensorWrite arrow_dtype shape (fresh_buffer (client_ w) data_size))
    as [[data' off]| |] eqn:Hwrite; try discriminate.
  cbn [result trace final kret]. intros [= <- <- <-].
  exists input0, others, id, total_bytes, arrow_dtype, header_size, data'.
  cbv zeta. fold shape data_size.
  do 3 (split; [assumption|]).
  split.
  { split; [now apply Z.eqb_eq|]. split; [assumption|]. now exists s, strs. }
  do 5 (split; [first [assumption | reflexivity]|]).
  unfold set_object. cbn [client_ objects available uninitialized d2h_stream h2d_stream
                             output_tensor].
  now rewrite insert_insert_eq.
Qed.

(** Whatever way it ends, Put up to the header write leaves the state as it
    was or adds one object, under an id that was free, and that object is
    not sealed. *)
Lemma stage_final context w :
  final (stage context w) = w \/
  exists object_id data,
    objects (client_ w) !! object_id = None /\
    objects (client_ (final (stage context w))) =
      <[object_id := {| obj_data := data; obj_sealed := false |}]> (objects (client_ w)) /\
    d2h_stream (final (stage context w)) = d2h_stream w /\
    h2d_stream (final (stage context w)) = h2d_stream w /\
    output_tensor (final (stage context w)) = output_tensor w.
Proof.
  unfold stage. rewrite kbind_OP_REQUIRES_ASYNC.
  destruct (2 <=? Zlen (inputs context)) eqn:Harity; [|now left].
  apply Z.leb_le in Harity.
  destruct (inputs_split _ Harity) as (input0 & others & id & Hsplit & Htake & Hlast).
  rewrite Htake, Hlast, kbind_checked.
  destruct (offsets_loop (input0 :: others) [0] 0) as [[offs total_bytes]|f]; [|now left].
  rewrite kbind_checked.
  destruct (dtype_loop (dtype input0) others) as [[]|f]; [|now left].
  rewrite kbind_CHECK.
  destruct (NumElements id =? 1); [|now left].
  rewrite kbind_checked.
  destruct (flat_string id) as [strs|f]; [|now left].
  rewrite kbind_defined.
  destruct (match strs with [] => _ | s :: _ => _ end) as [oid| |]; try now left.
  rewrite kbind_checked.
  destruct (tf_dtype_to_arrow (dtype input0)) as [arrow_dtype|f]; [|now left].
  rewrite kbind_emit, kbind_ARROW_CHECK_OK.
  destruct (TensorFlowTensorGetHeaderSize arrow_dtype _) as [header_size| |]; try now left.
  rewrite kbind_emit, kbind_with_client_cases.
  set (shape := [to_int64 (total_bytes / sizeof_float)]) in *.
  set (data_size := to_int64 (header_size + to_int64 total_bytes)).
  destruct (Create oid data_size (client_ w)) as [c'| |] eqn:Hcreate; try now left.
  apply Create_Ok in Hcreate as (Hfresh & Hroom & ->).
  right. rewrite kbind_emit, kbind_through_buffer_cases. cbn [client_ objects].
  rewrite lookup_insert_eq. cbn [obj_data obj_sealed].
  destruct (TensorFlowTensorWrite arrow_dtype shape (fresh_buffer (client_ w) data_size))
    as [[data' off]| |]; cbn [final kret stop].
  - exists oid, data'. split; [assumption|]. unfold set_object.
    cbn [client_ objects d2h_stream h2d_stream output_tensor].
    now rewrite insert_insert_eq.
  - exists oid, (fresh_buffer (client_ w) data_size). now split.
  - exists oid, (fresh_buffer (client_ w) data_size). now split.
Qed.
End StageAnatomy.

(** ** What a step may change in the store *)

Section Respects.
Variable R : World -> World -> Prop.
Hypothesis R_trans : forall w1 w2 w3, R w1 w2 -> R w2 w3 -> R w1 w3.
Hypothesis R_client : forall w w', client_ w' = client_ w -> R w w'.

Lemma respects_kbind {A B} (m : K A) (k : A -> K B) :
  respects R m -> (forall a, respects R (k a)) -> respects R (kbind m k).
Proof.
  intros Hm Hk w. unfold kbind. specialize (Hm w).
  destruct (result (m w)) as [a|e]; cbn [final]; [|exact Hm].
  exact (R_trans _ _ _ Hm (Hk a (final (m w)))).
Qed.

Lemma respects_same_client {A} (m : K A) : respects same_client m -> respects R m.
Proof. intros Hm w. apply R_client, Hm. Qed.

Lemma respects_pure {A} (m : K A) : (forall w, final (m w) = w) -> respects R m.
Proof. intros Hm w. apply R_client. now rewrite Hm. Qed.

Lemma respects_OP_REQUIRES_ASYNC cond status : respects R (OP_REQUIRES_ASYNC cond status).
Proof. apply respects_pure. intros w. now destruct cond. Qed.

Lemma respects_enqueue_d2h op : respects R (enqueue_d2h op).
Proof. intros w. apply R_client. unfold enqueue_d2h. now destruct (d2h_stream w). Qed.

Lemma respects_enqueue_h2d op : respects R (enqueue_h2d op).
Proof. intros w. apply R_client. unfold enqueue_h2d. now destruct (h2d_stream w). Qed.

Lemma respects_init_d2h_stream context :
  respects R (TensorToPlasmaOp.init_d2h_stream context).
Proof.
  intros w. apply R_client. unfold TensorToPlasmaOp.init_d2h_stream.
  destruct (d2h_stream w); [reflexivity|]. now destruct (Stream_Init_ok context).
Qed.

Lemma respects_init_h2d_stream context :
  respects R (PlasmaToTensorOp.init_h2d_stream context).
Proof.
  intros w. apply R_client. unfold PlasmaToTensorOp.init_h2d_stream.
  destruct (h2d_stream w); [reflexivity|]. now destruct (Stream_Init_ok context).
Qed.

Lemma respects_copy_to_output src n : respects R (PlasmaToTensorOp.copy_to_output src n).
Proof.
  intros w. apply R_client. unfold PlasmaToTensorOp.copy_to_output.
  destruct (output_tensor w) as [out|]; [|reflexivity].
  unfold kbind. now destruct (let* bytes := read_bytes src n in memcpy out 0 bytes)%outcome.
Qed.

Lemma respects_allocate_output context shape :
  respects R (PlasmaToTensorOp.allocate_output context shape).
Proof.
  intros w. apply R_client. unfold PlasmaToTensorOp.allocate_output.
  now destruct (allocate_output_status context).
Qed.

Lemma respects_copy_to_buffer object_id dst src n :
  (forall f : list byte -> Outcome (list byte * unit),
     respects R (through_buffer object_id f)) ->
  respects R (copy_to_buffer object_id dst src n).
Proof.
  intros Hbuf. apply respects_kbind; [apply Hbuf|]. intros _. now apply respects_pure.
Qed.

Lemma respects_memcpy_loop object_id offset offsets tensors :
  (forall f : list byte -> Outcome (list byte * unit),
     respects R (through_buffer object_id f)) ->
  forall i, respects R (TensorToPlasmaOp.memcpy_loop object_id offset offsets i tensors).
Proof.
  intros Hbuf. induction tensors as [|t rest IH]; intros i; simpl.
  - now apply respects_pure.
  - apply respects_kbind; [apply respects_pure; intros w; now destruct (flat _ _)|].
    intros src. apply respects_kbind; [now apply respects_copy_to_buffer|].
    intros _. apply IH.
Qed.

Lemma respects_ThenMemcpy_loop context object_id offset offsets tensors :
  forall i,
    respects R (TensorToPlasmaOp.ThenMemcpy_loop context object_id offset offsets i tensors).
Proof.
  induction tensors as [|t rest IH]; intros i; simpl.
  - now apply respects_pure.
  - apply respects_kbind; [apply respects_pure; intros w; now destruct (flat _ _)|].
    intros src. apply respects_kbind.
    { destruct (ThenMemcpy_ok context i);
        [apply respects_enqueue_d2h | now apply respects_pure]. }
    intros _. apply respects_kbind; [apply respects_OP_REQUIRES_ASYNC|].
    intros _. apply IH.
Qed.

(** The device half of Put only enqueues. *)
Lemma respects_device_transfer context object_id offset offsets :
  respects R (TensorToPlasmaOp.transfer GPUDevice context object_id offset offsets).
Proof.
  unfold TensorToPlasmaOp.transfer.
  apply respects_kbind; [apply respects_OP_REQUIRES_ASYNC|]. intros _.
  apply respects_kbind; [apply respects_pure; intros w; now destruct (HostMemoryRegister_ok _)|].
  intros _. apply respects_kbind; [apply respects_init_d2h_stream|]. intros _.
  apply respects_kbind; [apply respects_pure; intros w; now destruct (ThenWaitFor_ok _)|].
  intros _. apply respects_kbind; [apply respects_enqueue_d2h|]. intros _.
  apply respects_kbind; [apply respects_ThenMemcpy_loop|]. intros _.
  apply respects_enqueue_d2h.
Qed.

(** Get reads the store and writes the output tensor and its stream. *)
Lemma respects_Get_ComputeAsync device context :
  respects R (PlasmaToTensorOp.ComputeAsync device context).
Proof.
  unfold PlasmaToTensorOp.ComputeAsync.
  destruct (inputs context) as [|plasma_object_id rest]; [now apply respects_pure|].
  apply respects_kbind; [apply respects_pure; intros w; now destruct (_ =? _)|]. intros _.
  apply respects_kbind; [apply respects_pure; intros w; now destruct (flat_string _)|].
  intros strs.
  apply respects_kbind;
    [apply respects_pure; intros w; now destruct (match strs with [] => _ | _ => _ end)|].
  intros object_id. apply respects_kbind; [now apply respects_pure|]. intros _.
  apply respects_kbind.
  { apply respects_pure. intros w. unfold PlasmaToTensorOp.client_Get.
    now destruct (Get object_id (client_ w)). }
  intros object_buffer.
  apply respects_kbind; [apply respects_allocate_output|]. intros _.
  destruct device.
  - apply respects_kbind; [apply respects_copy_to_output|]. intros _.
    now apply respects_pure.
  - apply respects_kbind; [apply respects_OP_REQUIRES_ASYNC|]. intros _.
    apply respects_kbind; [apply respects_init_h2d_stream|]. intros _.
    apply respects_kbind.
    { destruct (ThenMemcpy_ok context 0);
        [apply respects_enqueue_h2d | now apply respects_pure]. }
    intros _. apply respects_kbind; [apply respects_OP_REQUIRES_ASYNC|]. intros _.
    apply respects_kbind; [apply respects_pure; intros w; now destruct (ThenWaitFor_ok _)|].
    intros _. apply respects_enqueue_h2d.
Qed.
End Respects.

(** ** Put: from the inputs to the store *)

Section PutRuns.
Context `{WireFormat}.
Import TensorToPlasmaOp.

(** With inputs that pass the checks and a header the serializer accepts,
    Put gets as far as [Create], which it calls with the exact size. *)
Lemma stage_to_Create context w input0 others plasma_object_id object_id arrow_dtype hdr :
  let tensors := input0 :: others in
  let shape := [sum_bytes tensors / sizeof_float] in
  let data_size := Zlen hdr + sum_bytes tensors in
  inputs context = tensors ++ [plasma_object_id] ->
  Forall (fun t => dtype t = dtype input0) others ->
  Forall size_checks tensors ->
  names_object plasma_object_id object_id ->
  tf_dtype_to_arrow (dtype input0) = Passed arrow_dtype ->
  header_bytes arrow_dtype shape = Ok hdr ->
  data_size < 2 ^ 63 ->
  stage context w =
  (let* _ := emit (CallGetHeaderSize arrow_dtype shape) in
   let* _ := emit (CallCreate object_id data_size) in
   let* _ := with_client (Create object_id data_size) in
   let* _ := emit (CallTensorWrite arrow_dtype shape) in
   let* offset := through_buffer object_id (TensorFlowTensorWrite arrow_dtype shape) in
   kret (object_id, offset, 0 :: running_totals 0 tensors)) w.
Proof.
  intros tensors shape data_size Hinputs Hsame Hchecks Hid Harrow Hhdr Hfit.
  pose proof (sum_bytes_nonneg _ Hchecks) as Hsum.
  pose proof (Zlen_nonneg hdr) as Hhdr_nn.
  assert (Harity : 2 <= Zlen (inputs context)).
  { rewrite Hinputs. unfold Zlen. rewrite length_app. simpl. lia. }
  destruct (inputs_split _ Harity) as (input0' & others' & id & Hsplit & Htake & Hlast).
  rewrite Hinputs in Hsplit. apply app_inj_tail in Hsplit as [[= <- <-] <-].
  assert (Htotal : final_total 0 tensors = sum_bytes tensors).
  { rewrite final_total_sum. subst tensors. cbv iota. rewrite Z.add_0_l.
    apply to_size_t_small. subst data_size. lia. }
  unfold stage. rewrite kbind_OP_REQUIRES_ASYNC.
  replace (2 <=? Zlen (inputs context)) with true by (symmetry; now apply Z.leb_le).
  rewrite Htake, Hlast, kbind_checked.
  fold tensors. rewrite (offsets_loop_passed tensors [0] 0 Hchecks).
  subst tensors. cbv iota beta. rewrite kbind_checked.
  replace (dtype_loop (dtype input0) others) with (Passed tt)
    by (symmetry; now apply dtype_loop_passed).
  rewrite (kbind_decode_id _ object_id) by assumption.
  rewrite Harrow, kbind_checked.
  change ([0] ++ running_totals 0 (input0 :: others))
    with (0 :: running_totals 0 (input0 :: others)).
  rewrite Htotal.
  assert (Hshape : to_int64 (sum_bytes (input0 :: others) / sizeof_float) =
                   sum_bytes (input0 :: others) / sizeof_float).
  { apply to_int64_small. unfold sizeof_float. subst data_size.
    pose proof (Z.div_pos (sum_bytes (input0 :: others)) 4 ltac:(lia) ltac:(lia)).
    assert (sum_bytes (input0 :: others) / 4 < 2 ^ 63)
      by (apply Z.div_lt_upper_bound; lia). lia. }
  rewrite Hshape. fold shape.
  rewrite kbind_emit, HeaderSize_is_header_length, Hhdr.
  cbn [obind]. rewrite kbind_ARROW_CHECK_OK.
  subst data_size.
  rewrite (to_int64_small (sum_bytes (input0 :: others))) by lia.
  rewrite (to_int64_small (Zlen hdr + _)) by lia.
  reflexivity.
Qed.

(** Under a free id and with room in the store, the object is created and
    the header written at its start. *)
Lemma stage_runs context w input0 others plasma_object_id object_id arrow_dtype hdr :
  let tensors := input0 :: others in
  let shape := [sum_bytes tensors / sizeof_float] in
  let data_size := Zlen hdr + sum_bytes tensors in
  inputs context = tensors ++ [plasma_object_id] ->
  Forall (fun t => dtype t = dtype input0) others ->
  Forall size_checks tensors ->
  names_object plasma_object_id object_id ->
  tf_dtype_to_arrow (dtype input0) = Passed arrow_dtype ->
  header_bytes arrow_dtype shape = Ok hdr ->
  data_size < 2 ^ 63 ->
  objects (client_ w) !! object_id = None ->
  data_size <= available (client_ w) ->
  stage context w =
  {| trace := [CallGetHeaderSize arrow_dtype shape; CallCreate object_id data_size;
               CallTensorWrite arrow_dtype shape];
     final := with_object w object_id
                {| obj_data := hdr ++ drop (length hdr) (fresh_buffer (client_ w) data_size);
                   obj_sealed := false |} data_size;
     result := Val (object_id, Zlen hdr, 0 :: running_totals 0 tensors) |}.
Proof.
  intros tensors shape data_size Hinputs Hsame Hchecks Hid Harrow Hhdr Hfit Hfresh Hroom.
  pose proof (sum_bytes_nonneg _ Hchecks) as Hsum.
  pose proof (Zlen_nonneg hdr) as Hhdr_nn.
  rewrite (stage_to_Create context w input0 others plasma_object_id object_id arrow_dtype hdr)
    by assumption.
  fold tensors shape data_size.
  rewrite !kbind_emit.
  set (fresh := fresh_buffer (client_ w) data_size).
  assert (Hfresh_len : length fresh = Z.to_nat data_size).
  { subst fresh. unfold fresh_buffer. now rewrite length_map, length_seq. }
  rewrite (kbind_with_client _ (client_ (with_object w object_id
                                           {| obj_data := fresh; obj_sealed := false |}
                                           data_size))).
  2:{ unfold Create. rewrite Hfresh.
      replace ((data_size <? 0) || (available (client_ w) <? data_size)) with false;
        [reflexivity|].
      symmetry. apply orb_false_intro; apply Z.ltb_ge; subst data_size; lia. }
  rewrite kbind_emit.
  erewrite (kbind_through_buffer object_id _
              {| obj_data := fresh; obj_sealed := false |}
              (hdr ++ drop (length hdr) fresh) (Zlen hdr)).
  2:{ simpl. apply lookup_insert_eq. }
  2:{ simpl. rewrite <- (take_drop (length hdr) fresh) at 1.
      apply TensorWrite_writes_header; [exact Hhdr|].
      rewrite length_take. subst data_size. unfold Zlen in *. lia. }
  unfold set_object, with_object, kret.
  cbn [trace final result client_ objects available uninitialized d2h_stream h2d_stream
       output_tensor obj_sealed].
  now rewrite insert_insert_eq.
Qed.

(** When the store refuses [Create], the process ends with the store's
    status and the state as it was. *)
Lemma stage_refused context w input0 others plasma_object_id object_id arrow_dtype hdr code :
  let tensors := input0 :: others in
  let shape := [sum_bytes tensors / sizeof_float] in
  let data_size := Zlen hdr + sum_bytes tensors in
  inputs context = tensors ++ [plasma_object_id] ->
  Forall (fun t => dtype t = dtype input0) others ->
  Forall size_checks tensors ->
  names_object plasma_object_id object_id ->
  tf_dtype_to_arrow (dtype input0) = Passed arrow_dtype ->
  header_bytes arrow_dtype shape = Ok hdr ->
  data_size < 2 ^ 63 ->
  Create object_id data_size (client_ w) = Error code ->
  stage context w =
  {| trace := [CallGetHeaderSize arrow_dtype shape; CallCreate object_id data_size];
     final := w;
     result := Stop (Aborted (ArrowCheckFailure code)) |}.
Proof.
  intros tensors shape data_size Hinputs Hsame Hchecks Hid Harrow Hhdr Hfit Hcreate.
  rewrite (stage_to_Create context w input0 others plasma_object_id object_id arrow_dtype hdr)
    by assumption.
  fold tensors shape data_size.
  rewrite !kbind_emit, kbind_with_client_cases, Hcreate. reflexivity.
Qed.
End PutRuns.

Lemma put_tensors_split (context : OpKernelContext) (tensors : list Tensor)
    (plasma_object_id : Tensor) :
  inputs context = tensors ++ [plasma_object_id] -> put_tensors context = tensors.
Proof.
  intros Hinputs. unfold put_tensors. rewrite Hinputs.
  replace (Z.to_nat _) with (length tensors)
    by (unfold Zlen; rewrite length_app; simpl; lia).
  apply take_app_length.
Qed.

(** X2: when the store refuses [Create], because the id is taken or because
    there is no room, a Put that has passed its checks ends the process with
    the store's status right after the call: the store is left as it was,
    nothing is copied or sealed, and [done] is not called. *)
Theorem put_refused_by_store `{WireFormat} (device : Device) (context : OpKernelContext)
    (w : World) (input0 : Tensor) (others : list Tensor) (plasma_object_id : Tensor)
    (object_id : ObjectID) (arrow_dtype : ArrowType) (hdr : list byte) (code : StatusCode) :
  let tensors := input0 :: others in
  let shape := [sum_bytes tensors / sizeof_float] in
  let data_size := Zlen hdr + sum_bytes tensors in
  inputs context = tensors ++ [plasma_object_id] ->
  Forall (fun t => dtype t = dtype input0) others ->
  Forall size_checks tensors ->
  names_object plasma_object_id object_id ->
  tf_dtype_to_arrow (dtype input0) = Passed arrow_dtype ->
  header_bytes arrow_dtype shape = Ok hdr ->
  data_size < 2 ^ 63 ->
  Create object_id data_size (client_ w) = Error code ->
  TensorToPlasmaOp.ComputeAsync device context w =
    {| trace := [CallGetHeaderSize arrow_dtype shape; CallCreate object_id data_size];
       final := w;
       result := Stop (Aborted (ArrowCheckFailure code)) |} /\
  ((code = PlasmaObjectExists /\ objects (client_ w) !! object_id <> None) \/
   (code = PlasmaStoreFull /\ objects (client_ w) !! object_id = None /\
    available (client_ w) < data_size)).
Proof.
  intros tensors shape data_size Hinputs Hsame Hchecks Hid Harrow Hhdr Hfit Hcreate.
  split.
  - pose proof (stage_refused context w input0 others plasma_object_id object_id
                  arrow_dtype hdr code Hinputs Hsame Hchecks Hid Harrow Hhdr Hfit Hcreate)
      as Hstage.
    unfold TensorToPlasmaOp.ComputeAsync, kbind. now rewrite Hstage.
  - destruct (Create_Error _ _ _ _ Hcreate) as [?|(? & ? & [Hneg|Hroom])]; [now left| |].
    + pose proof (sum_bytes_nonneg _ Hchecks). pose proof (Zlen_nonneg hdr).
      subst data_size tensors. lia.
    + right. now repeat split.
Qed.

(** A Put under an id the store already holds. *)
Lemma put_refused_by_store_witness :
  let context := sample_context [float_tensor (repeat x01 4); string_tensor [sample_id]] in
  let w := sealed_world (repeat x02 12) in
  @TensorToPlasmaOp.ComputeAsync sample_format CPUDevice context w =
    {| trace := [CallGetHeaderSize float32 [1]; CallCreate sample_id 12];
       final := w;
       result := Stop (Aborted (ArrowCheckFailure PlasmaObjectExists)) |} /\
  ((PlasmaObjectExists = PlasmaObjectExists /\ objects (client_ w) !! sample_id <> None) \/
   (PlasmaObjectExists = PlasmaStoreFull /\ objects (client_ w) !! sample_id = None /\
    available (client_ w) < 12)).
Proof.
  intros context w.
  apply (@put_refused_by_store sample_format CPUDevice context w
           (float_tensor (repeat x01 4)) [] (string_tensor [sample_id]) sample_id
           float32 [x01; x00; x00; x00; x0b; x00; x00; x00] PlasmaObjectExists).
  - reflexivity.
  - constructor.
  - repeat constructor.
  - exact sample_id_names.
  - reflexivity.
  - reflexivity.
  - reflexivity.
  - reflexivity.
Defined.

(** X3: a host Put of tensors of a type other than float that passes every
    check (the type is one [tf_dtype_to_arrow] accepts and the sizes pass, as
    for int32) creates the object and writes the header, and then ends the
    process in [flat<float>()] at the first copy.  Nothing is copied, the
    object stays in the store unsealed, so a Get of it would wait, and
    [done] is not called. *)
Theorem put_non_float_leaves_unsealed `{WireFormat} (context : OpKernelContext)
    (w : World) (input0 : Tensor) (others : list Tensor) (plasma_object_id : Tensor)
    (object_id : ObjectID) (arrow_dtype : ArrowType) (hdr : list byte) :
  let tensors := input0 :: others in
  let shape := [sum_bytes tensors / sizeof_float] in
  let data_size := Zlen hdr + sum_bytes tensors in
  inputs context = tensors ++ [plasma_object_id] ->
  dtype input0 <> DT_FLOAT ->
  Forall (fun t => dtype t = dtype input0) others ->
  Forall size_checks tensors ->
  names_object plasma_object_id object_id ->
  tf_dtype_to_arrow (dtype input0) = Passed arrow_dtype ->
  header_bytes arrow_dtype shape = Ok hdr ->
  data_size < 2 ^ 63 ->
  objects (client_ w) !! object_id = None ->
  data_size <= available (client_ w) ->
  let r := TensorToPlasmaOp.ComputeAsync CPUDevice context w in
  r = {| trace := [CallGetHeaderSize arrow_dtype shape; CallCreate object_id data_size;
                   CallTensorWrite arrow_dtype shape];
         final := with_object w object_id
                    {| obj_data := hdr ++ drop (length hdr)
                                            (fresh_buffer (client_ w) data_size);
                       obj_sealed := false |} data_size;
         result := Stop (Aborted (CheckFailure "dtype() == expected_dtype")) |} /\
  Get object_id (client_ (final r)) = None.
Proof.
  intros tensors shape data_size Hinputs Hnot Hsame Hchecks Hid Harrow Hhdr Hfit Hfresh
    Hroom r.
  pose proof (stage_runs context w input0 others plasma_object_id object_id arrow_dtype hdr
                Hinputs Hsame Hchecks Hid Harrow Hhdr Hfit Hfresh Hroom) as Hstage.
  fold tensors shape data_size in Hstage.
  assert (Hr : r = {| trace := [CallGetHeaderSize arrow_dtype shape;
                                CallCreate object_id data_size;
                                CallTensorWrite arrow_dtype shape];
                      final := with_object w object_id
                                 {| obj_data := hdr ++ drop (length hdr)
                                                  (fresh_buffer (client_ w) data_size);
                                    obj_sealed := false |} data_size;
                      result := Stop (Aborted (CheckFailure "dtype() == expected_dtype")) |}).
  { subst r. unfold TensorToPlasmaOp.ComputeAsync, kbind at 1. rewrite Hstage.
    cbn [result final trace]. unfold TensorToPlasmaOp.transfer.
    change (take _ (inputs context)) with (put_tensors context).
    rewrite (put_tensors_split _ _ _ Hinputs). subst tensors.
    cbn [TensorToPlasmaOp.memcpy_loop]. unfold flat.
    destruct (decide (dtype input0 = DT_FLOAT)) as [Hfloat|_]; [now destruct Hnot|].
    reflexivity. }
  split; [exact Hr|]. rewrite Hr. unfold Get, with_object. cbn [final client_ objects].
  now rewrite lookup_insert_eq.
Qed.

(** A host Put of one int32 tensor of four bytes. *)
Lemma put_non_float_leaves_unsealed_witness :
  let context := sample_context [int32_tensor [x01; x02; x03; x04];
                                 string_tensor [sample_id]] in
  let r := @TensorToPlasmaOp.ComputeAsync sample_format CPUDevice context empty_world in
  r = {| trace := [CallGetHeaderSize int32 [1]; CallCreate sample_id 12;
                   CallTensorWrite int32 [1]];
         final := with_object empty_world sample_id
                    {| obj_data := [x01; x00; x00; x00; x07; x00; x00; x00]
                                     ++ drop 8 (fresh_buffer (client_ empty_world) 12);
                       obj_sealed := false |} 12;
         result := Stop (Aborted (CheckFailure "dtype() == expected_dtype")) |} /\
  Get sample_id (client_ (final r)) = None.
Proof.
  intros context.
  apply (@put_non_float_leaves_unsealed sample_format context empty_world
           (int32_tensor [x01; x02; x03; x04]) [] (string_tensor [sample_id]) sample_id
           int32 [x01; x00; x00; x00; x07; x00; x00; x00]).
  - reflexivity.
  - discriminate.
  - constructor.
  - repeat constructor.
  - exact sample_id_names.
  - reflexivity.
  - reflexivity.
  - reflexivity.
  - reflexivity.
  - vm_compute. discriminate.
Defined.

(** ** Put: what reaches the store *)

Lemma set_object_with_object w object_id o1 o2 data_size :
  set_object (with_object w object_id o1 data_size) object_id o2 =
  {| client_ := {| objects := <[object_id := o2]> (objects (client_ w));
                   available := available (client_ w) - data_size;
                   uninitialized := uninitialized (client_ w) |};
     d2h_stream := d2h_stream w; h2d_stream := h2d_stream w;
     output_tensor := output_tensor w |}.
Proof.
  unfold set_object, with_object.
  cbn [client_ objects available uninitialized d2h_stream h2d_stream output_tensor].
  now rewrite insert_insert_eq.
Qed.

(** X4: a host Put of float tensors that pass the checks, under a free id
    and with room in the store, succeeds and calls [done] once.  It leaves
    one new object in the store, sealed, which holds the serialized header
    followed by the bytes of the tensors in input order; the store has
    handed out exactly that many bytes, and every other object, the streams
    and the output are as they were. *)
Theorem host_put_stores_header_and_payload `{WireFormat} (context : OpKernelContext)
    (w : World) (input0 : Tensor) (others : list Tensor) (plasma_object_id : Tensor)
    (object_id : ObjectID) (hdr : list byte) :
  let tensors := input0 :: others in
  let payload := concat (map tensor_buf tensors) in
  inputs context = tensors ++ [plasma_object_id] ->
  Forall (fun t => dtype t = DT_FLOAT) tensors ->
  Forall size_checks tensors ->
  Forall tensor_wf tensors ->
  names_object plasma_object_id object_id ->
  header_bytes float32 [sum_bytes tensors / sizeof_float] = Ok hdr ->
  Zlen hdr + sum_bytes tensors < 2 ^ 63 ->
  objects (client_ w) !! object_id = None ->
  Zlen hdr + sum_bytes tensors <= available (client_ w) ->
  let r := TensorToPlasmaOp.ComputeAsync CPUDevice context w in
  result r = Val tt /\
  final r = with_object w object_id {| obj_data := hdr ++ payload; obj_sealed := true |}
              (Zlen (hdr ++ payload)) /\
  count_done (trace r) = 1%nat.
Proof.
  intros tensors payload Hinputs Hfloat Hchecks Hwf Hid Hhdr Hfit Hfresh Hroom r.
  pose proof (sum_bytes_nonneg _ Hchecks) as Hsum.
  pose proof (Zlen_nonneg hdr) as Hhdr_nn.
  set (data_size := Zlen hdr + sum_bytes tensors) in *.
  assert (Hsize : Zlen (hdr ++ payload) = data_size).
  { rewrite Zlen_app. unfold payload. now rewrite <- (sum_bytes_concat _ Hwf). }
  assert (Hsame : Forall (fun t => dtype t = dtype input0) others).
  { inversion Hfloat as [|? ? Hty Hothers]; subst. now rewrite Hty. }
  assert (Harrow : tf_dtype_to_arrow (dtype input0) = Passed float32).
  { inversion Hfloat as [|? ? Hty Hothers]; subst. now rewrite Hty. }
  pose proof (stage_runs context w input0 others plasma_object_id object_id float32 hdr
                Hinputs Hsame Hchecks Hid Harrow Hhdr Hfit Hfresh Hroom) as Hstage.
  fold tensors data_size in Hstage.
  set (fresh := fresh_buffer (client_ w) data_size) in *.
  set (region := drop (length hdr) fresh) in *.
  set (w1 := with_object w object_id {| obj_data := hdr ++ region; obj_sealed := false |}
               data_size) in *.
  assert (Hregion : length region = length payload).
  { subst region fresh. unfold fresh_buffer.
    rewrite length_drop, length_map, length_seq.
    unfold Zlen in Hsize. rewrite length_app in Hsize. lia. }
  assert (Hobj : objects (client_ w1) !! object_id =
                 Some {| obj_data := hdr ++ region ++ []; obj_sealed := false |}).
  { rewrite app_nil_r. subst w1. unfold with_object. cbn [client_ objects].
    apply lookup_insert_eq. }
  destruct (memcpy_loop_run object_id (Zlen hdr) (0 :: running_totals 0 tensors)
              false [] tensors 0%nat w1 hdr region Hobj Hfloat)
    as [Hloop Hloop_final].
  { apply offsets_steps_by; try assumption. subst data_size. lia. }
  { simpl. lia. }
  { exact Hregion. }
  fold payload in Hloop_final. rewrite app_nil_r in Hloop_final.
  subst w1. rewrite set_object_with_object in Hloop_final.
  set (w2 := final (TensorToPlasmaOp.memcpy_loop object_id (Zlen hdr)
                      (0 :: running_totals 0 tensors) 0 tensors
                      (with_object w object_id
                         {| obj_data := hdr ++ region; obj_sealed := false |} data_size)))
    in *.
  destruct (wrapped_callback_run object_id (hdr ++ payload) w2) as [Hseal Hseal_final].
  { rewrite Hloop_final. cbn [client_ objects]. apply lookup_insert_eq. }
  assert (Hrun : result r = Val tt /\
                 final r = with_object w object_id
                             {| obj_data := hdr ++ payload; obj_sealed := true |}
                             (Zlen (hdr ++ payload))).
  { subst r. unfold TensorToPlasmaOp.ComputeAsync.
    assert (Hsr : result (TensorToPlasmaOp.stage context w) =
                  Val (object_id, Zlen hdr, 0 :: running_totals 0 tensors))
      by now rewrite Hstage.
    rewrite (kbind_run _ _ w _ Hsr). cbn [result final trace].
    rewrite Hstage. cbn [final]. unfold TensorToPlasmaOp.transfer.
    change (take _ (inputs context)) with (put_tensors context).
    rewrite (put_tensors_split _ _ _ Hinputs).
    destruct (kbind_final_result _
                (fun _ => TensorToPlasmaOp.wrapped_callback object_id) _ tt Hloop)
      as [Hf Hr].
    fold w2 in Hf, Hr. rewrite Hf, Hr, Hseal, Hseal_final.
    split; [reflexivity|]. rewrite Hloop_final, Hsize.
    unfold set_object, with_object.
    cbn [client_ objects available uninitialized d2h_stream h2d_stream output_tensor].
    now rewrite insert_insert_eq. }
  destruct Hrun as [Hres Hfinal]. split; [exact Hres|]. split; [exact Hfinal|].
  pose proof (guarded_Put_ComputeAsync CPUDevice context w) as Hg.
  fold r in Hg. rewrite Hres in Hg. unfold signalled, pending in Hg.
  rewrite Hfinal in Hg. unfold with_object in Hg. cbn [d2h_stream h2d_stream] in Hg. lia.
Qed.

(** A host Put of two float tensors, of 4 and of 8 bytes. *)
Lemma host_put_stores_header_and_payload_witness :
  let a := float_tensor [x0a; x0b; x0c; x0d] in
  let b := float_tensor [x11; x12; x13; x14; x15; x16; x17; x18] in
  let hdr := [x01; x00; x00; x00; x0b; x00; x00; x00] in
  let r := @TensorToPlasmaOp.ComputeAsync sample_format CPUDevice
             (sample_context [a; b; string_tensor [sample_id]]) empty_world in
  result r = Val tt /\
  final r = with_object empty_world sample_id
              {| obj_data := hdr ++ concat (map tensor_buf [a; b]); obj_sealed := true |}
              (Zlen (hdr ++ concat (map tensor_buf [a; b]))) /\
  count_done (trace r) = 1%nat.
Proof.
  intros a b hdr.
  apply (@host_put_stores_header_and_payload sample_format
           (sample_context [a; b; string_tensor [sample_id]]) empty_world
           a [b] (string_tensor [sample_id]) sample_id hdr).
  - reflexivity.
  - repeat constructor.
  - repeat constructor.
  - repeat constructor; discriminate.
  - exact sample_id_names.
  - reflexivity.
  - reflexivity.
  - reflexivity.
  - vm_compute. discriminate.
Defined.

(** ** Put: what it leaves alone *)

Lemma same_but_trans object_id w1 w2 w3 :
  same_but object_id w1 w2 -> same_but object_id w2 w3 -> same_but object_id w1 w3.
Proof. intros H12 H23 id Hid. now rewrite (H23 id Hid), (H12 id Hid). Qed.

Lemma same_but_client object_id w w' : client_ w' = client_ w -> same_but object_id w w'.
Proof. intros Hc id _. now rewrite Hc. Qed.

Lemma same_but_through_buffer {A} object_id (f : list byte -> Outcome (list byte * A)) :
  respects (same_but object_id) (through_buffer object_id f).
Proof.
  intros w id Hid. unfold through_buffer.
  destruct (objects (client_ w) !! object_id) as [o|]; [|reflexivity].
  destruct (f (obj_data o)) as [[data' a]| |]; try reflexivity.
  cbn [final kret client_ objects]. now apply lookup_insert_ne.
Qed.

Lemma same_but_Seal object_id : respects (same_but object_id) (with_client (Seal object_id)).
Proof.
  intros w id Hid. unfold with_client, Seal.
  destruct (objects (client_ w) !! object_id) as [o|]; [|reflexivity].
  destruct (obj_sealed o); [reflexivity|].
  cbn [final kret client_ objects]. now apply lookup_insert_ne.
Qed.

Lemma same_but_wrapped_callback object_id :
  respects (same_but object_id) (TensorToPlasmaOp.wrapped_callback object_id).
Proof.
  pose proof (same_but_trans object_id) as Htrans.
  pose proof (same_but_client object_id) as Hclient.
  unfold TensorToPlasmaOp.wrapped_callback.
  apply respects_kbind; [assumption | now apply respects_pure|]. intros _.
  apply respects_kbind; [assumption | apply same_but_Seal|]. intros _.
  apply respects_kbind; [assumption | now apply respects_pure|]. intros _.
  now apply respects_pure.
Qed.

Lemma same_but_transfer device context object_id offset offsets :
  respects (same_but object_id)
    (TensorToPlasmaOp.transfer device context object_id offset offsets).
Proof.
  pose proof (same_but_trans object_id) as Htrans.
  pose proof (same_but_client object_id) as Hclient.
  destruct device; [|now apply respects_device_transfer].
  unfold TensorToPlasmaOp.transfer.
  apply respects_kbind; [assumption| |intros _; apply same_but_wrapped_callback].
  apply respects_memcpy_loop; try assumption. intros f. apply same_but_through_buffer.
Qed.

(** X5: a Put never changes or removes an object the store already holds:
    on either device and however the call ends, every object that was in the
    store before the call is there after it, with the same bytes and the
    same seal. *)
Theorem put_keeps_existing_objects `{WireFormat} (device : Device)
    (context : OpKernelContext) (w : World) (id : ObjectID) (o : PlasmaObject) :
  objects (client_ w) !! id = Some o ->
  objects (client_ (final (TensorToPlasmaOp.ComputeAsync device context w))) !! id = Some o.
Proof.
  intros Hobj. unfold TensorToPlasmaOp.ComputeAsync, kbind.
  destruct (result (TensorToPlasmaOp.stage context w)) as [[[object_id offset] offsets]|e]
    eqn:Hres; cbn [final].
  - destruct (stage_val_inv _ _ _ _ _ Hres)
      as (input0 & others & plasma_object_id & total_bytes & arrow_dtype & header_size
          & data' & _ & _ & _ & _ & _ & _ & Hfresh & _ & _ & _ & Hfinal).
    assert (Hne : id <> object_id)
      by (intros ->; discriminate (eq_trans (eq_sym Hobj) Hfresh)).
    rewrite (same_but_transfer device context object_id offset offsets _ id Hne).
    rewrite Hfinal. cbn [client_ objects]. now rewrite lookup_insert_ne.
  - destruct (stage_final context w) as [->|(object_id & data & Hfresh & -> & _)];
      [assumption|].
    assert (Hne : id <> object_id)
      by (intros ->; discriminate (eq_trans (eq_sym Hobj) Hfresh)).
    now rewrite lookup_insert_ne.
Qed.

(** A Put under another id next to a sealed object. *)
Lemma put_keeps_existing_objects_witness :
  let context := sample_context [float_tensor [x0a; x0b; x0c; x0d];
                                 string_tensor [other_id]] in
  let w := sealed_world [x01; x02; x03; x04] in
  objects (client_ (final (@TensorToPlasmaOp.ComputeAsync sample_format CPUDevice
                             context w))) !! sample_id =
  Some {| obj_data := [x01; x02; x03; x04]; obj_sealed := true |}.
Proof.
  intros context w.
  apply (@put_keeps_existing_objects sample_format CPUDevice context w sample_id).
  vm_compute. reflexivity.
Defined.

(** ** Put: when an object gets sealed *)

Lemma no_new_seal_trans w1 w2 w3 :
  no_new_seal w1 w2 -> no_new_seal w2 w3 -> no_new_seal w1 w3.
Proof.
  intros H12 H23 id o Hobj Hsealed.
  destruct (H23 id o Hobj Hsealed) as (o2 & Hobj2 & Hsealed2).
  exact (H12 id o2 Hobj2 Hsealed2).
Qed.

Lemma no_new_seal_client w w' : client_ w' = client_ w -> no_new_seal w w'.
Proof. intros Hc id o Hobj Hsealed. rewrite Hc in Hobj. now exists o. Qed.

Lemma no_new_seal_through_buffer {A} object_id (f : list byte -> Outcome (list byte * A)) :
  respects no_new_seal (through_buffer object_id f).
Proof.
  intros w. unfold through_buffer.
  destruct (objects (client_ w) !! object_id) as [o|] eqn:Hobj;
    [|now apply no_new_seal_client].
  destruct (f (obj_data o)) as [[data' a]| |]; try now apply no_new_seal_client.
  cbn [final kret]. intros id o' Hobj' Hsealed. cbn [client_ objects] in Hobj'.
  destruct (decide (id = object_id)) as [->|Hne].
  - rewrite lookup_insert_eq in Hobj'. injection Hobj' as <-. now exists o.
  - rewrite lookup_insert_ne in Hobj' by congruence. now exists o'.
Qed.

Section Seals.
Context `{WireFormat}.

Lemma no_new_seal_stage context : respects no_new_seal (TensorToPlasmaOp.stage context).
Proof.
  intros w.
  destruct (stage_final context w) as [->|(object_id & data & Hfresh & Hobjs & _)];
    [now apply no_new_seal_client|].
  intros id o Hobj Hsealed. rewrite Hobjs in Hobj.
  destruct (decide (id = object_id)) as [->|Hne].
  - rewrite lookup_insert_eq in Hobj. injection Hobj as <-. discriminate.
  - rewrite lookup_insert_ne in Hobj by congruence. now exists o.
Qed.

Lemma seals_of_respects {A} (m : K A) : respects no_new_seal m -> seals_with_status m.
Proof. intros Hm w. right. apply Hm. Qed.

Lemma seals_kbind {A B} (m : K A) (k : A -> K B) :
  seals_with_status m -> (forall a, seals_with_status (k a)) ->
  seals_with_status (kbind m k).
Proof.
  intros Hm Hk w. unfold kbind.
  destruct (result (m w)) as [a|e]; cbn [trace final]; [|apply Hm].
  destruct (Hm w) as [Hin|Hseal]; [left; apply elem_of_app; now left|].
  destruct (Hk a (final (m w))) as [Hin|Hseal']; [left; apply elem_of_app; now right|].
  right. exact (no_new_seal_trans _ _ _ Hseal Hseal').
Qed.

(** The closure seals and then sets the status to OK, or fails to seal. *)
Lemma seals_wrapped_callback object_id :
  seals_with_status (TensorToPlasmaOp.wrapped_callback object_id).
Proof.
  intros w. unfold TensorToPlasmaOp.wrapped_callback.
  rewrite kbind_emit, kbind_with_client_cases.
  destruct (Seal object_id (client_ w)) as [c'| |].
  - left. rewrite kbind_emit. cbn [trace]. apply elem_of_cons. right.
    apply elem_of_cons. now left.
  - right. now apply no_new_seal_client.
  - right. now apply no_new_seal_client.
Qed.

Lemma seals_transfer device context object_id offset offsets :
  seals_with_status (TensorToPlasmaOp.transfer device context object_id offset offsets).
Proof.
  destruct device.
  - unfold TensorToPlasmaOp.transfer.
    apply seals_kbind; [|intros _; apply seals_wrapped_callback].
    apply seals_of_respects.
    apply respects_memcpy_loop;
      [exact no_new_seal_trans | exact no_new_seal_client|].
    intros f. apply no_new_seal_through_buffer.
  - apply seals_of_respects.
    apply respects_device_transfer; [exact no_new_seal_trans | exact no_new_seal_client].
Qed.

Lemma seals_ComputeAsync device context :
  seals_with_status (TensorToPlasmaOp.ComputeAsync device context).
Proof.
  unfold TensorToPlasmaOp.ComputeAsync.
  apply seals_kbind; [apply seals_of_respects, no_new_seal_stage|].
  intros [[object_id offset] offsets]. apply seals_transfer.
Qed.
End Seals.

Lemma seals_exec_op op : seals_with_status (exec_op op).
Proof.
  destruct op; simpl.
  - apply seals_of_respects, respects_pure; [exact no_new_seal_client | reflexivity].
  - apply seals_of_respects.
    apply respects_copy_to_buffer; [exact no_new_seal_trans | exact no_new_seal_client|].
    intros f. apply no_new_seal_through_buffer.
  - apply seals_of_respects.
    apply respects_copy_to_output. exact no_new_seal_client.
  - apply seals_wrapped_callback.
  - apply seals_of_respects, respects_pure; [exact no_new_seal_client | reflexivity].
Qed.

Lemma seals_exec_all q : seals_with_status (exec_all q).
Proof.
  induction q as [|op q IH]; simpl.
  - apply seals_of_respects, respects_pure; [exact no_new_seal_client | reflexivity].
  - apply seals_kbind; [apply seals_exec_op | intros _; exact IH].
Qed.

Lemma seals_drain_d2h : seals_with_status drain_d2h.
Proof.
  intros w. unfold drain_d2h.
  destruct (d2h_stream w) as [q|]; [|right; now apply no_new_seal_client].
  revert w. change (seals_with_status (let* _ := set_d2h_stream (Some []) in exec_all q)).
  apply seals_kbind; [|intros _; apply seals_exec_all].
  apply seals_of_respects. intros w. now apply no_new_seal_client.
Qed.

Lemma seals_drain_h2d : seals_with_status drain_h2d.
Proof.
  intros w. unfold drain_h2d.
  destruct (h2d_stream w) as [q|]; [|right; now apply no_new_seal_client].
  revert w. change (seals_with_status (let* _ := set_h2d_stream (Some []) in exec_all q)).
  apply seals_kbind; [|intros _; apply seals_exec_all].
  apply seals_of_respects. intros w. now apply no_new_seal_client.
Qed.

Lemma seals_invocation (m : K unit) : seals_with_status m -> seals_with_status (invocation m).
Proof.
  intros Hm. unfold invocation.
  apply seals_kbind; [|intros _; apply seals_kbind;
                                   [apply seals_drain_d2h | intros _; apply seals_drain_h2d]].
  intros w. unfold returning. specialize (Hm w).
  destruct (result (m w)) as [a|[]]; exact Hm.
Qed.

(** X6: a Put seals nothing unless it sets the status to OK: on either
    device, with the stream work included and however the call ends, either
    the call has set the status to OK or every object that is sealed after
    it was sealed before it.  The object a failed Put created stays
    unsealed. *)
Theorem failed_put_never_seals `{WireFormat} (device : Device) (context : OpKernelContext)
    (w : World) :
  SetStatus None ∈ trace (Put device context w) \/
  no_new_seal w (final (Put device context w)).
Proof.
  unfold Put.
  destruct (seals_invocation _ (seals_ComputeAsync device context) w) as [Hin|Hseal].
  - left. exact Hin.
  - right. exact Hseal.
Qed.

(** ** Put: the element type it works for *)

Lemma memcpy_loop_float object_id offset offsets tensors : forall i w,
  result (TensorToPlasmaOp.memcpy_loop object_id offset offsets i tensors w) = Val tt ->
  Forall (fun t => dtype t = DT_FLOAT) tensors.
Proof.
  induction tensors as [|t rest IH]; intros i w Hres; [constructor|].
  simpl in Hres. apply kbind_val_inv in Hres as (src & Hflat & Hres).
  apply kbind_val_inv in Hres as ([] & _ & Hres).
  constructor; [|exact (IH _ _ Hres)].
  unfold flat in Hflat. now destruct (decide (dtype t = DT_FLOAT)).
Qed.

Lemma ThenMemcpy_loop_float context object_id offset offsets tensors : forall i w,
  result (TensorToPlasmaOp.ThenMemcpy_loop context object_id offset offsets i tensors w) =
    Val tt ->
  Forall (fun t => dtype t = DT_FLOAT) tensors.
Proof.
  induction tensors as [|t rest IH]; intros i w Hres; [constructor|].
  simpl in Hres. apply kbind_val_inv in Hres as (src & Hflat & Hres).
  apply kbind_val_inv in Hres as ([] & _ & Hres).
  apply kbind_val_inv in Hres as ([] & _ & Hres).
  constructor; [|exact (IH _ _ Hres)].
  unfold flat in Hflat. now destruct (decide (dtype t = DT_FLOAT)).
Qed.

(** X7: on either device a Put reaches its end only for float tensors: if
    [ComputeAsync] runs to its end, there is at least one tensor, every
    tensor is of type float and passes the size checks, and the last input
    names the object.  Tensors of any other type end the call before, even
    of a type [tf_dtype_to_arrow] accepts. *)
Theorem put_succeeds_only_on_float `{WireFormat} (device : Device)
    (context : OpKernelContext) (w : World) :
  result (TensorToPlasmaOp.ComputeAsync device context w) = Val tt ->
  exists input0 others plasma_object_id object_id,
    inputs context = (input0 :: others) ++ [plasma_object_id] /\
    Forall (fun t => dtype t = DT_FLOAT) (input0 :: others) /\
    Forall size_checks (input0 :: others) /\
    names_object plasma_object_id object_id.
Proof.
  intros Hres. unfold TensorToPlasmaOp.ComputeAsync in Hres.
  apply kbind_val_inv in Hres as ([[object_id offset] offsets] & Hstage & Htransfer).
  destruct (stage_val_inv _ _ _ _ _ Hstage)
    as (input0 & others & plasma_object_id & total_bytes & arrow_dtype & header_size
        & data' & Hinputs & Hloop & _ & Hid & _).
  exists input0, others, plasma_object_id, object_id.
  split; [exact Hinputs|]. split; [|split; [exact (offsets_loop_checks _ _ _ _ Hloop)|exact Hid]].
  unfold TensorToPlasmaOp.transfer in Htransfer.
  change (take _ (inputs context)) with (put_tensors context) in Htransfer.
  rewrite (put_tensors_split _ _ _ Hinputs) in Htransfer.
  destruct device.
  - apply kbind_val_inv in Htransfer as ([] & Hcopies & _).
    exact (memcpy_loop_float _ _ _ _ _ _ Hcopies).
  - do 5 (apply kbind_val_inv in Htransfer as ([] & _ & Htransfer)).
    apply kbind_val_inv in Htransfer as ([] & Hcopies & _).
    exact (ThenMemcpy_loop_float _ _ _ _ _ _ _ Hcopies).
Qed.

(** A device Put of one float tensor. *)
Lemma put_succeeds_only_on_float_witness :
  exists input0 others plasma_object_id object_id,
    inputs (sample_context [float_tensor [x0a; x0b; x0c; x0d]; string_tensor [sample_id]]) =
      (input0 :: others) ++ [plasma_object_id] /\
    Forall (fun t => dtype t = DT_FLOAT) (input0 :: others) /\
    Forall size_checks (input0 :: others) /\
    names_object plasma_object_id object_id.
Proof.
  apply (@put_succeeds_only_on_float sample_format GPUDevice
           (sample_context [float_tensor [x0a; x0b; x0c; x0d]; string_tensor [sample_id]])
           empty_world).
  vm_compute. reflexivity.
Defined.

(** ** The device path of Put: what the kernel itself does *)

Lemma quiet_kbind {A B} (m : K A) (k : A -> K B) :
  quiet m -> (forall a, quiet (k a)) -> quiet (kbind m k).
Proof.
  intros Hm Hk w b Hres.
  destruct (kbind_val_inv _ _ _ _ Hres) as (a & Hma & Hkb).
  rewrite (kbind_run _ _ _ _ Hma). cbn [trace].
  now rewrite (Hm w a Hma), (Hk a _ b Hkb).
Qed.

Lemma quiet_pure {A} (m : K A) : (forall w, trace (m w) = []) -> quiet m.
Proof. intros Hm w a _. apply Hm. Qed.

Lemma quiet_OP_REQUIRES_ASYNC cond status : quiet (OP_REQUIRES_ASYNC cond status).
Proof. intros w a. destruct cond; [reflexivity | discriminate]. Qed.

Lemma quiet_enqueue_d2h op : quiet (enqueue_d2h op).
Proof. apply quiet_pure. intros w. unfold enqueue_d2h. now destruct (d2h_stream w). Qed.

Lemma quiet_ThenMemcpy_loop context object_id offset offsets tensors : forall i,
  quiet (TensorToPlasmaOp.ThenMemcpy_loop context object_id offset offsets i tensors).
Proof.
  induction tensors as [|t rest IH]; intros i; simpl; [now apply quiet_pure|].
  apply quiet_kbind; [apply quiet_pure; intros w; now destruct (flat _ _)|]. intros src.
  apply quiet_kbind.
  { destruct (ThenMemcpy_ok context i); [apply quiet_enqueue_d2h | now apply quiet_pure]. }
  intros _. apply quiet_kbind; [apply quiet_OP_REQUIRES_ASYNC | intros _; apply IH].
Qed.

Lemma quiet_device_transfer context object_id offset offsets :
  quiet (TensorToPlasmaOp.transfer GPUDevice context object_id offset offsets).
Proof.
  unfold TensorToPlasmaOp.transfer.
  apply quiet_kbind; [apply quiet_OP_REQUIRES_ASYNC|]. intros _.
  apply quiet_kbind; [apply quiet_pure; intros w; now destruct (HostMemoryRegister_ok _)|].
  intros _. apply quiet_kbind.
  { apply quiet_pure. intros w. unfold TensorToPlasmaOp.init_d2h_stream.
    destruct (d2h_stream w); [reflexivity|]. now destruct (Stream_Init_ok context). }
  intros _.
  apply quiet_kbind; [apply quiet_pure; intros w; now destruct (ThenWaitFor_ok _)|].
  intros _. apply quiet_kbind; [apply quiet_enqueue_d2h|]. intros _.
  apply quiet_kbind; [apply quiet_ThenMemcpy_loop | intros _; apply quiet_enqueue_d2h].
Qed.

Lemma same_client_trans w1 w2 w3 :
  same_client w1 w2 -> same_client w2 w3 -> same_client w1 w3.
Proof. unfold same_client. congruence. Qed.

Lemma same_client_client w w' : client_ w' = client_ w -> same_client w w'.
Proof. intros Hc. exact Hc. Qed.

(** X8: a device Put that runs to its end has by then only asked for the
    header size, created the object and written the header: it has copied
    nothing, sealed nothing, set no status and not called [done].  The
    object is in the store unsealed, and behind whatever was on [d2h_stream]
    the kernel has put its whole program: the wait on the compute stream,
    one copy per tensor in input order, and the closure that seals and
    signals. *)
Theorem device_put_returns_before_copying `{WireFormat} (context : OpKernelContext)
    (w : World) :
  let r := TensorToPlasmaOp.ComputeAsync GPUDevice context w in
  result r = Val tt ->
  exists object_id offset offsets arrow_dtype shape data_size data,
    trace r = [CallGetHeaderSize arrow_dtype shape; CallCreate object_id data_size;
               CallTensorWrite arrow_dtype shape] /\
    objects (client_ (final r)) !! object_id =
      Some {| obj_data := data; obj_sealed := false |} /\
    queue_of (final r) =
      queue_of w ++ stream_program object_id offset offsets (put_tensors context).
Proof.
  intros r Hres. subst r. unfold TensorToPlasmaOp.ComputeAsync in *.
  destruct (kbind_val_inv _ _ _ _ Hres)
    as ([[object_id offset] offsets] & Hstage & Htransfer).
  rewrite (kbind_run _ _ _ _ Hstage). cbn [trace final].
  destruct (stage_val_inv _ _ _ _ _ Hstage)
    as (input0 & others & plasma_object_id & total_bytes & arrow_dtype & header_size
        & data' & _ & _ & _ & _ & _ & _ & _ & _ & _ & Htrace & Hfinal).
  exists object_id, offset, offsets, arrow_dtype,
    [to_int64 (total_bytes / sizeof_float)],
    (to_int64 (header_size + to_int64 total_bytes)), data'.
  split; [|split].
  - rewrite Htrace, (quiet_device_transfer _ _ _ _ _ _ Htransfer). reflexivity.
  - rewrite (respects_device_transfer same_client same_client_trans same_client_client
               context object_id offset offsets (final (TensorToPlasmaOp.stage context w))).
    rewrite Hfinal. cbn [client_ objects]. apply lookup_insert_eq.
  - destruct (transfer_enqueues context object_id offset offsets
                (final (TensorToPlasmaOp.stage context w))) as (ops & Hqueue & _ & Hall).
    rewrite Hqueue, (Hall Htransfer). f_equal.
    rewrite Hfinal. reflexivity.
Qed.

(** A device Put of one float tensor of four bytes. *)
Lemma device_put_returns_before_copying_witness :
  let context := sample_context [float_tensor [x0a; x0b; x0c; x0d];
                                 string_tensor [sample_id]] in
  let r := @TensorToPlasmaOp.ComputeAsync sample_format GPUDevice context empty_world in
  exists object_id offset offsets arrow_dtype shape data_size data,
    trace r = [CallGetHeaderSize arrow_dtype shape; CallCreate object_id data_size;
               CallTensorWrite arrow_dtype shape] /\
    objects (client_ (final r)) !! object_id =
      Some {| obj_data := data; obj_sealed := false |} /\
    queue_of (final r) =
      queue_of empty_world ++ stream_program object_id offset offsets (put_tensors context).
Proof.
  intros context.
  apply (@device_put_returns_before_copying sample_format context empty_world).
  vm_compute. reflexivity.
Defined.

(** ** Sequencing steps *)

Lemma kbind_assoc {A B C} (m : K A) (k : A -> K B) (h : B -> K C) (w : World) :
  kbind (kbind m k) h w = kbind m (fun a => kbind (k a) h) w.
Proof.
  unfold kbind. destruct (result (m w)) as [a|e]; cbn [result final trace]; [|reflexivity].
  destruct (result (k a (final (m w)))) as [b|e]; cbn [result final trace];
    [|reflexivity].
  now rewrite app_assoc.
Qed.

Lemma kbind_ext {A B} (m : K A) (k k' : A -> K B) (w : World) :
  (forall a w', k a w' = k' a w') -> kbind m k w = kbind m k' w.
Proof.
  intros Hk. unfold kbind. destruct (result (m w)) as [a|e]; [|reflexivity].
  now rewrite Hk.
Qed.

Lemma kbind_kret_r (m : K unit) (w : World) : kbind m (fun _ => kret tt) w = m w.
Proof.
  unfold kbind. destruct (result (m w)) as [[]|e] eqn:Hres; cbn [kret trace final result].
  - rewrite app_nil_r, <- Hres. reflexivity.
  - rewrite <- Hres. reflexivity.
Qed.

(** ** Steps that do not look at the streams *)

Lemma same_store_refl w : same_store w w.
Proof. now split. Qed.

Lemma blind_kbind {A B} (m : K A) (k : A -> K B) :
  stream_blind m -> (forall a, stream_blind (k a)) -> stream_blind (kbind m k).
Proof.
  intros Hm Hk w w' Hww. unfold kbind.
  destruct (Hm w w' Hww) as (Htr & Hres & Hfin). rewrite <- Hres.
  destruct (result (m w)) as [a|e]; cbn [trace final result].
  - destruct (Hk a _ _ Hfin) as (Htr' & Hres' & Hfin'). now rewrite Htr, Htr'.
  - now rewrite Htr.
Qed.

Lemma blind_pure {A} (r : list Event) (a : Res A) :
  stream_blind (fun w => {| trace := r; final := w; result := a |}).
Proof. intros w w' Hww. cbn [trace final result]. now split. Qed.

Lemma blind_emit e : stream_blind (emit e).
Proof. apply blind_pure. Qed.

Lemma blind_checked {A} (c : Checked A) : stream_blind (checked c).
Proof. destruct c; apply blind_pure. Qed.

Lemma blind_through_buffer {A} object_id (f : list byte -> Outcome (list byte * A)) :
  stream_blind (through_buffer object_id f).
Proof.
  intros w w' [Hc Ho]. unfold through_buffer. rewrite <- Hc.
  destruct (objects (client_ w) !! object_id) as [o|]; [|now repeat split].
  destruct (f (obj_data o)) as [[data' a]| |]; now repeat split.
Qed.

Lemma blind_with_client f : stream_blind (with_client f).
Proof.
  intros w w' [Hc Ho]. unfold with_client. rewrite <- Hc.
  destruct (f (client_ w)); now repeat split.
Qed.

Lemma blind_copy_to_buffer object_id dst src n :
  stream_blind (copy_to_buffer object_id dst src n).
Proof.
  apply blind_kbind; [apply blind_through_buffer | intros _; apply blind_emit].
Qed.

Lemma blind_wrapped_callback object_id :
  stream_blind (TensorToPlasmaOp.wrapped_callback object_id).
Proof.
  unfold TensorToPlasmaOp.wrapped_callback.
  apply blind_kbind; [apply blind_emit|]. intros _.
  apply blind_kbind; [apply blind_with_client|]. intros _.
  apply blind_kbind; [apply blind_emit | intros _; apply blind_emit].
Qed.

Lemma blind_memcpy_loop object_id offset offsets tensors : forall i,
  stream_blind (TensorToPlasmaOp.memcpy_loop object_id offset offsets i tensors).
Proof.
  induction tensors as [|t rest IH]; intros i; simpl; [apply blind_pure|].
  apply blind_kbind; [apply blind_checked|]. intros src.
  apply blind_kbind; [apply blind_copy_to_buffer | intros _; apply IH].
Qed.

Lemma blind_set_output_tensor o : stream_blind (set_output_tensor o).
Proof.
  intros w w' [Hc Ho]. split; [reflexivity|]. split; [reflexivity|].
  split; [exact Hc | reflexivity].
Qed.

Lemma blind_copy_to_output src n : stream_blind (PlasmaToTensorOp.copy_to_output src n).
Proof.
  intros w w' Hww. unfold PlasmaToTensorOp.copy_to_output.
  destruct Hww as [Hc Ho]. rewrite <- Ho.
  destruct (output_tensor w) as [out|] eqn:Hout;
    [|split; [reflexivity|]; split; [reflexivity|]; split; [exact Hc | simpl; congruence]].
  apply (blind_kbind (defined (let* bytes := read_bytes src n in memcpy out 0 bytes)%outcome)).
  - destruct (let* bytes := read_bytes src n in memcpy out 0 bytes)%outcome;
      apply blind_pure.
  - intros out'. apply blind_kbind; [apply blind_set_output_tensor|].
    intros _. apply blind_emit.
  - split; [exact Hc | simpl; congruence].
Qed.

(** ** The device path of Put, run to the end *)

Section DeviceRuns.
Context `{WireFormat}.
Import TensorToPlasmaOp.

Lemma kbind_silent {A B} (m : K A) (k : A -> K B) (w w' : World) (a : A) :
  m w = {| trace := []; final := w'; result := Val a |} -> kbind m k w = k a w'.
Proof. intros Hm. unfold kbind. rewrite Hm. reflexivity. Qed.

(** A device that accepts every copy takes them all, in input order. *)
Lemma ThenMemcpy_loop_run context object_id offset offsets tensors :
  (forall i, ThenMemcpy_ok context i = true) ->
  Forall (fun t => dtype t = DT_FLOAT) tensors ->
  forall i w q,
    d2h_stream w = Some q ->
    ThenMemcpy_loop context object_id offset offsets i tensors w =
    {| trace := [];
       final := {| client_ := client_ w;
                   d2h_stream := Some (q ++ copies_from object_id offset offsets i tensors);
                   h2d_stream := h2d_stream w; output_tensor := output_tensor w |};
       result := Val tt |}.
Proof.
  intros Hok Hfloat. induction Hfloat as [|t rest Hty _ IH]; intros i w q Hq.
  - simpl. rewrite app_nil_r. destruct w. simpl in Hq. now subst.
  - cbn [ThenMemcpy_loop copies_from]. rewrite kbind_checked. unfold flat.
    rewrite decide_True by exact Hty. rewrite Hok.
    unfold kbind at 1, enqueue_d2h. rewrite Hq. cbn [set_d2h_stream kret result final trace].
    rewrite kbind_OP_REQUIRES_ASYNC.
    erewrite IH by reflexivity.
    cbn [client_ h2d_stream output_tensor]. now rewrite <- app_assoc.
Qed.

(** On an idle stream and a device that accepts everything, the device half
    of a Put gets to its copies with the wait alone on [d2h_stream]. *)
Lemma device_transfer_to_loop context object_id offset offsets w :
  orig_stream context = true ->
  HostMemoryRegister_ok context = true ->
  Stream_Init_ok context = true ->
  ThenWaitFor_ok context = true ->
  default [] (d2h_stream w) = [] ->
  transfer GPUDevice context object_id offset offsets w =
  (let* _ := ThenMemcpy_loop context object_id offset offsets 0 (put_tensors context) in
   enqueue_d2h (ExecuteWrappedCallback object_id))
    {| client_ := client_ w; d2h_stream := Some [WaitFor];
       h2d_stream := h2d_stream w; output_tensor := output_tensor w |}.
Proof.
  intros Hstream Hregister Hinit Hwait Hidle.
  unfold transfer. change (take _ (inputs context)) with (put_tensors context).
  rewrite kbind_OP_REQUIRES_ASYNC, Hstream, kbind_CHECK, Hregister.
  rewrite kbind_init_d2h_stream.
  destruct w as [c [q|] h o]; simpl in Hidle; cbn [d2h_stream];
    [subst q | rewrite Hinit; cbv zeta].
  all: rewrite kbind_CHECK, Hwait.
  all: erewrite (kbind_silent (enqueue_d2h WaitFor)) by reflexivity.
  all: reflexivity.
Qed.

(** For float tensors it then leaves its whole program on the stream and
    nothing else. *)
Lemma device_transfer_run context object_id offset offsets w :
  accepting context ->
  Forall (fun t => dtype t = DT_FLOAT) (put_tensors context) ->
  default [] (d2h_stream w) = [] ->
  transfer GPUDevice context object_id offset offsets w =
  {| trace := [];
     final := {| client_ := client_ w;
                 d2h_stream := Some (stream_program object_id offset offsets
                                       (put_tensors context));
                 h2d_stream := h2d_stream w; output_tensor := output_tensor w |};
     result := Val tt |}.
Proof.
  intros (Hstream & Hregister & Hinit & Hwait & Hcopies) Hfloat Hidle.
  rewrite device_transfer_to_loop by assumption.
  erewrite (kbind_silent (ThenMemcpy_loop _ _ _ _ _ _))
    by (apply ThenMemcpy_loop_run; [assumption | assumption | reflexivity]).
  reflexivity.
Qed.

(** The stream runs the copies and the closure as the host loop does. *)
Lemma exec_program object_id offset offsets tensors :
  Forall (fun t => dtype t = DT_FLOAT) tensors ->
  forall i w,
    exec_all (copies_from object_id offset offsets i tensors
                ++ [ExecuteWrappedCallback object_id]) w =
    (let* _ := memcpy_loop object_id offset offsets i tensors in
     wrapped_callback object_id) w.
Proof.
  intros Hfloat. induction Hfloat as [|t rest Hty _ IH]; intros i w.
  - cbn [copies_from app exec_all exec_op memcpy_loop]. apply kbind_kret_r.
  - cbn [copies_from app exec_all exec_op memcpy_loop].
    rewrite kbind_assoc, kbind_checked. unfold flat. rewrite decide_True by exact Hty.
    rewrite kbind_assoc. apply kbind_ext. intros _ w'. apply IH.
Qed.
End DeviceRuns.

(** ** An invocation on idle streams *)

Lemma drain_idle (w : World) :
  idle w ->
  exists w',
    (let* _ := drain_d2h in drain_h2d) w = {| trace := []; final := w'; result := Val tt |} /\
    same_store w w'.
Proof.
  destruct w as [c d h o]. unfold idle. cbn [d2h_stream h2d_stream]. intros [Hd Hh].
  destruct d as [qd|], h as [qh|]; simpl in Hd, Hh; subst;
    (eexists; split; [reflexivity | now split]).
Qed.

Lemma returning_id (m : K unit) (w : World) :
  result (m w) <> Stop Returned -> returning m w = m w.
Proof.
  intros Hres. unfold returning.
  destruct (result (m w)) as [a|e]; [reflexivity|].
  destruct e; try reflexivity. now destruct Hres.
Qed.

(** A kernel that does not return early and leaves the streams idle: the
    invocation is the kernel's run. *)
Lemma invocation_settled (m : K unit) (w : World) :
  idle (final (m w)) ->
  result (m w) <> Stop Returned ->
  trace (invocation m w) = trace (m w) /\
  result (invocation m w) = result (m w) /\
  same_store (final (m w)) (final (invocation m w)).
Proof.
  intros Hidle Hres. unfold invocation.
  pose proof (returning_id m w Hres) as Hret.
  destruct (result (m w)) as [[]|e] eqn:Hr.
  - rewrite (kbind_run _ _ _ tt) by now rewrite Hret.
    rewrite Hret. destruct (drain_idle _ Hidle) as (w' & -> & Hsame).
    cbn [trace final result]. rewrite app_nil_r.
    split; [reflexivity|]. split; [reflexivity | exact Hsame].
  - rewrite (kbind_stops _ _ _ e) by now rewrite Hret.
    rewrite Hret. cbn [trace final result].
    split; [reflexivity|]. split; [reflexivity | apply same_store_refl].
Qed.

(** A kernel that runs to its end with work on [d2h_stream]: the invocation
    is the kernel's run and then the run of that work. *)
Lemma invocation_streamed (m : K unit) (w : World) (q : list StreamOp) :
  result (m w) = Val tt ->
  d2h_stream (final (m w)) = Some q ->
  default [] (h2d_stream (final (m w))) = [] ->
  let w' := {| client_ := client_ (final (m w)); d2h_stream := Some [];
               h2d_stream := h2d_stream (final (m w));
               output_tensor := output_tensor (final (m w)) |} in
  trace (invocation m w) = trace (m w) ++ trace (exec_all q w') /\
  result (invocation m w) = result (exec_all q w') /\
  same_store (final (exec_all q w')) (final (invocation m w)).
Proof.
  intros Hres Hq Hh w'. unfold invocation.
  assert (Hret : returning m w = m w) by (apply returning_id; rewrite Hres; discriminate).
  rewrite (kbind_run _ _ _ tt) by now rewrite Hret.
  rewrite Hret. cbn [trace final result].
  assert (Hdrain : drain_d2h (final (m w)) = exec_all q w').
  { unfold drain_d2h. rewrite Hq. reflexivity. }
  destruct (result (exec_all q w')) as [[]|e] eqn:Hr.
  - rewrite (kbind_run _ _ _ tt) by now rewrite Hdrain.
    rewrite Hdrain. cbn [trace final result].
    destruct (keeps_exec_all q w') as [_ Hkeep].
    assert (Hidle : default [] (h2d_stream (final (exec_all q w'))) = [])
      by now rewrite Hkeep.
    unfold drain_h2d.
    destruct (h2d_stream (final (exec_all q w'))) as [qh|] eqn:Hqh.
    + simpl in Hidle. subst qh. cbn [trace final result kret].
      rewrite app_nil_r. split; [reflexivity|]. split; [reflexivity | now split].
    + cbn [trace final result kret]. rewrite app_nil_r.
      split; [reflexivity|]. split; [reflexivity | now split].
  - rewrite (kbind_stops _ _ _ e) by now rewrite Hdrain.
    rewrite Hdrain. cbn [trace final result].
    split; [reflexivity|]. split; [reflexivity | apply same_store_refl].
Qed.

Lemma invocation_stops (m : K unit) (w : World) (e : Exit) :
  result (m w) = Stop e ->
  e <> Returned ->
  invocation m w = {| trace := trace (m w); final := final (m w); result := Stop e |}.
Proof.
  intros Hres He. unfold invocation.
  assert (Hret : returning m w = m w).
  { apply returning_id. rewrite Hres. intros [= ->]. now destruct He. }
  rewrite (kbind_stops _ _ _ e) by now rewrite Hret.
  now rewrite Hret.
Qed.

Lemma invocation_ext (m m' : K unit) (w : World) :
  m w = m' w -> invocation m w = invocation m' w.
Proof. intros Heq. unfold invocation, kbind, returning. now rewrite Heq. Qed.

Lemma same_store_sym w w' : same_store w w' -> same_store w' w.
Proof. intros [Hc Ho]. now split. Qed.

Lemma same_store_trans w1 w2 w3 : same_store w1 w2 -> same_store w2 w3 -> same_store w1 w3.
Proof. intros [Hc Ho] [Hc' Ho']. split; congruence. Qed.

(** ** Put: the device path against the host path *)

Section PutAgreement.
Context `{WireFormat}.
Import TensorToPlasmaOp.

Lemma keeps_memcpy_loop object_id offset offsets tensors : forall i,
  keeps_streams (memcpy_loop object_id offset offsets i tensors).
Proof.
  induction tensors as [|t rest IH]; intros i; simpl; [now apply keeps_pure|].
  apply keeps_kbind; [apply keeps_pure; intros w; now destruct (flat _ _)|]. intros src.
  apply keeps_kbind; [apply keeps_copy_to_buffer | intros _; apply IH].
Qed.

Lemma keeps_host_transfer context object_id offset offsets :
  keeps_streams (transfer CPUDevice context object_id offset offsets).
Proof.
  unfold transfer.
  apply keeps_kbind; [apply keeps_memcpy_loop | intros _; apply keeps_wrapped_callback].
Qed.

Lemma host_transfer_goes_on context object_id offset offsets w :
  result (transfer CPUDevice context object_id offset offsets w) <> Stop Returned.
Proof.
  assert (Hadv : advances (0 + 1) (transfer CPUDevice context object_id offset offsets)).
  { unfold transfer. apply advances_kbind; [apply advances_memcpy_loop|].
    intros _. apply advances_wrapped_callback. }
  apply Hadv.
Qed.

Lemma blind_host_transfer context object_id offset offsets :
  stream_blind (transfer CPUDevice context object_id offset offsets).
Proof.
  unfold transfer.
  apply blind_kbind; [apply blind_memcpy_loop | intros _; apply blind_wrapped_callback].
Qed.

(** X9: on idle streams and with a device that accepts everything it is
    asked, a device Put, once the stream has run what the kernel left on it,
    has done what a host Put of the same inputs does: the two invocations
    leave the same trace of calls, end the same way, and leave the same
    store and the same output. *)
Theorem device_put_agrees_with_host (context : OpKernelContext) (w : World) :
  idle w ->
  accepting context ->
  trace (Put GPUDevice context w) = trace (Put CPUDevice context w) /\
  result (Put GPUDevice context w) = result (Put CPUDevice context w) /\
  same_store (final (Put GPUDevice context w)) (final (Put CPUDevice context w)).
Proof.
  intros Hidle Haccepting. unfold Put.
  destruct (result (stage context w)) as [[[object_id offset] offsets]|e] eqn:Hstage.
  2:{ rewrite (invocation_ext (ComputeAsync GPUDevice context)
                 (ComputeAsync CPUDevice context) w).
      - split; [reflexivity|]. split; [reflexivity | apply same_store_refl].
      - unfold ComputeAsync. now rewrite !(kbind_stops _ _ _ _ Hstage). }
  destruct (stage_val_inv _ _ _ _ _ Hstage)
    as (input0 & others & plasma_object_id & total_bytes & arrow_dtype & header_size
        & data' & Hinputs & _ & Hdtypes & _ & _ & _ & _ & _ & _ & _ & Hfinal).
  set (w1 := final (stage context w)) in *.
  assert (Hstreams : d2h_stream w1 = d2h_stream w /\ h2d_stream w1 = h2d_stream w)
    by now rewrite Hfinal.
  destruct Hstreams as [Hd2h Hh2d]. clear Hfinal.
  pose proof (put_tensors_split _ _ _ Hinputs) as Htensors.
  set (host := transfer CPUDevice context object_id offset offsets).
  assert (Hhost : ComputeAsync CPUDevice context w =
                  {| trace := trace (stage context w) ++ trace (host w1);
                     final := final (host w1); result := result (host w1) |}).
  { unfold ComputeAsync. now rewrite (kbind_run _ _ _ _ Hstage). }
  destruct (invocation_settled (ComputeAsync CPUDevice context) w)
    as (Htr_h & Hres_h & Hfin_h).
  { rewrite Hhost. cbn [final].
    destruct (keeps_host_transfer context object_id offset offsets w1) as [Hkd Hkh].
    destruct Hidle as [Hid Hih]. split.
    - subst host. now rewrite Hkd, Hd2h.
    - subst host. now rewrite Hkh, Hh2d. }
  { rewrite Hhost. cbn [result]. apply host_transfer_goes_on. }
  rewrite Htr_h, Hres_h. rewrite Hhost in Hfin_h |- *. cbn [trace result final] in Hfin_h |- *.
  destruct (decide (dtype input0 = DT_FLOAT)) as [Hfloat0|Hother].
  - assert (Hfloat : Forall (fun t => dtype t = DT_FLOAT) (put_tensors context)).
    { rewrite Htensors. constructor; [assumption|].
      apply dtype_loop_passed in Hdtypes. now rewrite Hfloat0 in Hdtypes. }
    set (program := stream_program object_id offset offsets (put_tensors context)).
    assert (Hdev : ComputeAsync GPUDevice context w =
                   {| trace := trace (stage context w);
                      final := {| client_ := client_ w1; d2h_stream := Some program;
                                  h2d_stream := h2d_stream w1;
                                  output_tensor := output_tensor w1 |};
                      result := Val tt |}).
    { unfold ComputeAsync. rewrite (kbind_run _ _ _ _ Hstage). fold w1.
      rewrite device_transfer_run; try assumption.
      - cbn [trace final result]. now rewrite app_nil_r.
      - rewrite Hd2h. apply Hidle. }
    destruct (invocation_streamed (ComputeAsync GPUDevice context) w program)
      as (Htr_d & Hres_d & Hfin_d).
    { now rewrite Hdev. }
    { now rewrite Hdev. }
    { rewrite Hdev. cbn [final h2d_stream]. rewrite Hh2d. apply Hidle. }
    rewrite Hdev in Htr_d, Hres_d, Hfin_d.
    cbn [trace final client_ h2d_stream output_tensor] in Htr_d, Hres_d, Hfin_d.
    set (w3 := {| client_ := client_ w1; d2h_stream := Some [];
                  h2d_stream := h2d_stream w1; output_tensor := output_tensor w1 |}) in *.
    assert (Hexec : exec_all program w3 = host w3).
    { subst program host. unfold stream_program, transfer.
      change (take _ (inputs context)) with (put_tensors context).
      cbn [app exec_all exec_op]. rewrite kbind_kret. now apply exec_program. }
    rewrite Hexec in Htr_d, Hres_d, Hfin_d.
    destruct (blind_host_transfer context object_id offset offsets w3 w1)
      as (Htr & Hres & Hfin); [now split|].
    fold host in Htr, Hres, Hfin.
    rewrite Htr_d, Hres_d, Htr, Hres.
    split; [reflexivity|]. split; [reflexivity|].
    apply same_store_trans with (final (host w1)); [|exact Hfin_h].
    apply same_store_trans with (final (host w3)); [|exact Hfin].
    now apply same_store_sym.
  - assert (Hstop_h : host w1 =
                      {| trace := []; final := w1;
                         result := Stop (Aborted (CheckFailure "dtype() == expected_dtype")) |}).
    { subst host. unfold transfer.
      change (take _ (inputs context)) with (put_tensors context).
      rewrite Htensors. cbn [memcpy_loop]. rewrite kbind_assoc, kbind_checked.
      unfold flat. now rewrite decide_False by exact Hother. }
    set (w2 := {| client_ := client_ w1; d2h_stream := Some [WaitFor];
                  h2d_stream := h2d_stream w1; output_tensor := output_tensor w1 |}).
    assert (Hstop_d : transfer GPUDevice context object_id offset offsets w1 =
                      {| trace := []; final := w2;
                         result := Stop (Aborted (CheckFailure "dtype() == expected_dtype")) |}).
    { destruct Haccepting as (Hstream & Hregister & Hinit & Hwait & _).
      rewrite device_transfer_to_loop; try assumption; [|rewrite Hd2h; apply Hidle].
      fold w2. rewrite Htensors. cbn [ThenMemcpy_loop].
      rewrite kbind_assoc, kbind_checked.
      unfold flat. now rewrite decide_False by exact Hother. }
    rewrite (invocation_stops _ _ (Aborted (CheckFailure "dtype() == expected_dtype")));
      [| |discriminate].
    + unfold ComputeAsync. rewrite (kbind_run _ _ _ _ Hstage). fold w1.
      rewrite Hstop_d, Hstop_h. cbn [trace final result].
      split; [reflexivity|]. split; [reflexivity|].
      apply same_store_trans with w1; [now split|].
      rewrite Hstop_h in Hfin_h. exact Hfin_h.
    + unfold ComputeAsync. rewrite (kbind_run _ _ _ _ Hstage). fold w1.
      now rewrite Hstop_d.
Qed.
End PutAgreement.

(** A device Put of one float tensor, next to the host Put. *)
Lemma device_put_agrees_with_host_witness :
  let context := sample_context [float_tensor [x0a; x0b; x0c; x0d];
                                 string_tensor [sample_id]] in
  trace (@Put sample_format GPUDevice context empty_world) =
    trace (@Put sample_format CPUDevice context empty_world) /\
  result (@Put sample_format GPUDevice context empty_world) =
    result (@Put sample_format CPUDevice context empty_world) /\
  same_store (final (@Put sample_format GPUDevice context empty_world))
    (final (@Put sample_format CPUDevice context empty_world)).
Proof.
  intros context.
  apply (@device_put_agrees_with_host sample_format context empty_world).
  - split; reflexivity.
  - repeat split; reflexivity.
Defined.

(** ** Get: the store, a missing object, a size that is no multiple of four *)

(** X10: a Get never writes to the store: on either device and however the
    call ends, the store client is left as it was, with every object, its
    bytes and its seal, and the bytes available. *)
Theorem get_never_writes_store (device : Device) (context : OpKernelContext) (w : World) :
  client_ (final (PlasmaToTensorOp.ComputeAsync device context w)) = client_ w.
Proof.
  pose proof (respects_Get_ComputeAsync same_client same_client_trans same_client_client
                device context) as Hkeeps.
  exact (Hkeeps w).
Qed.

(** X11: a Get of an object that is not in the store, or is there but not
    sealed, does not fail and does not return: after the call to the store
    the kernel waits, with no output allocated, no status set and [done] not
    called. *)
Theorem get_blocks_until_sealed (device : Device) (context : OpKernelContext) (w : World)
    (plasma_object_id : Tensor) (other_inputs : list Tensor) (object_id : ObjectID) :
  inputs context = plasma_object_id :: other_inputs ->
  names_object plasma_object_id object_id ->
  (forall o, objects (client_ w) !! object_id = Some o -> obj_sealed o = false) ->
  PlasmaToTensorOp.ComputeAsync device context w =
    {| trace := [CallGet object_id]; final := w; result := Stop Blocked |} /\
  Get_tensor device context w =
    {| trace := [CallGet object_id]; final := w; result := Stop Blocked |}.
Proof.
  intros Hinputs Hid Hunsealed.
  assert (Hget : Get object_id (client_ w) = None).
  { unfold Get. destruct (objects (client_ w) !! object_id) as [o|] eqn:Hobj; [|reflexivity].
    now rewrite (Hunsealed o eq_refl). }
  assert (Hkernel : PlasmaToTensorOp.ComputeAsync device context w =
                    {| trace := [CallGet object_id]; final := w; result := Stop Blocked |}).
  { unfold PlasmaToTensorOp.ComputeAsync. rewrite Hinputs.
    rewrite (kbind_decode_id _ object_id) by assumption.
    assert (Hwait : PlasmaToTensorOp.client_Get object_id w = stop Blocked w)
      by (unfold PlasmaToTensorOp.client_Get; now rewrite Hget).
    rewrite kbind_emit, (kbind_stops _ _ _ Blocked) by now rewrite Hwait.
    now rewrite Hwait. }
  split; [exact Hkernel|].
  unfold Get_tensor. rewrite (invocation_stops _ _ Blocked); [| |discriminate].
  - now rewrite Hkernel.
  - now rewrite Hkernel.
Qed.

(** A Get of an object that a Put has created and not sealed. *)
Lemma get_blocks_until_sealed_witness :
  let w := with_object empty_world sample_id
             {| obj_data := [x01; x02; x03; x04]; obj_sealed := false |} 4 in
  let context := sample_context [string_tensor [sample_id]] in
  PlasmaToTensorOp.ComputeAsync CPUDevice context w =
    {| trace := [CallGet sample_id]; final := w; result := Stop Blocked |} /\
  Get_tensor CPUDevice context w =
    {| trace := [CallGet sample_id]; final := w; result := Stop Blocked |}.
Proof.
  intros w context.
  apply (get_blocks_until_sealed CPUDevice context w (string_tensor [sample_id]) []
           sample_id).
  - reflexivity.
  - exact sample_id_names.
  - intros o Hobj. vm_compute in Hobj. injection Hobj as <-. reflexivity.
Defined.

(** X12: a host Get of a sealed object whose size is not a multiple of
    [sizeof(float)] reaches its [memcpy] having called the store and
    allocated the output, and nothing else: no check looks at the size and
    no status is set.  The output is allocated for the size divided by four,
    rounded down, so it holds fewer bytes than the object, and the [memcpy]
    is of the whole object: the copy goes past the end of the output, which
    is outside what C++ defines.  Nothing is said of the run after the
    copy. *)
Theorem host_get_overruns_output (context : OpKernelContext) (w : World)
    (plasma_object_id : Tensor) (other_inputs : list Tensor) (object_id : ObjectID)
    (data : list byte) :
  inputs context = plasma_object_id :: other_inputs ->
  names_object plasma_object_id object_id ->
  Get object_id (client_ w) = Some data ->
  Zlen data < 2 ^ 63 ->
  Zlen data mod sizeof_float <> 0 ->
  allocate_output_status context = None ->
  exists out,
    fetch context w =
      {| trace := [CallGet object_id; CallAllocateOutput [Zlen data / sizeof_float]];
         final := {| client_ := client_ w; d2h_stream := d2h_stream w;
                     h2d_stream := h2d_stream w; output_tensor := Some out |};
         result := Val data |} /\
    Zlen out = sizeof_float * (Zlen data / sizeof_float) /\
    Zlen out < Zlen data /\
    memcpy out 0 data = Undefined /\
    result (PlasmaToTensorOp.ComputeAsync CPUDevice context w) = Stop UndefinedBehavior.
Proof.
  intros Hinputs Hid Hget Hsize Hdiv Halloc.
  pose proof (Zlen_nonneg data) as Hnn.
  assert (Hshort : sizeof_float * (Zlen data / sizeof_float) < Zlen data).
  { unfold sizeof_float in *. pose proof (Z.div_mod (Zlen data) 4 ltac:(lia)).
    pose proof (Z.mod_pos_bound (Zlen data) 4 ltac:(lia)). lia. }
  assert (Hshape : to_int64 (to_size_t (Zlen data) / sizeof_float) =
                   Zlen data / sizeof_float).
  { rewrite to_size_t_small by lia. apply to_int64_small. unfold sizeof_float.
    pose proof (Z.div_pos (Zlen data) 4 ltac:(lia) ltac:(lia)).
    assert (Zlen data / 4 < 2 ^ 63) by (apply Z.div_lt_upper_bound; lia). lia. }
  set (shape := [Zlen data / sizeof_float]).
  set (out := map (allocated_memory context)
                (seq 0 (Z.to_nat (sizeof_float * nth 0 shape 0)))).
  assert (Hout : Zlen out = sizeof_float * (Zlen data / sizeof_float)).
  { subst out shape. unfold Zlen at 1. rewrite length_map, length_seq. cbn [nth].
    apply Z2Nat.id. unfold sizeof_float in *.
    pose proof (Z.div_pos (Zlen data) 4 ltac:(lia) ltac:(lia)). lia. }
  set (w' := {| client_ := client_ w; d2h_stream := d2h_stream w;
                h2d_stream := h2d_stream w; output_tensor := Some out |}).
  assert (Halloc_run : PlasmaToTensorOp.allocate_output context shape w =
                       {| trace := [CallAllocateOutput shape]; final := w';
                          result := Val tt |})
    by (unfold PlasmaToTensorOp.allocate_output; rewrite Halloc; reflexivity).
  assert (Hres : result (PlasmaToTensorOp.allocate_output context shape w) = Val tt)
    by now rewrite Halloc_run.
  assert (Hover : memcpy out 0 data = Undefined).
  { unfold memcpy.
    replace (0 + Zlen data <=? Zlen out) with false by (symmetry; apply Z.leb_gt; lia).
    reflexivity. }
  assert (Hcopy : PlasmaToTensorOp.copy_to_output data (Zlen data) w' =
                  stop UndefinedBehavior w').
  { unfold PlasmaToTensorOp.copy_to_output. cbn [output_tensor w'].
    rewrite read_bytes_all. cbn [obind]. now rewrite Hover. }
  exists out. split; [|split; [exact Hout|split; [lia|split; [exact Hover|]]]].
  - unfold fetch. rewrite Hinputs.
    rewrite (kbind_decode_id _ object_id) by assumption.
    rewrite kbind_emit, (kbind_client_Get _ data) by assumption.
    rewrite Hshape. fold shape.
    rewrite (kbind_run _ _ _ _ Hres), Halloc_run. reflexivity.
  - unfold PlasmaToTensorOp.ComputeAsync. rewrite Hinputs.
    rewrite (kbind_decode_id _ object_id) by assumption.
    rewrite kbind_emit, (kbind_client_Get _ data) by assumption.
    rewrite Hshape, to_size_t_small by lia. fold shape.
    cbn [result].
    rewrite (kbind_run _ _ _ _ Hres), Halloc_run. cbn [result final].
    rewrite (kbind_stops _ _ _ UndefinedBehavior) by now rewrite Hcopy.
    reflexivity.
Qed.

(** A host Get of a sealed object of six bytes: the output holds four. *)
Lemma host_get_overruns_output_witness :
  let context := sample_context [string_tensor [sample_id]] in
  let w := sealed_world (repeat x01 6) in
  exists out,
    fetch context w =
      {| trace := [CallGet sample_id;
                   CallAllocateOutput [Zlen (repeat x01 6) / sizeof_float]];
         final := {| client_ := client_ w; d2h_stream := d2h_stream w;
                     h2d_stream := h2d_stream w; output_tensor := Some out |};
         result := Val (repeat x01 6) |} /\
    Zlen out = sizeof_float * (Zlen (repeat x01 6) / sizeof_float) /\
    Zlen out < Zlen (repeat x01 6) /\
    memcpy out 0 (repeat x01 6) = Undefined /\
    result (PlasmaToTensorOp.ComputeAsync CPUDevice context w) = Stop UndefinedBehavior.
Proof.
  apply (host_get_overruns_output (sample_context [string_tensor [sample_id]])
           (sealed_world (repeat x01 6)) (string_tensor [sample_id]) [] sample_id
           (repeat x01 6)).
  - reflexivity.
  - exact sample_id_names.
  - reflexivity.
  - reflexivity.
  - discriminate.
  - reflexivity.
Defined.

(** ** Get: the device path against the host path *)

Lemma Get_split (device : Device) (context : OpKernelContext) (w : World) :
  PlasmaToTensorOp.ComputeAsync device context w =
  (let* plasma_data := fetch context in deliver device context plasma_data) w.
Proof.
  unfold PlasmaToTensorOp.ComputeAsync, fetch.
  destruct (inputs context) as [|plasma_object_id rest]; [reflexivity|].
  rewrite kbind_assoc. apply kbind_ext. intros _ w1.
  rewrite kbind_assoc. apply kbind_ext. intros strs w2.
  rewrite kbind_assoc. apply kbind_ext. intros object_id w3.
  rewrite kbind_assoc. apply kbind_ext. intros _ w4.
  rewrite kbind_assoc. apply kbind_ext. intros object_buffer w5.
  rewrite kbind_assoc. apply kbind_ext. intros _ w6.
  rewrite kbind_kret. unfold deliver. now destruct device.
Qed.

Lemma keeps_allocate_output context shape :
  keeps_streams (PlasmaToTensorOp.allocate_output context shape).
Proof.
  intros w. unfold PlasmaToTensorOp.allocate_output.
  now destruct (allocate_output_status context).
Qed.

Lemma keeps_fetch context : keeps_streams (fetch context).
Proof.
  unfold fetch. destruct (inputs context) as [|plasma_object_id rest];
    [now apply keeps_pure|].
  apply keeps_kbind; [apply keeps_pure; intros w; now destruct (_ =? _)|]. intros _.
  apply keeps_kbind; [apply keeps_pure; intros w; now destruct (flat_string _)|].
  intros strs.
  apply keeps_kbind;
    [apply keeps_pure; intros w; now destruct (match strs with [] => _ | _ => _ end)|].
  intros object_id. apply keeps_kbind; [now apply keeps_pure|]. intros _.
  apply keeps_kbind.
  { apply keeps_pure. intros w. unfold PlasmaToTensorOp.client_Get.
    now destruct (Get object_id (client_ w)). }
  intros object_buffer.
  apply keeps_kbind; [apply keeps_allocate_output | intros _; now apply keeps_pure].
Qed.

Lemma keeps_host_deliver context plasma_data :
  keeps_streams (deliver CPUDevice context plasma_data).
Proof.
  unfold deliver.
  apply keeps_kbind; [apply keeps_copy_to_output | intros _; now apply keeps_pure].
Qed.

Lemma host_deliver_goes_on context plasma_data w :
  result (deliver CPUDevice context plasma_data w) <> Stop Returned.
Proof.
  assert (Hadv : advances (0 + 1) (deliver CPUDevice context plasma_data)).
  { unfold deliver. apply advances_kbind; [apply advances_copy_to_output|].
    intros _. apply advances_done. }
  apply Hadv.
Qed.

Lemma blind_host_deliver context plasma_data :
  stream_blind (deliver CPUDevice context plasma_data).
Proof.
  unfold deliver.
  apply blind_kbind; [apply blind_copy_to_output | intros _; apply blind_emit].
Qed.

(** On an idle stream and a device that accepts everything, the device half
    of a Get leaves the copy and the completion callback on [h2d_stream]
    and nothing else. *)
Lemma device_deliver_run context plasma_data w :
  accepting context ->
  default [] (h2d_stream w) = [] ->
  deliver GPUDevice context plasma_data w =
  {| trace := [];
     final := {| client_ := client_ w; d2h_stream := d2h_stream w;
                 h2d_stream := Some [MemcpyH2D plasma_data (to_size_t (Zlen plasma_data));
                                     ExecuteDone];
                 output_tensor := output_tensor w |};
     result := Val tt |}.
Proof.
  intros (Hstream & _ & Hinit & Hwait & Hcopies) Hidle.
  unfold deliver. rewrite kbind_OP_REQUIRES_ASYNC, Hstream.
  assert (Hstep : forall k : unit -> K unit,
            kbind (PlasmaToTensorOp.init_h2d_stream context) k w =
            k tt {| client_ := client_ w; d2h_stream := d2h_stream w;
                    h2d_stream := Some []; output_tensor := output_tensor w |}).
  { intros k. unfold kbind at 1, PlasmaToTensorOp.init_h2d_stream.
    destruct w as [c d [q|] o]; simpl in Hidle; cbn [h2d_stream].
    - subst q. reflexivity.
    - rewrite Hinit. reflexivity. }
  rewrite Hstep, Hcopies.
  erewrite (kbind_silent (enqueue_h2d _)) by reflexivity.
  rewrite kbind_OP_REQUIRES_ASYNC, kbind_CHECK, Hwait. reflexivity.
Qed.

(** A kernel that runs to its end with work on [h2d_stream] and none on
    [d2h_stream]: the invocation is the kernel's run and then the run of
    that work. *)
Lemma invocation_streamed_h2d (m : K unit) (w : World) (q : list StreamOp) :
  result (m w) = Val tt ->
  default [] (d2h_stream (final (m w))) = [] ->
  h2d_stream (final (m w)) = Some q ->
  exists w',
    same_store (final (m w)) w' /\
    trace (invocation m w) = trace (m w) ++ trace (exec_all q w') /\
    result (invocation m w) = result (exec_all q w') /\
    final (invocation m w) = final (exec_all q w').
Proof.
  intros Hres Hd Hq. unfold invocation.
  assert (Hret : returning m w = m w) by (apply returning_id; rewrite Hres; discriminate).
  rewrite (kbind_run _ _ _ tt) by now rewrite Hret.
  rewrite Hret. cbn [trace final result].
  destruct (final (m w)) as [c d h o] eqn:Hfinal. cbn [d2h_stream h2d_stream] in Hd, Hq.
  subst h.
  exists {| client_ := c; d2h_stream := match d with Some _ => Some [] | None => None end;
            h2d_stream := Some []; output_tensor := o |}.
  split; [now split|].
  destruct d as [qd|]; simpl in Hd; [subst qd|].
  - split; [|split]; reflexivity.
  - split; [|split]; reflexivity.
Qed.

(** X13: on idle streams and with a device that accepts everything it is
    asked, a device Get, once the stream has run what the kernel left on it,
    has done what a host Get of the same object does: the two invocations
    leave the same trace of calls, end the same way, and leave the same
    output tensor and the same store. *)
Theorem device_get_agrees_with_host (context : OpKernelContext) (w : World) :
  idle w ->
  accepting context ->
  trace (Get_tensor GPUDevice context w) = trace (Get_tensor CPUDevice context w) /\
  result (Get_tensor GPUDevice context w) = result (Get_tensor CPUDevice context w) /\
  same_store (final (Get_tensor GPUDevice context w))
    (final (Get_tensor CPUDevice context w)).
Proof.
  intros Hidle Haccepting. unfold Get_tensor.
  destruct (result (fetch context w)) as [plasma_data|e] eqn:Hfetch.
  2:{ rewrite (invocation_ext (PlasmaToTensorOp.ComputeAsync GPUDevice context)
                 (PlasmaToTensorOp.ComputeAsync CPUDevice context) w).
      - split; [reflexivity|]. split; [reflexivity | apply same_store_refl].
      - now rewrite !Get_split, !(kbind_stops _ _ _ _ Hfetch). }
  set (w1 := final (fetch context w)).
  destruct (keeps_fetch context w) as [Hd2h Hh2d]. fold w1 in Hd2h, Hh2d.
  destruct Hidle as [Hidle_d Hidle_h].
  set (host := deliver CPUDevice context plasma_data).
  set (program := [MemcpyH2D plasma_data (to_size_t (Zlen plasma_data)); ExecuteDone]).
  assert (Hhost : PlasmaToTensorOp.ComputeAsync CPUDevice context w =
                  {| trace := trace (fetch context w) ++ trace (host w1);
                     final := final (host w1); result := result (host w1) |}).
  { now rewrite Get_split, (kbind_run _ _ _ _ Hfetch). }
  assert (Hdev : PlasmaToTensorOp.ComputeAsync GPUDevice context w =
                 {| trace := trace (fetch context w);
                    final := {| client_ := client_ w1; d2h_stream := d2h_stream w1;
                                h2d_stream := Some program;
                                output_tensor := output_tensor w1 |};
                    result := Val tt |}).
  { rewrite Get_split, (kbind_run _ _ _ _ Hfetch). fold w1.
    rewrite device_deliver_run; [|assumption | now rewrite Hh2d].
    cbn [trace final result]. now rewrite app_nil_r. }
  destruct (invocation_settled (PlasmaToTensorOp.ComputeAsync CPUDevice context) w)
    as (Htr_h & Hres_h & Hfin_h).
  { rewrite Hhost. cbn [final].
    destruct (keeps_host_deliver context plasma_data w1) as [Hkd Hkh].
    split; subst host; [now rewrite Hkd, Hd2h | now rewrite Hkh, Hh2d]. }
  { rewrite Hhost. cbn [result]. apply host_deliver_goes_on. }
  destruct (invocation_streamed_h2d (PlasmaToTensorOp.ComputeAsync GPUDevice context)
              w program)
    as (w3 & Hsame & Htr_d & Hres_d & Hfin_d).
  { now rewrite Hdev. }
  { rewrite Hdev. cbn [final d2h_stream]. now rewrite Hd2h. }
  { now rewrite Hdev. }
  rewrite Hdev in Hsame, Htr_d. cbn [trace final] in Hsame, Htr_d.
  assert (Hexec : exec_all program w3 = host w3).
  { subst program host. unfold deliver. cbn [exec_all exec_op].
    apply kbind_ext. intros _ w'. apply kbind_kret_r. }
  rewrite Hexec in Htr_d, Hres_d, Hfin_d.
  destruct (blind_host_deliver context plasma_data w3 w1) as (Htr & Hres & Hfin).
  { apply same_store_sym. destruct Hsame as [Hc Ho]. now split. }
  fold host in Htr, Hres, Hfin.
  rewrite Htr_h, Hres_h, Htr_d, Hres_d, Hfin_d, Hhost. cbn [trace result final].
  rewrite Htr, Hres. split; [reflexivity|]. split; [reflexivity|].
  apply same_store_trans with (final (host w1)); [exact Hfin|].
  rewrite Hhost in Hfin_h. exact Hfin_h.
Qed.

(** A device Get of a sealed object of eight bytes, next to the host Get. *)
Lemma device_get_agrees_with_host_witness :
  let context := sample_context [string_tensor [sample_id]] in
  let w := sealed_world (repeat x01 8) in
  trace (Get_tensor GPUDevice context w) = trace (Get_tensor CPUDevice context w) /\
  result (Get_tensor GPUDevice context w) = result (Get_tensor CPUDevice context w) /\
  same_store (final (Get_tensor GPUDevice context w))
    (final (Get_tensor CPUDevice context w)).
Proof.
  intros context w.
  apply (device_get_agrees_with_host context w).
  - split; reflexivity.
  - repeat split; reflexivity.
Defined.

(** ** tf_dtype_to_arrow *)

(** X14: [tf_dtype_to_arrow] keeps the types it accepts apart: two
    TensorFlow types that it maps to one Arrow type are the same type.  Every
    type it accepts has elements of a fixed, positive width, and every type
    it does not accept ends the process with a TypeError. *)
Theorem tf_dtype_to_arrow_one_to_one :
  (forall d1 d2 a,
     tf_dtype_to_arrow d1 = Passed a -> tf_dtype_to_arrow d2 = Passed a -> d1 = d2) /\
  (forall d a, tf_dtype_to_arrow d = Passed a -> 0 < DataTypeSize d) /\
  (forall d f, tf_dtype_to_arrow d = Died f -> f = ArrowCheckFailure TypeError).
Proof.
  split; [|split].
  - intros d1 d2 a H1 H2.
    destruct d1; simpl in H1; try discriminate; injection H1 as <-;
      destruct d2; simpl in H2; try discriminate; reflexivity.
  - intros d a Hd. destruct d; simpl in Hd; try discriminate; reflexivity.
  - intros d f Hd. destruct d; simpl in Hd; try discriminate; now injection Hd as <-.
Qed.

(** ** tensor_util.cc: errors and bounds *)

Section TensorUtilBounds.
Context `{WireFormat}.

(** The fixed-size writer checks nothing: a sequence of writes that fits is
    done, one that does not fit runs past the end of the buffer. *)
Lemma write_all_fixed_bounds (chunks : list (list byte)) :
  forall data position,
    0 <= position <= Zlen data ->
    write_all {| mutable_data := data; position := position |} chunks =
    if position + Zlen (concat chunks) <=? Zlen data
    then Ok {| mutable_data := take (Z.to_nat position) data ++ concat chunks
                                 ++ drop (Z.to_nat position + length (concat chunks)) data;
               position := position + Zlen (concat chunks) |}
    else Undefined.
Proof.
  induction chunks as [|c cs IH]; intros data pos Hpos.
  - cbn [write_all concat]. change (Zlen (@nil byte)) with 0. rewrite Z.add_0_r.
    replace (pos <=? Zlen data) with true by (symmetry; apply Z.leb_le; lia).
    cbn [length app]. rewrite Nat.add_0_r, take_drop. reflexivity.
  - cbn [write_all concat]. unfold Write at 1. cbn [FixedSizeBufferWriter_sink].
    cbn [mutable_data position]. unfold memcpy.
    pose proof (Zlen_nonneg c) as Hc. pose proof (Zlen_nonneg (concat cs)) as Hcs.
    rewrite Zlen_app.
    destruct (pos + Zlen c <=? Zlen data) eqn:Hfit.
    + apply Z.leb_le in Hfit.
      replace (0 <=? pos) with true by (symmetry; apply Z.leb_le; lia).
      cbn [andb obind].
      set (data' := take (Z.to_nat pos) data ++ c ++ drop (Z.to_nat pos + length c) data).
      assert (Hlen : Zlen data' = Zlen data).
      { subst data'. unfold Zlen in *.
        rewrite !length_app, length_take, length_drop. lia. }
      rewrite IH by lia. rewrite Hlen, Z.add_assoc.
      destruct (pos + Zlen c + Zlen (concat cs) <=? Zlen data) eqn:Hfit'; [|reflexivity].
      apply Z.leb_le in Hfit'. f_equal.
      assert (Htake : take (Z.to_nat (pos + Zlen c)) data' = take (Z.to_nat pos) data ++ c).
      { subst data'. rewrite app_assoc.
        replace (Z.to_nat (pos + Zlen c))
          with (length (take (Z.to_nat pos) data ++ c))
          by (rewrite length_app, length_take; unfold Zlen in *; lia).
        apply take_app_length. }
      assert (Hdrop : drop (Z.to_nat (pos + Zlen c) + length (concat cs)) data' =
                      drop (Z.to_nat pos + length (c ++ concat cs)) data).
      { subst data'. rewrite app_assoc.
        replace (Z.to_nat (pos + Zlen c) + length (concat cs))%nat
          with (length (take (Z.to_nat pos) data ++ c) + length (concat cs))%nat
          by (rewrite length_app, length_take; unfold Zlen in *; lia).
        rewrite drop_app_add, drop_drop. f_equal.
        rewrite length_app. lia. }
      rewrite Htake, Hdrop, <- !app_assoc. reflexivity.
    + apply Z.leb_gt in Hfit.
      replace (pos + (Zlen c + Zlen (concat cs)) <=? Zlen data) with false
        by (symmetry; apply Z.leb_gt; lia).
      now rewrite andb_false_r.
Qed.
End TensorUtilBounds.

(** X15: [TensorFlowTensorGetHeaderSize] reports the least size of a buffer
    that [TensorFlowTensorWrite] can fill in.  Into a buffer of at least
    that many bytes the header is written at the start, the rest of the
    buffer and its length are kept, and the offset returned is the size;
    into a shorter buffer the write runs past the end, which no status
    reports. *)
Theorem TensorWrite_needs_HeaderSize_bytes `{WireFormat} (dtype : ArrowType)
    (shape : list Z) (header_size : Z) (buffer : list byte) :
  TensorFlowTensorGetHeaderSize dtype shape = Ok header_size ->
  (Zlen buffer < header_size ->
   TensorFlowTensorWrite dtype shape buffer = Undefined) /\
  (header_size <= Zlen buffer ->
   exists hdr,
     header_bytes dtype shape = Ok hdr /\
     Zlen hdr = header_size /\
     TensorFlowTensorWrite dtype shape buffer =
       Ok (hdr ++ drop (length hdr) buffer, header_size) /\
     length (hdr ++ drop (length hdr) buffer) = length buffer).
Proof.
  intros Hsize. rewrite HeaderSize_is_header_length in Hsize.
  unfold header_bytes in *. unfold TensorFlowTensorWrite, WriteTo, FixedSizeBufferWriter_new.
  destruct (SerializeTensor (empty_tensor dtype shape)) as [s| |]; try discriminate.
  cbn [obind] in *. injection Hsize as <-.
  pose proof (Zlen_nonneg buffer) as Hbuf.
  rewrite write_all_fixed_bounds by lia. rewrite Z.add_0_l. split.
  - intros Hshort.
    replace (Zlen (concat (wire_chunks s)) <=? Zlen buffer) with false
      by (symmetry; apply Z.leb_gt; lia).
    reflexivity.
  - intros Hfits. exists (concat (wire_chunks s)).
    replace (Zlen (concat (wire_chunks s)) <=? Zlen buffer) with true
      by (symmetry; apply Z.leb_le; lia).
    cbn [obind Tell FixedSizeBufferWriter_sink mutable_data position Z.to_nat take app].
    split; [reflexivity|]. split; [reflexivity|]. split; [reflexivity|].
    rewrite length_app, length_drop. unfold Zlen in *. lia.
Qed.

(** A header of eight bytes and buffers of twelve and of four. *)
Lemma TensorWrite_needs_HeaderSize_bytes_witness :
  (Zlen (repeat x00 4) < 8 ->
   @TensorFlowTensorWrite sample_format float32 [1] (repeat x00 4) = Undefined) /\
  (8 <= Zlen (repeat x00 4) ->
   exists hdr,
     @header_bytes sample_format float32 [1] = Ok hdr /\
     Zlen hdr = 8 /\
     @TensorFlowTensorWrite sample_format float32 [1] (repeat x00 4) =
       Ok (hdr ++ drop (length hdr) (repeat x00 4), 8) /\
     length (hdr ++ drop (length hdr) (repeat x00 4)) = length (repeat x00 4)).
Proof.
  apply (@TensorWrite_needs_HeaderSize_bytes sample_format float32 [1] 8 (repeat x00 4)).
  reflexivity.
Defined.

(** X16: when the serializer rejects the header (the tensor of the inputs'
    type and of shape [[total_bytes / sizeof(float)]]), both functions of
    tensor_util.cc return its status, and a Put that has passed its checks
    ends the process with that status right after asking for the header
    size: [Create] is not called and the store is left as it was. *)
Theorem put_header_refused `{WireFormat} (device : Device) (context : OpKernelContext)
    (w : World) (input0 : Tensor) (others : list Tensor) (plasma_object_id : Tensor)
    (object_id : ObjectID) (arrow_dtype : ArrowType) (code : StatusCode) :
  let tensors := input0 :: others in
  let shape := [sum_bytes tensors / sizeof_float] in
  inputs context = tensors ++ [plasma_object_id] ->
  Forall (fun t => dtype t = dtype input0) others ->
  Forall size_checks tensors ->
  names_object plasma_object_id object_id ->
  tf_dtype_to_arrow (dtype input0) = Passed arrow_dtype ->
  sum_bytes tensors < 2 ^ 64 ->
  SerializeTensor (empty_tensor arrow_dtype shape) = Error code ->
  TensorFlowTensorGetHeaderSize arrow_dtype shape = Error code /\
  (forall buffer, TensorFlowTensorWrite arrow_dtype shape buffer = Error code) /\
  TensorToPlasmaOp.ComputeAsync device context w =
    {| trace := [CallGetHeaderSize arrow_dtype shape]; final := w;
       result := Stop (Aborted (ArrowCheckFailure code)) |}.
Proof.
  intros tensors shape Hinputs Hsame Hchecks Hid Harrow Hfit Hserialize.
  assert (Hsize : TensorFlowTensorGetHeaderSize arrow_dtype shape = Error code)
    by (unfold TensorFlowTensorGetHeaderSize; now rewrite Hserialize).
  split; [exact Hsize|]. split.
  { intros buffer. unfold TensorFlowTensorWrite. now rewrite Hserialize. }
  pose proof (sum_bytes_nonneg _ Hchecks) as Hsum.
  assert (Harity : 2 <= Zlen (inputs context)).
  { rewrite Hinputs. unfold Zlen. rewrite length_app. simpl. lia. }
  destruct (inputs_split _ Harity) as (input0' & others' & id & Hsplit & Htake & Hlast).
  rewrite Hinputs in Hsplit. apply app_inj_tail in Hsplit as [[= <- <-] <-].
  assert (Htotal : final_total 0 tensors = sum_bytes tensors).
  { rewrite final_total_sum. subst tensors. cbv iota. rewrite Z.add_0_l.
    apply to_size_t_small. lia. }
  assert (Hshape : to_int64 (sum_bytes tensors / sizeof_float) =
                   sum_bytes tensors / sizeof_float).
  { apply to_int64_small. unfold sizeof_float.
    pose proof (Z.div_pos (sum_bytes tensors) 4 ltac:(lia) ltac:(lia)).
    assert (sum_bytes tensors / 4 < 2 ^ 62) by (apply Z.div_lt_upper_bound; lia). lia. }
  assert (Hstage : TensorToPlasmaOp.stage context w =
                   {| trace := [CallGetHeaderSize arrow_dtype shape]; final := w;
                      result := Stop (Aborted (ArrowCheckFailure code)) |}).
  { unfold TensorToPlasmaOp.stage. rewrite kbind_OP_REQUIRES_ASYNC.
    replace (2 <=? Zlen (inputs context)) with true by (symmetry; now apply Z.leb_le).
    rewrite Htake, Hlast, kbind_checked.
    fold tensors. rewrite (offsets_loop_passed tensors [0] 0 Hchecks).
    subst tensors. cbv iota beta. rewrite kbind_checked.
    replace (TensorToPlasmaOp.dtype_loop (dtype input0) others) with (Passed tt)
      by (symmetry; now apply dtype_loop_passed).
    rewrite (kbind_decode_id _ object_id) by assumption.
    rewrite Harrow, kbind_checked, Htotal, Hshape. fold shape.
    rewrite kbind_emit, Hsize. reflexivity. }
  unfold TensorToPlasmaOp.ComputeAsync, kbind. now rewrite Hstage.
Qed.

(** A Put of three floats with a serializer that takes two at most. *)
Lemma put_header_refused_witness :
  let context := sample_context [float_tensor (repeat x01 12); string_tensor [sample_id]] in
  @TensorFlowTensorGetHeaderSize small_format float32 [3] = Error Invalid /\
  (forall buffer, @TensorFlowTensorWrite small_format float32 [3] buffer = Error Invalid) /\
  @TensorToPlasmaOp.ComputeAsync small_format CPUDevice context empty_world =
    {| trace := [CallGetHeaderSize float32 [3]]; final := empty_world;
       result := Stop (Aborted (ArrowCheckFailure Invalid)) |}.
Proof.
  intros context.
  apply (@put_header_refused small_format CPUDevice context empty_world
           (float_tensor (repeat x01 12)) [] (string_tensor [sample_id]) sample_id
           float32 Invalid).
  - reflexivity.
  - constructor.
  - repeat constructor.
  - exact sample_id_names.
  - reflexivity.
  - reflexivity.
  - reflexivity.
Defined.

(** ** Kernel construction and destruction *)

Lemma connects_of_app owner tr1 tr2 :
  connects_of owner (tr1 ++ tr2) = connects_of owner tr1 ++ connects_of owner tr2.
Proof.
  induction tr1 as [|e tr1 IH]; [reflexivity|].
  destruct e; simpl; try exact IH.
  destruct (decide (owner0 = owner)); simpl; now rewrite IH.
Qed.

Lemma run_life_cons op ops p :
  setup_exit (life_op op p) = None ->
  run_life (op :: ops) p =
  {| setup_trace := setup_trace (life_op op p)
                      ++ setup_trace (run_life ops (setup_final (life_op op p)));
     setup_final := setup_final (run_life ops (setup_final (life_op op p)));
     setup_object := tt;
     setup_exit := setup_exit (run_life ops (setup_final (life_op op p))) |}.
Proof. intros Hexit. cbn [run_life]. now rewrite Hexit. Qed.

Lemma run_life_exit op ops p :
  setup_exit (run_life (op :: ops) p) = None ->
  setup_exit (life_op op p) = None /\
  setup_exit (run_life ops (setup_final (life_op op p))) = None.
Proof.
  cbn [run_life]. destruct (setup_exit (life_op op p)) as [e|] eqn:Hexit.
  - rewrite Hexit. discriminate.
  - intros Hrest. now split.
Qed.

(** What one step does to the statics the other lemmas follow. *)
Lemma life_op_statics op p :
  setup_exit (life_op op p) = None ->
  let p' := setup_final (life_op op p) in
  world p' = world p /\
  (connected_ p = true ->
   connected_ p' = true /\
   connects_of SharedClient (setup_trace (life_op op p)) = [] /\
   (session p = None -> session p' = None)) /\
  (d2h_stream_deleted p = true -> d2h_stream_deleted p' = true) /\
  (h2d_stream_deleted p = true -> h2d_stream_deleted p' = true).
Proof.
  destruct op as [construction|this status|construction|status];
    cbn [life_op setup_exit setup_final setup_trace].
  - unfold TensorToPlasmaOp_new.
    destruct (GetAttr_plasma_store_socket_name construction) as [e|store];
      [intros _; now repeat split|].
    destruct (GetAttr_plasma_manager_socket_name construction) as [e|manager];
      [intros _; now repeat split|].
    cbn [put_connected_].
    destruct (Connect store manager (Connect_status construction));
      cbn [setup_exit setup_final setup_trace]; [|discriminate..].
    intros _. now repeat split.
  - unfold TensorToPlasmaOp_delete.
    destruct (Disconnect status); cbn [setup_exit setup_final setup_trace];
      [|discriminate..].
    unfold delete_stream. destruct (d2h_stream (world p)); [|intros _; now repeat split].
    destruct (d2h_stream_deleted p); cbn [setup_exit setup_final setup_trace];
      [discriminate|].
    intros _. now repeat split.
  - unfold PlasmaToTensorOp_new.
    destruct (GetAttr_plasma_store_socket_name construction) as [e|store];
      [intros _; now repeat split|].
    destruct (GetAttr_plasma_manager_socket_name construction) as [e|manager];
      [intros _; now repeat split|].
    destruct (connected_ p) eqn:Hconnected; [intros _; now repeat split|].
    destruct (Connect store manager (Connect_status construction));
      cbn [setup_exit setup_final setup_trace]; [|discriminate..].
    intros _. split; [reflexivity|]. split; [discriminate | now split].
  - unfold PlasmaToTensorOp_delete.
    destruct (Disconnect status) as [s| |] eqn:Hstatus;
      cbn [setup_exit setup_final setup_trace]; [|discriminate..].
    assert (Hs : s = None) by (destruct status; [discriminate | now injection Hstatus]).
    subst s. unfold delete_stream. cbn [world h2d_stream_deleted].
    destruct (h2d_stream (world p)); [|intros _; now repeat split].
    destruct (h2d_stream_deleted p); cbn [setup_exit setup_final setup_trace];
      [discriminate|].
    intros _. now repeat split.
Qed.

(** Once the flag is set the static client is not connected again. *)
Lemma connected_stays ops : forall p,
  connected_ p = true ->
  setup_exit (run_life ops p) = None ->
  connected_ (setup_final (run_life ops p)) = true /\
  connects_of SharedClient (setup_trace (run_life ops p)) = [] /\
  (session p = None -> session (setup_final (run_life ops p)) = None).
Proof.
  induction ops as [|op ops IH]; intros p Hconnected Hexit; [now repeat split|].
  destruct (run_life_exit _ _ _ Hexit) as [Hop Hrest].
  rewrite (run_life_cons _ _ _ Hop). cbn [setup_final setup_trace].
  destruct (life_op_statics op p Hop) as (_ & Hshared & _).
  destruct (Hshared Hconnected) as (Hconnected' & Hnone & Hsession).
  destruct (IH _ Hconnected' Hrest) as (Hc & Hn & Hs).
  split; [exact Hc|]. split; [now rewrite connects_of_app, Hnone, Hn|].
  intros Hp. apply Hs, Hsession, Hp.
Qed.

Lemma run_life_app ops1 : forall ops2 p,
  setup_exit (run_life (ops1 ++ ops2) p) = None ->
  setup_exit (run_life ops1 p) = None /\
  setup_exit (run_life ops2 (setup_final (run_life ops1 p))) = None /\
  setup_trace (run_life (ops1 ++ ops2) p) =
    setup_trace (run_life ops1 p)
      ++ setup_trace (run_life ops2 (setup_final (run_life ops1 p))) /\
  setup_final (run_life (ops1 ++ ops2) p) =
    setup_final (run_life ops2 (setup_final (run_life ops1 p))).
Proof.
  induction ops1 as [|op ops1 IH]; intros ops2 p Hexit; [now repeat split|].
  rewrite <- app_comm_cons in Hexit |- *.
  destruct (run_life_exit _ _ _ Hexit) as [Hop Hrest].
  rewrite !(run_life_cons _ _ _ Hop). cbn [setup_exit setup_trace setup_final].
  destruct (IH _ _ Hrest) as (H1 & H2 & Htrace & Hfinal).
  split; [exact H1|]. split; [exact H2|].
  split; [now rewrite Htrace, app_assoc | exact Hfinal].
Qed.

(** X17: of the Get kernels of a process the first one constructed with
    both socket names connects the static client, and it is the only one
    that does: whatever is constructed or destroyed after it, with whatever
    socket names, no other [Connect] is made on that client.  A later Get
    kernel works on the connection to the first kernel's store. *)
Theorem get_kernels_share_first_connection (construction : OpKernelConstruction)
    (store manager : string) (rest : list LifeOp) (p : Process) :
  connected_ p = false ->
  socket_names construction = Some (store, manager) ->
  Connect_status construction = None ->
  setup_exit (run_life (NewGet construction :: rest) p) = None ->
  connects_of SharedClient (setup_trace (run_life (NewGet construction :: rest) p)) =
    [(store, manager)] /\
  connected_ (setup_final (run_life (NewGet construction :: rest) p)) = true.
Proof.
  intros Hfresh Hnames Hstatus Hexit.
  destruct (run_life_exit _ _ _ Hexit) as [Hop Hrest].
  rewrite (run_life_cons _ _ _ Hop). cbn [setup_trace setup_final].
  assert (Hnew : setup_trace (life_op (NewGet construction) p) =
                   [CallConnect SharedClient store manager] /\
                 connected_ (setup_final (life_op (NewGet construction) p)) = true).
  { cbn [life_op setup_trace setup_final]. unfold PlasmaToTensorOp_new.
    unfold socket_names in Hnames.
    destruct (GetAttr_plasma_store_socket_name construction) as [e|s]; [discriminate|].
    destruct (GetAttr_plasma_manager_socket_name construction) as [e|m]; [discriminate|].
    injection Hnames as -> ->. rewrite Hfresh, Hstatus. now split. }
  destruct Hnew as [Htrace Hconnected].
  destruct (connected_stays rest _ Hconnected Hrest) as (Hc & Hn & _).
  rewrite connects_of_app, Htrace, Hn. now split.
Qed.

(** Two Get kernels given different stores. *)
Lemma get_kernels_share_first_connection_witness :
  let ops := [NewGet (sample_construction "/tmp/store1" "/tmp/manager1");
              NewGet (sample_construction "/tmp/store2" "/tmp/manager2")] in
  connects_of SharedClient (setup_trace (run_life ops (process_start empty_world))) =
    [("/tmp/store1", "/tmp/manager1")] /\
  connected_ (setup_final (run_life ops (process_start empty_world))) = true.
Proof.
  intros ops.
  apply (get_kernels_share_first_connection
           (sample_construction "/tmp/store1" "/tmp/manager1")
           "/tmp/store1" "/tmp/manager1"
           [NewGet (sample_construction "/tmp/store2" "/tmp/manager2")]
           (process_start empty_world)); reflexivity.
Defined.

Lemma DeleteGet_disconnects status p :
  setup_exit (life_op (DeleteGet status) p) = None ->
  session (setup_final (life_op (DeleteGet status) p)) = None.
Proof.
  cbn [life_op]. unfold PlasmaToTensorOp_delete.
  destruct status as [c|]; cbn [Disconnect setup_exit setup_final]; [discriminate|].
  unfold delete_stream. cbn [world h2d_stream_deleted].
  destruct (h2d_stream (world p)); [|reflexivity].
  destruct (h2d_stream_deleted p); [discriminate | reflexivity].
Qed.

(** X18: the destructor of a Get kernel disconnects the static client and
    leaves [connected_] set.  So once a Get kernel has connected the client
    and any Get kernel has been destroyed, the client is disconnected for
    the rest of the process: no Get kernel constructed later connects it
    again, and the kernels that are still there have lost their
    connection. *)
Theorem shared_client_stays_disconnected (before : list LifeOp)
    (status : option StatusCode) (after : list LifeOp) (p : Process) :
  connected_ p = true ->
  setup_exit (run_life (before ++ DeleteGet status :: after) p) = None ->
  session (setup_final (run_life (before ++ DeleteGet status :: after) p)) = None /\
  connected_ (setup_final (run_life (before ++ DeleteGet status :: after) p)) = true /\
  connects_of SharedClient
    (setup_trace (run_life (before ++ DeleteGet status :: after) p)) = [].
Proof.
  intros Hconnected Hexit.
  destruct (connected_stays _ _ Hconnected Hexit) as (Hc & Hn & _).
  split; [|now split].
  destruct (run_life_app _ _ _ Hexit) as (Hbefore & Hrest & _ & ->).
  destruct (connected_stays _ _ Hconnected Hbefore) as (Hc1 & _ & _).
  set (p1 := setup_final (run_life before p)) in *.
  destruct (run_life_exit _ _ _ Hrest) as [Hop Hafter].
  rewrite (run_life_cons _ _ _ Hop). cbn [setup_final].
  destruct (life_op_statics _ _ Hop) as (_ & Hshared & _).
  destruct (Hshared Hc1) as (Hc2 & _ & _).
  destruct (connected_stays _ _ Hc2 Hafter) as (_ & _ & Hsession).
  apply Hsession, DeleteGet_disconnects, Hop.
Qed.

(** One Get kernel constructed and destroyed, then another constructed. *)
Lemma shared_client_stays_disconnected_witness :
  let p := setup_final (PlasmaToTensorOp_new (sample_construction "/tmp/store" "/tmp/manager")
                          (process_start empty_world)) in
  let ops := DeleteGet None :: [NewGet (sample_construction "/tmp/store" "/tmp/manager")] in
  session (setup_final (run_life ([] ++ ops) p)) = None /\
  connected_ (setup_final (run_life ([] ++ ops) p)) = true /\
  connects_of SharedClient (setup_trace (run_life ([] ++ ops) p)) = [].
Proof.
  intros p ops.
  apply (shared_client_stays_disconnected [] None
           [NewGet (sample_construction "/tmp/store" "/tmp/manager")] p); reflexivity.
Defined.

(** X19: a Put kernel has a client of its own.  Every Put kernel
    constructed with both socket names connects it, whether or not the
    static client or another Put kernel is connected, so a process makes one
    connection per Put kernel; and constructing and destroying Put kernels
    leaves the static flag and the static client's session as they were. *)
Theorem put_kernels_connect_their_own (ops : list LifeOp) (p : Process) :
  setup_exit (run_life ops p) = None ->
  connects_of OwnClient (setup_trace (run_life ops p)) = put_socket_names ops /\
  (Forall is_put_op ops ->
   connected_ (setup_final (run_life ops p)) = connected_ p /\
   session (setup_final (run_life ops p)) = session p).
Proof.
  revert p. induction ops as [|op ops IH]; intros p Hexit.
  - split; [reflexivity|]. intros _. now split.
  - destruct (run_life_exit _ _ _ Hexit) as [Hop Hrest].
    rewrite (run_life_cons _ _ _ Hop). cbn [setup_trace setup_final].
    destruct (IH _ Hrest) as [Hown Hshared]. rewrite connects_of_app, Hown.
    assert (Hstep : connects_of OwnClient (setup_trace (life_op op p)) ++ put_socket_names ops =
                      put_socket_names (op :: ops) /\
                    (is_put_op op ->
                     connected_ (setup_final (life_op op p)) = connected_ p /\
                     session (setup_final (life_op op p)) = session p)).
    { clear IH Hown Hshared Hexit Hrest. revert Hop.
      destruct op as [construction|this status|construction|status];
        cbn [life_op setup_exit setup_final setup_trace put_socket_names is_put_op].
      - unfold TensorToPlasmaOp_new, socket_names.
        destruct (GetAttr_plasma_store_socket_name construction) as [e|store];
          [intros _; now split|].
        destruct (GetAttr_plasma_manager_socket_name construction) as [e|manager];
          [intros _; now split|].
        cbn [put_connected_].
        destruct (Connect store manager (Connect_status construction));
          cbn [setup_exit setup_final setup_trace]; [|discriminate..].
        intros _. now split.
      - unfold TensorToPlasmaOp_delete.
        destruct (Disconnect status); cbn [setup_exit setup_final setup_trace];
          [|discriminate..].
        unfold delete_stream. destruct (d2h_stream (world p)); [|intros _; now split].
        destruct (d2h_stream_deleted p); cbn [setup_exit setup_final setup_trace];
          [discriminate|].
        intros _. now split.
      - unfold PlasmaToTensorOp_new.
        destruct (GetAttr_plasma_store_socket_name construction) as [e|store];
          [intros _; now split|].
        destruct (GetAttr_plasma_manager_socket_name construction) as [e|manager];
          [intros _; now split|].
        destruct (connected_ p); [intros _; now split|].
        destruct (Connect store manager (Connect_status construction));
          cbn [setup_exit setup_final setup_trace]; [|discriminate..].
        intros _. now split.
      - unfold PlasmaToTensorOp_delete.
        destruct (Disconnect status); cbn [setup_exit setup_final setup_trace];
          [|discriminate..].
        unfold delete_stream. cbn [world h2d_stream_deleted].
        destruct (h2d_stream (world p)); [|intros _; now split].
        destruct (h2d_stream_deleted p); cbn [setup_exit setup_final setup_trace];
          [discriminate|].
        intros _. now split. }
    destruct Hstep as [Hnames Hkeeps]. split; [exact Hnames|].
    intros Hput. inversion Hput as [|? ? Hop_put Hops_put]; subst.
    destruct (Hshared Hops_put) as [-> ->]. now apply Hkeeps.
Qed.

(** Two Put kernels given different stores. *)
Lemma put_kernels_connect_their_own_witness :
  let ops := [NewPut (sample_construction "/tmp/store1" "/tmp/manager1");
              NewPut (sample_construction "/tmp/store2" "/tmp/manager2")] in
  connects_of OwnClient (setup_trace (run_life ops (process_start empty_world))) =
    put_socket_names ops /\
  (Forall is_put_op ops ->
   connected_ (setup_final (run_life ops (process_start empty_world))) =
     connected_ (process_start empty_world) /\
   session (setup_final (run_life ops (process_start empty_world))) =
     session (process_start empty_world)).
Proof.
  intros ops. apply (put_kernels_connect_their_own ops (process_start empty_world)).
  reflexivity.
Defined.

(** What is left of the deletions a process can still make. *)
Lemma run_life_deletes ops : forall p,
  setup_exit (run_life ops p) = None ->
  world (setup_final (run_life ops p)) = world p /\
  (d2h_stream (world p) <> None ->
   (put_deletes ops + (if d2h_stream_deleted p then 1 else 0) <= 1)%nat) /\
  (h2d_stream (world p) <> None ->
   (get_deletes ops + (if h2d_stream_deleted p then 1 else 0) <= 1)%nat).
Proof.
  induction ops as [|op ops IH]; intros p Hexit.
  - split; [reflexivity|]. split; intros _; cbn [put_deletes get_deletes];
      [destruct (d2h_stream_deleted p) | destruct (h2d_stream_deleted p)]; lia.
  - destruct (run_life_exit _ _ _ Hexit) as [Hop Hrest].
    rewrite (run_life_cons _ _ _ Hop). cbn [setup_final].
    destruct (IH _ Hrest) as (Hworld & Hd2h & Hh2d).
    destruct (life_op_statics op p Hop) as (Hw & _ & Hdd & Hhd).
    rewrite Hw in Hworld, Hd2h, Hh2d. split; [exact Hworld|].
    revert Hop Hd2h Hh2d Hdd Hhd.
    destruct op as [construction|this status|construction|status];
      cbn [put_deletes get_deletes].
    + intros _ Hd2h Hh2d Hdd Hhd. split; intros Hptr.
      * specialize (Hd2h Hptr). destruct (d2h_stream_deleted p); [|lia].
        rewrite (Hdd eq_refl) in Hd2h. exact Hd2h.
      * specialize (Hh2d Hptr). destruct (h2d_stream_deleted p); [|lia].
        rewrite (Hhd eq_refl) in Hh2d. exact Hh2d.
    + cbn [life_op setup_exit setup_final]. unfold TensorToPlasmaOp_delete.
      destruct (Disconnect status); cbn [setup_exit setup_final]; [|discriminate..].
      unfold delete_stream.
      destruct (d2h_stream (world p)) as [q|] eqn:Hq.
      * destruct (d2h_stream_deleted p); cbn [setup_exit setup_final]; [discriminate|].
        cbn [d2h_stream_deleted h2d_stream_deleted].
        intros _ Hd2h Hh2d _ _. split; intros Hptr.
        -- specialize (Hd2h Hptr). lia.
        -- exact (Hh2d Hptr).
      * cbn [setup_exit setup_final]. intros _ Hd2h Hh2d _ _. split; intros Hptr.
        -- now destruct Hptr.
        -- exact (Hh2d Hptr).
    + intros _ Hd2h Hh2d Hdd Hhd. split; intros Hptr.
      * specialize (Hd2h Hptr). destruct (d2h_stream_deleted p); [|lia].
        rewrite (Hdd eq_refl) in Hd2h. exact Hd2h.
      * specialize (Hh2d Hptr). destruct (h2d_stream_deleted p); [|lia].
        rewrite (Hhd eq_refl) in Hh2d. exact Hh2d.
    + cbn [life_op setup_exit setup_final]. unfold PlasmaToTensorOp_delete.
      destruct (Disconnect status); cbn [setup_exit setup_final]; [|discriminate..].
      unfold delete_stream. cbn [world h2d_stream_deleted d2h_stream_deleted].
      destruct (h2d_stream (world p)) as [q|] eqn:Hq.
      * destruct (h2d_stream_deleted p); cbn [setup_exit setup_final]; [discriminate|].
        cbn [d2h_stream_deleted h2d_stream_deleted].
        intros _ Hd2h Hh2d _ _. split; intros Hptr.
        -- exact (Hd2h Hptr).
        -- specialize (Hh2d Hptr). lia.
      * cbn [setup_exit setup_final d2h_stream_deleted h2d_stream_deleted].
        intros _ Hd2h Hh2d _ _. split; intros Hptr.
        -- exact (Hd2h Hptr).
        -- now destruct Hptr.
Qed.

Lemma deleted_stays ops : forall p,
  setup_exit (run_life ops p) = None ->
  (d2h_stream_deleted p = true ->
   d2h_stream_deleted (setup_final (run_life ops p)) = true) /\
  (h2d_stream_deleted p = true ->
   h2d_stream_deleted (setup_final (run_life ops p)) = true).
Proof.
  induction ops as [|op ops IH]; intros p Hexit; [now split|].
  destruct (run_life_exit _ _ _ Hexit) as [Hop Hrest].
  rewrite (run_life_cons _ _ _ Hop). cbn [setup_final].
  destruct (life_op_statics op p Hop) as (_ & _ & Hdd & Hhd).
  destruct (IH _ Hrest) as [Hd Hh]. split; auto.
Qed.

Lemma put_deletes_pos ops :
  (0 < put_deletes ops)%nat ->
  exists before this status after, ops = before ++ DeletePut this status :: after.
Proof.
  induction ops as [|op ops IH]; cbn [put_deletes]; [lia|].
  destruct op as [c|this status|c|status].
  2:{ intros _. now exists [], this, status, ops. }
  all: intros Hpos; destruct (IH Hpos) as (before & this & st & after & ->).
  - now exists (NewPut c :: before), this, st, after.
  - now exists (NewGet c :: before), this, st, after.
  - now exists (DeleteGet status :: before), this, st, after.
Qed.

Lemma get_deletes_pos ops :
  (0 < get_deletes ops)%nat ->
  exists before status after, ops = before ++ DeleteGet status :: after.
Proof.
  induction ops as [|op ops IH]; cbn [get_deletes]; [lia|].
  destruct op as [c|this status|c|status].
  4:{ intros _. now exists [], status, ops. }
  all: intros Hpos; destruct (IH Hpos) as (before & st & after & ->).
  - now exists (NewPut c :: before), st, after.
  - now exists (DeletePut this status :: before), st, after.
  - now exists (NewGet c :: before), st, after.
Qed.

(** X20: the destructors [delete] the staging stream they find and leave the
    pointer as it is, so whatever comes next finds the same pointer: a
    kernel that runs after a destructor works on a deleted stream, and the
    destructor of a second kernel deletes it a second time, which is outside
    what C++ defines.  In a process that has created [d2h_stream] and goes
    on, at most one Put kernel has been destroyed, and after that the stream
    is deleted while its pointer is not null; the same holds for
    [h2d_stream] and the Get kernels. *)
Theorem staging_stream_deleted_at_most_once (ops : list LifeOp) (p : Process) :
  d2h_stream_deleted p = false ->
  h2d_stream_deleted p = false ->
  setup_exit (run_life ops p) = None ->
  world (setup_final (run_life ops p)) = world p /\
  (d2h_stream (world p) <> None ->
   (put_deletes ops <= 1)%nat /\
   ((0 < put_deletes ops)%nat ->
    d2h_stream_deleted (setup_final (run_life ops p)) = true)) /\
  (h2d_stream (world p) <> None ->
   (get_deletes ops <= 1)%nat /\
   ((0 < get_deletes ops)%nat ->
    h2d_stream_deleted (setup_final (run_life ops p)) = true)).
Proof.
  intros Hd Hh Hexit.
  destruct (run_life_deletes ops p Hexit) as (Hworld & Hd2h & Hh2d).
  rewrite Hd in Hd2h. rewrite Hh in Hh2d.
  split; [exact Hworld|]. split; intros Hptr.
  - split; [specialize (Hd2h Hptr); lia|]. intros Hpos.
    destruct (put_deletes_pos _ Hpos) as (before & this & status & after & ->).
    destruct (run_life_app _ _ _ Hexit) as (Hbefore & Hrest & _ & ->).
    destruct (run_life_deletes _ _ Hbefore) as (Hw1 & _ & _).
    set (p1 := setup_final (run_life before p)) in *.
    destruct (run_life_exit _ _ _ Hrest) as [Hop Hafter].
    rewrite (run_life_cons _ _ _ Hop). cbn [setup_final].
    apply (deleted_stays after _ Hafter).
    revert Hop. cbn [life_op setup_exit setup_final]. unfold TensorToPlasmaOp_delete.
    destruct (Disconnect status); cbn [setup_exit setup_final]; [|discriminate..].
    unfold delete_stream. rewrite Hw1.
    destruct (d2h_stream (world p)); [|now destruct Hptr].
    destruct (d2h_stream_deleted p1); cbn [setup_exit setup_final]; [discriminate|].
    reflexivity.
  - split; [specialize (Hh2d Hptr); lia|]. intros Hpos.
    destruct (get_deletes_pos _ Hpos) as (before & status & after & ->).
    destruct (run_life_app _ _ _ Hexit) as (Hbefore & Hrest & _ & ->).
    destruct (run_life_deletes _ _ Hbefore) as (Hw1 & _ & _).
    set (p1 := setup_final (run_life before p)) in *.
    destruct (run_life_exit _ _ _ Hrest) as [Hop Hafter].
    rewrite (run_life_cons _ _ _ Hop). cbn [setup_final].
    apply (deleted_stays after _ Hafter).
    revert Hop. cbn [life_op setup_exit setup_final]. unfold PlasmaToTensorOp_delete.
    destruct (Disconnect status); cbn [setup_exit setup_final]; [|discriminate..].
    unfold delete_stream. cbn [world h2d_stream_deleted]. rewrite Hw1.
    destruct (h2d_stream (world p)); [|now destruct Hptr].
    destruct (h2d_stream_deleted p1); cbn [setup_exit setup_final]; [discriminate|].
    reflexivity.
Qed.

(** A process that has run a device Put and a device Get, and then destroys
    a Put kernel and a Get kernel. *)
Lemma staging_stream_deleted_at_most_once_witness :
  let w := final (Get_tensor GPUDevice (sample_context [string_tensor [sample_id]])
                    (final (@Put sample_format GPUDevice
                              (sample_context [float_tensor [x0a; x0b; x0c; x0d];
                                               string_tensor [sample_id]])
                              empty_world))) in
  let this := setup_object (TensorToPlasmaOp_new
                              (sample_construction "/tmp/store" "/tmp/manager")
                              (process_start w)) in
  let ops := [DeletePut this None; DeleteGet None] in
  world (setup_final (run_life ops (process_start w))) = world (process_start w) /\
  (d2h_stream (world (process_start w)) <> None ->
   (put_deletes ops <= 1)%nat /\
   ((0 < put_deletes ops)%nat ->
    d2h_stream_deleted (setup_final (run_life ops (process_start w))) = true)) /\
  (h2d_stream (world (process_start w)) <> None ->
   (get_deletes ops <= 1)%nat /\
   ((0 < get_deletes ops)%nat ->
    h2d_stream_deleted (setup_final (run_life ops (process_start w))) = true)).
Proof.
  intros w this ops.
  apply (staging_stream_deleted_at_most_once ops (process_start w)).
  - reflexivity.
  - reflexivity.
  - vm_compute. reflexivity.
Defined.

(** The second destructor of a Put kernel, in that process. *)
Lemma second_put_destructor_deletes_again :
  let w := final (@Put sample_format GPUDevice
                    (sample_context [float_tensor [x0a; x0b; x0c; x0d];
                                     string_tensor [sample_id]])
                    empty_world) in
  let this := setup_object (TensorToPlasmaOp_new
                              (sample_construction "/tmp/store" "/tmp/manager")
                              (process_start w)) in
  d2h_stream w = Some [] /\
  setup_exit (run_life [DeletePut this None; DeletePut this None] (process_start w)) =
    Some UndefinedBehavior.
Proof. vm_compute. split; reflexivity. Qed.

(** ** Get: what it hands back *)

Lemma copy_to_output_all (data out : list byte) (w : World) :
  output_tensor w = Some out ->
  length out = length data ->
  PlasmaToTensorOp.copy_to_output data (Zlen data) w =
  {| trace := [Copied 0 (Zlen data)];
     final := {| client_ := client_ w; d2h_stream := d2h_stream w;
                 h2d_stream := h2d_stream w; output_tensor := Some data |};
     result := Val tt |}.
Proof.
  intros Hout Hlen. unfold PlasmaToTensorOp.copy_to_output. rewrite Hout.
  pose proof (memcpy_middle [] out [] data Hlen) as Hcopy.
  rewrite !app_nil_r in Hcopy. cbn [app] in Hcopy.
  change (Zlen (@nil byte)) with 0 in Hcopy.
  rewrite read_bytes_all. cbn [obind]. rewrite Hcopy. reflexivity.
Qed.

Lemma get_shape (data : list byte) :
  Zlen data < 2 ^ 63 ->
  to_int64 (to_size_t (Zlen data) / sizeof_float) = Zlen data / sizeof_float /\
  to_size_t (Zlen data) = Zlen data.
Proof.
  intros Hsize. pose proof (Zlen_nonneg data) as Hnn.
  rewrite to_size_t_small by lia. split; [|reflexivity].
  apply to_int64_small. unfold sizeof_float.
  pose proof (Z.div_pos (Zlen data) 4 ltac:(lia) ltac:(lia)).
  assert (Zlen data / 4 < 2 ^ 63) by (apply Z.div_lt_upper_bound; lia). lia.
Qed.

(** X21: a host Get of a sealed object whose size is a multiple of
    [sizeof(float)] succeeds: it fetches the object, allocates an output of
    size over four elements, copies the whole object into it and calls
    [done].  The output tensor holds exactly the bytes of the object, the
    store and the streams are as they were, and no status is set. *)
Theorem host_get_returns_object_bytes (context : OpKernelContext) (w : World)
    (plasma_object_id : Tensor) (other_inputs : list Tensor) (object_id : ObjectID)
    (data : list byte) :
  inputs context = plasma_object_id :: other_inputs ->
  names_object plasma_object_id object_id ->
  Get object_id (client_ w) = Some data ->
  Zlen data < 2 ^ 63 ->
  Zlen data mod sizeof_float = 0 ->
  allocate_output_status context = None ->
  PlasmaToTensorOp.ComputeAsync CPUDevice context w =
  {| trace := [CallGet object_id; CallAllocateOutput [Zlen data / sizeof_float];
               Copied 0 (Zlen data); CallDone];
     final := {| client_ := client_ w; d2h_stream := d2h_stream w;
                 h2d_stream := h2d_stream w; output_tensor := Some data |};
     result := Val tt |}.
Proof.
  intros Hinputs Hid Hget Hsize Hdiv Halloc.
  destruct (get_shape data Hsize) as [Hshape Hbytes].
  unfold PlasmaToTensorOp.ComputeAsync. rewrite Hinputs.
  rewrite (kbind_decode_id _ object_id) by assumption.
  rewrite kbind_emit, (kbind_client_Get _ data) by assumption.
  rewrite Hshape, Hbytes.
  set (shape := [Zlen data / sizeof_float]).
  set (out := map (allocated_memory context)
                (seq 0 (Z.to_nat (sizeof_float * nth 0 shape 0)))).
  set (w' := {| client_ := client_ w; d2h_stream := d2h_stream w;
                h2d_stream := h2d_stream w; output_tensor := Some out |}).
  assert (Halloc_run : PlasmaToTensorOp.allocate_output context shape w =
                       {| trace := [CallAllocateOutput shape]; final := w';
                          result := Val tt |})
    by (unfold PlasmaToTensorOp.allocate_output; rewrite Halloc; reflexivity).
  assert (Hout : length out = length data).
  { subst out shape. rewrite length_map, length_seq. cbn [nth].
    rewrite <- (Z_div_exact_full_2 (Zlen data) sizeof_float ltac:(discriminate) Hdiv).
    apply Zlen_to_nat. }
  assert (Hres : result (PlasmaToTensorOp.allocate_output context shape w) = Val tt)
    by now rewrite Halloc_run.
  rewrite (kbind_run _ _ _ _ Hres), Halloc_run. cbn [trace result final].
  pose proof (copy_to_output_all data out w' eq_refl Hout) as Hcopy.
  assert (Hres' : result (PlasmaToTensorOp.copy_to_output data (Zlen data) w') = Val tt)
    by now rewrite Hcopy.
  rewrite (kbind_run _ _ _ _ Hres'), Hcopy. reflexivity.
Qed.

(** A host Get of a sealed object of eight bytes. *)
Lemma host_get_returns_object_bytes_witness :
  let data := [x01; x02; x03; x04; x05; x06; x07; x08] in
  let w := sealed_world data in
  PlasmaToTensorOp.ComputeAsync CPUDevice (sample_context [string_tensor [sample_id]]) w =
  {| trace := [CallGet sample_id; CallAllocateOutput [Zlen data / sizeof_float];
               Copied 0 (Zlen data); CallDone];
     final := {| client_ := client_ w; d2h_stream := d2h_stream w;
                 h2d_stream := h2d_stream w; output_tensor := Some data |};
     result := Val tt |}.
Proof.
  intros data w.
  apply (host_get_returns_object_bytes (sample_context [string_tensor [sample_id]]) w
           (string_tensor [sample_id]) [] sample_id data); try reflexivity.
  exact sample_id_names.
Defined.

(** X22: when the runtime cannot allocate the output, a Get on either device
    sets the allocator's status, calls [done] and returns: nothing is
    copied, no stream is touched and no output is produced. *)
Theorem get_allocation_failure (device : Device) (context : OpKernelContext) (w : World)
    (plasma_object_id : Tensor) (other_inputs : list Tensor) (object_id : ObjectID)
    (data : list byte) (status : TfError) :
  inputs context = plasma_object_id :: other_inputs ->
  names_object plasma_object_id object_id ->
  Get object_id (client_ w) = Some data ->
  Zlen data < 2 ^ 63 ->
  allocate_output_status context = Some status ->
  PlasmaToTensorOp.ComputeAsync device context w =
  {| trace := [CallGet object_id; CallAllocateOutput [Zlen data / sizeof_float];
               SetStatus (Some status); CallDone];
     final := w;
     result := Stop Returned |}.
Proof.
  intros Hinputs Hid Hget Hsize Halloc.
  destruct (get_shape data Hsize) as [Hshape Hbytes].
  unfold PlasmaToTensorOp.ComputeAsync. rewrite Hinputs.
  rewrite (kbind_decode_id _ object_id) by assumption.
  rewrite kbind_emit, (kbind_client_Get _ data) by assumption.
  rewrite Hshape.
  set (shape := [Zlen data / sizeof_float]).
  assert (Halloc_run : PlasmaToTensorOp.allocate_output context shape w =
                       {| trace := [CallAllocateOutput shape; SetStatus (Some status);
                                    CallDone];
                          final := w; result := Stop Returned |})
    by (unfold PlasmaToTensorOp.allocate_output; rewrite Halloc; reflexivity).
  rewrite (kbind_stops _ _ _ Returned) by now rewrite Halloc_run.
  now rewrite Halloc_run.
Qed.

(** A device Get when the allocator is out of memory. *)
Lemma get_allocation_failure_witness :
  let context := {| inputs := [string_tensor [sample_id]]; orig_stream := true;
                    allocate_output_status := Some ResourceExhausted;
                    allocated_memory := fun _ => xff; HostMemoryRegister_ok := true;
                    Stream_Init_ok := true; ThenWaitFor_ok := true;
                    ThenMemcpy_ok := fun _ => true |} in
  let w := sealed_world (repeat x01 8) in
  PlasmaToTensorOp.ComputeAsync GPUDevice context w =
  {| trace := [CallGet sample_id; CallAllocateOutput [Zlen (repeat x01 8) / sizeof_float];
               SetStatus (Some ResourceExhausted); CallDone];
     final := w;
     result := Stop Returned |}.
Proof.
  intros context w.
  apply (get_allocation_failure GPUDevice context w (string_tensor [sample_id]) []
           sample_id (repeat x01 8) ResourceExhausted); try reflexivity.
  exact sample_id_names.
Defined.

(** ** The device path of Put: a copy the device does not take *)

Section DeviceRefusal.
Context `{WireFormat}.
Import TensorToPlasmaOp.

Lemma ThenMemcpy_loop_refused context object_id offset offsets tensors :
  Forall (fun t => dtype t = DT_FLOAT) tensors ->
  forall k i w q,
    d2h_stream w = Some q ->
    (k < length tensors)%nat ->
    ThenMemcpy_ok context (i + k) = false ->
    (forall j, (j < k)%nat -> ThenMemcpy_ok context (i + j) = true) ->
    ThenMemcpy_loop context object_id offset offsets i tensors w =
    {| trace := [SetStatus (Some Internal); CallDone];
       final := {| client_ := client_ w;
                   d2h_stream := Some (q ++ take k (copies_from object_id offset offsets i
                                                      tensors));
                   h2d_stream := h2d_stream w; output_tensor := output_tensor w |};
       result := Stop Returned |}.
Proof.
  intros Hfloat. induction Hfloat as [|t rest Hty _ IH]; intros k i w q Hq Hk Hno Hyes.
  - simpl in Hk. lia.
  - cbn [ThenMemcpy_loop copies_from]. rewrite kbind_checked. unfold flat.
    rewrite decide_True by exact Hty.
    destruct k as [|k].
    + rewrite Nat.add_0_r in Hno. rewrite Hno, kbind_kret, kbind_OP_REQUIRES_ASYNC.
      cbn [take]. rewrite app_nil_r. destruct w. simpl in Hq. now subst.
    + pose proof (Hyes 0%nat ltac:(lia)) as Hfirst. rewrite Nat.add_0_r in Hfirst.
      rewrite Hfirst.
      erewrite (kbind_silent (enqueue_d2h _))
        by (unfold enqueue_d2h; rewrite Hq; reflexivity).
      rewrite kbind_OP_REQUIRES_ASYNC.
      erewrite (IH k (S i)); [| reflexivity | simpl in Hk; lia | | ].
      * cbn [take client_ h2d_stream output_tensor]. now rewrite <- app_assoc.
      * now replace (S i + k)%nat with (i + S k)%nat by lia.
      * intros j Hj. replace (S i + j)%nat with (i + S j)%nat by lia. apply Hyes. lia.
Qed.

(** X23: when the device refuses the copy of tensor [k], a device Put of
    float tensors that has written its header sets the status to Internal,
    calls [done] and returns at once.  The wait and the copies of the
    tensors before [k] stay on [d2h_stream], the closure that seals is not
    enqueued, and the object stays in the store unsealed. *)
Theorem device_put_refused_copy (context : OpKernelContext) (w : World)
    (object_id : ObjectID) (offset : Z) (offsets : list Z) (k : nat) :
  result (stage context w) = Val (object_id, offset, offsets) ->
  Forall (fun t => dtype t = DT_FLOAT) (put_tensors context) ->
  default [] (d2h_stream w) = [] ->
  orig_stream context = true ->
  HostMemoryRegister_ok context = true ->
  Stream_Init_ok context = true ->
  ThenWaitFor_ok context = true ->
  (k < length (put_tensors context))%nat ->
  ThenMemcpy_ok context k = false ->
  (forall j, (j < k)%nat -> ThenMemcpy_ok context j = true) ->
  let r := ComputeAsync GPUDevice context w in
  result r = Stop Returned /\
  trace r = trace (stage context w) ++ [SetStatus (Some Internal); CallDone] /\
  d2h_stream (final r) =
    Some (WaitFor :: take k (copies_from object_id offset offsets 0 (put_tensors context))) /\
  exists data,
    objects (client_ (final r)) !! object_id =
      Some {| obj_data := data; obj_sealed := false |}.
Proof.
  intros Hstage Hfloat Hidle Hstream Hregister Hinit Hwait Hk Hno Hyes r.
  destruct (stage_val_inv _ _ _ _ _ Hstage)
    as (input0 & others & plasma_object_id & total_bytes & arrow_dtype & header_size
        & data' & _ & _ & _ & _ & _ & _ & _ & _ & _ & _ & Hfinal).
  set (w1 := final (stage context w)) in *.
  assert (Hd2h : d2h_stream w1 = d2h_stream w) by now rewrite Hfinal.
  assert (Hobj : objects (client_ w1) !! object_id =
                 Some {| obj_data := data'; obj_sealed := false |}).
  { rewrite Hfinal. cbn [client_ objects]. apply lookup_insert_eq. }
  assert (Hrun : transfer GPUDevice context object_id offset offsets w1 =
                 {| trace := [SetStatus (Some Internal); CallDone];
                    final := {| client_ := client_ w1;
                                d2h_stream :=
                                  Some ([WaitFor] ++ take k (copies_from object_id offset
                                                               offsets 0
                                                               (put_tensors context)));
                                h2d_stream := h2d_stream w1;
                                output_tensor := output_tensor w1 |};
                    result := Stop Returned |}).
  { rewrite device_transfer_to_loop; try assumption; [|now rewrite Hd2h].
    set (w2 := {| client_ := client_ w1; d2h_stream := Some [WaitFor];
                  h2d_stream := h2d_stream w1; output_tensor := output_tensor w1 |}).
    pose proof (ThenMemcpy_loop_refused context object_id offset offsets _ Hfloat k 0
                  w2 [WaitFor] eq_refl Hk Hno Hyes) as Hloop.
    rewrite (kbind_stops _ _ _ Returned) by now rewrite Hloop.
    now rewrite Hloop. }
  subst r. unfold ComputeAsync. rewrite (kbind_run _ _ _ _ Hstage). fold w1.
  rewrite Hrun. cbn [trace final result client_ d2h_stream].
  split; [reflexivity|]. split; [reflexivity|]. split; [reflexivity|].
  now exists data'.
Qed.
End DeviceRefusal.

(** A device that takes no copy. *)
Lemma device_put_refused_copy_witness :
  let context := {| inputs := [float_tensor [x0a; x0b; x0c; x0d];
                               string_tensor [sample_id]];
                    orig_stream := true; allocate_output_status := None;
                    allocated_memory := fun _ => xff; HostMemoryRegister_ok := true;
                    Stream_Init_ok := true; ThenWaitFor_ok := true;
                    ThenMemcpy_ok := fun _ => false |} in
  let r := @TensorToPlasmaOp.ComputeAsync sample_format GPUDevice context empty_world in
  result r = Stop Returned /\
  trace r = trace (@TensorToPlasmaOp.stage sample_format context empty_world)
              ++ [SetStatus (Some Internal); CallDone] /\
  d2h_stream (final r) =
    Some (WaitFor :: take 0 (copies_from sample_id 8 [0; 4] 0 (put_tensors context))) /\
  exists data,
    objects (client_ (final r)) !! sample_id =
      Some {| obj_data := data; obj_sealed := false |}.
Proof.
  intros context.
  apply (@device_put_refused_copy sample_format context empty_world sample_id 8 [0; 4] 0);
    try reflexivity.
  - repeat constructor.
  - simpl. lia.
  - intros j Hj. lia.
Defined.

(** ** Put and the stream it shares *)

(** X24: a Put never drops or reorders what is waiting on [d2h_stream]: on
    either device and however the call ends, what was on the stream is
    still there, in order, ahead of what the call has added.  The host path
    adds nothing; the device path adds an initial part of its program, and
    all of it when the kernel runs to its end. *)
Theorem put_only_appends_to_stream `{WireFormat} (device : Device)
    (context : OpKernelContext) (w : World) :
  let r := TensorToPlasmaOp.ComputeAsync device context w in
  exists ops,
    queue_of (final r) = queue_of w ++ ops /\
    (device = CPUDevice -> ops = []) /\
    (forall object_id offset offsets,
       result (TensorToPlasmaOp.stage context w) = Val (object_id, offset, offsets) ->
       device = GPUDevice ->
       ops `prefix_of` stream_program object_id offset offsets (put_tensors context) /\
       (result r = Val tt ->
        ops = stream_program object_id offset offsets (put_tensors context))).
Proof.
  intros r. subst r. unfold TensorToPlasmaOp.ComputeAsync.
  assert (Hd : d2h_stream (final (TensorToPlasmaOp.stage context w)) = d2h_stream w).
  { now destruct (stage_final context w) as [->|(oid & data & _ & _ & Hd & _)]. }
  destruct (result (TensorToPlasmaOp.stage context w)) as [[[oid off] offs]|e] eqn:Hstage.
  2:{ rewrite (kbind_stops _ _ _ _ Hstage). cbn [final result]. exists [].
      unfold queue_of. rewrite Hd, app_nil_r. split; [reflexivity|].
      split; [reflexivity | discriminate]. }
  rewrite (kbind_run _ _ _ _ Hstage). cbn [final result].
  set (w1 := final (TensorToPlasmaOp.stage context w)) in *.
  assert (Hq : queue_of w1 = queue_of w) by (unfold queue_of; now rewrite Hd).
  destruct device.
  - exists []. destruct (keeps_host_transfer context oid off offs w1) as [Hkd _].
    unfold queue_of in *. rewrite Hkd, app_nil_r. split; [exact Hq|].
    split; [reflexivity | discriminate].
  - destruct (transfer_enqueues context oid off offs w1) as (ops & Hqueue & Hprefix & Hall).
    exists ops. rewrite Hqueue, Hq. split; [reflexivity|]. split; [discriminate|].
    intros object_id offset offsets [= <- <- <-] _. split; [exact Hprefix | exact Hall].
Qed.
